(** * Budget-Expense-Tracker: the ledger, filter and insights code of [script.js]

    A shallow embedding of the single source file of the repository and the
    properties its specification states about it.  The program is a browser
    script; what it gets from the browser (strings, Numbers, Dates, objects,
    arrays, [localStorage]) is modelled in the first modules, the functions of
    [script.js] follow under their own names, and the theorems come last. *)

From Stdlib Require Import ZArith NArith List Lia Bool Ascii String.
From Stdlib Require Import Sorting.Permutation Sorting.Sorted.
From Stdlib Require Import Floats.SpecFloat.
From stdpp Require Import gmap list.

Local Open Scope Z_scope.

(* ===================================================================== *)
(** ** JavaScript strings *)
(* ===================================================================== *)

(** A JavaScript string is a sequence of UTF-16 code units. *)
Abbreviation JSString := (list N).

Definition js (s : string) : JSString :=
  List.map N_of_ascii (list_ascii_of_string s).

Definition chr (a : ascii) : N := N_of_ascii a.

(** The code unit of the double quote. *)
Definition dquote : N := 34.

Definition str_eqb (a b : JSString) : bool := bool_decide (a = b).

Definition is_digit (c : N) : bool := ((48 <=? c) && (c <=? 57))%N.

Definition digit_val (c : N) : Z := Z.of_N c - 48.

(** The longest prefix of decimal digits, and what follows it. *)
Fixpoint span_digits (s : JSString) : JSString * JSString :=
  match s with
  | c :: s' =>
      if is_digit c
      then let '(ds, rest) := span_digits s' in (c :: ds, rest)
      else ([], s)
  | [] => ([], [])
  end.

Definition digits_val (ds : JSString) : Z :=
  fold_left (fun acc c => 10 * acc + digit_val c) ds 0.

Fixpoint strip_prefix (p s : JSString) : option JSString :=
  match p, s with
  | [], _ => Some s
  | a :: p', b :: s' => if (a =? b)%N then strip_prefix p' s' else None
  | _ :: _, [] => None
  end.

(* ===================================================================== *)
(** ** Numbers: IEEE 754 binary64 *)
(* ===================================================================== *)

(** A JavaScript Number is a binary64 value.  The arithmetic is the one of
    the standard library's [SpecFloat] at precision 53 and [emax] 1024,
    rounding to nearest, ties to even. *)
Module Number.

Abbreviation t := spec_float.

Definition prec : Z := 53.
Definition emax : Z := 1024.

Definition zero : t := S754_zero false.
Definition nan : t := S754_nan.

Definition add : t -> t -> t := SFadd prec emax.
Definition sub : t -> t -> t := SFsub prec emax.
Definition div : t -> t -> t := SFdiv prec emax.

(** [x > y] and [x < y]; false when either side is NaN. *)
Definition gt (x y : t) : bool := SFltb y x.
Definition lt (x y : t) : bool := SFltb x y.

Definition is_nan (x : t) : bool :=
  match x with S754_nan => true | _ => false end.

Definition is_zero (x : t) : bool :=
  match x with S754_zero _ => true | _ => false end.

Definition is_finite (x : t) : bool :=
  match x with S754_zero _ | S754_finite _ _ _ => true | _ => false end.

(** ToBoolean on a Number: [+0], [-0] and [NaN] are falsy. *)
Definition truthy (x : t) : bool := negb (is_zero x || is_nan x).

(** The Number nearest to an integer. *)
Definition of_Z (z : Z) : t := binary_normalize prec emax z 0 false.

(** The whole part of a finite Number, toward zero; [0] for the others. *)
Definition to_Z (x : t) : Z :=
  match x with
  | S754_finite s m e =>
      cond_Zopp s (if 0 <=? e then Zpos m * 2 ^ e else Zpos m / 2 ^ (- e))
  | _ => 0
  end.

(** The Number nearest to [m * 10 ^ e10], signed by [neg]; this is how a
    decimal literal gets its value. *)
Definition of_decimal (neg : bool) (m : Z) (e10 : Z) : t :=
  match m with
  | Zpos p =>
      if 0 <=? e10
      then binary_round prec emax neg (p * Z.to_pos (10 ^ e10)) 0
      else
        let '(q, e, l) :=
          SFdiv_core_binary prec emax (Zpos p) 0 (10 ^ (- e10)) 0 in
        binary_round_aux prec emax neg q e l
  | _ => S754_zero neg
  end.

(** The members of StrWhiteSpaceChar. *)
Definition is_space (c : N) : bool :=
  ((c =? 9) || (c =? 10) || (c =? 11) || (c =? 12) || (c =? 13) ||
   (c =? 32) || (c =? 160) || (c =? 5760) ||
   ((8192 <=? c) && (c <=? 8202)) ||
   (c =? 8232) || (c =? 8233) || (c =? 8239) || (c =? 8287) ||
   (c =? 12288) || (c =? 65279))%N.

Fixpoint skip_space (s : JSString) : JSString :=
  match s with
  | c :: s' => if is_space c then skip_space s' else s
  | [] => []
  end.

(** An ExponentPart at the head of [s]: its value, or [0] when [s] does not
    start with one (the literal then ends before it). *)
Definition exponent_part (s : JSString) : Z :=
  match s with
  | c :: s' =>
      if ((c =? chr "e") || (c =? chr "E"))%N then
        let '(neg, s'') :=
          match s' with
          | d :: r =>
              if (d =? chr "-")%N then (true, r)
              else if (d =? chr "+")%N then (false, r)
              else (false, s')
          | [] => (false, s')
          end in
        let '(ds, _) := span_digits s'' in
        match ds with
        | [] => 0
        | _ => if neg then - digits_val ds else digits_val ds
        end
      else 0
  | [] => 0
  end.

(** The longest prefix of [s] that is a StrUnsignedDecimalLiteral other
    than [Infinity], as a Number; NaN when there is none. *)
Definition unsigned_decimal (neg : bool) (s : JSString) : t :=
  let '(ip, r1) := span_digits s in
  match r1 with
  | c :: r2 =>
      if (c =? chr ".")%N then
        let '(fp, r3) := span_digits r2 in
        match ip, fp with
        | [], [] => nan
        | _, _ =>
            of_decimal neg (digits_val (ip ++ fp))
              (exponent_part r3 - Z.of_nat (length fp))
        end
      else
        match ip with
        | [] => nan
        | _ => of_decimal neg (digits_val ip) (exponent_part r1)
        end
  | [] =>
      match ip with
      | [] => nan
      | _ => of_decimal neg (digits_val ip) 0
      end
  end.

(** The global function [parseFloat] applied to a string. *)
Definition parseFloat (s : JSString) : t :=
  let s1 := skip_space s in
  let '(neg, s2) :=
    match s1 with
    | c :: r =>
        if (c =? chr "-")%N then (true, r)
        else if (c =? chr "+")%N then (false, r)
        else (false, s1)
    | [] => (false, s1)
    end in
  match strip_prefix (js "Infinity") s2 with
  | Some _ => S754_infinity neg
  | None => unsigned_decimal neg s2
  end.

End Number.

(* ===================================================================== *)
(** ** Dates: time values and the civil calendar *)
(* ===================================================================== *)

(** A Date holds a time value: a whole number of milliseconds since the
    epoch, or NaN ([None]) for an invalid Date.  The day and calendar
    functions are the abstract operations of ECMAScript's Date objects. *)
Module Date.

Definition msPerDay : Z := 86400000.

Definition Day (t : Z) : Z := t / msPerDay.

Definition TimeWithinDay (t : Z) : Z := t mod msPerDay.

Definition DaysInYear (y : Z) : Z :=
  if negb (y mod 4 =? 0) then 365
  else if negb (y mod 100 =? 0) then 366
  else if negb (y mod 400 =? 0) then 365
  else 366.

Definition DayFromYear (y : Z) : Z :=
  365 * (y - 1970) + (y - 1969) / 4 - (y - 1901) / 100 + (y - 1601) / 400.

(** The year a day falls in: the largest [y] with [DayFromYear y <= d].
    The estimate from the mean year length is off by one at most. *)
Definition YearFromDay (d : Z) : Z :=
  let y := 1970 + (400 * d) / 146097 in
  if d <? DayFromYear y then y - 1
  else if DayFromYear (y + 1) <=? d then y + 1
  else y.

Definition YearFromTime (t : Z) : Z := YearFromDay (Day t).

Definition InLeapYear (y : Z) : Z := if DaysInYear y =? 366 then 1 else 0.

Definition DayWithinYear (t : Z) : Z :=
  Day t - DayFromYear (YearFromTime t).

(** The number of days of the year before month [m] (January is [0]), in a
    year with leap-day count [L]. *)
Definition month_start (L m : Z) : Z :=
  match m with
  | 0 => 0
  | 1 => 31
  | 2 => 59 + L
  | 3 => 90 + L
  | 4 => 120 + L
  | 5 => 151 + L
  | 6 => 181 + L
  | 7 => 212 + L
  | 8 => 243 + L
  | 9 => 273 + L
  | 10 => 304 + L
  | _ => 334 + L
  end.

Definition MonthFromTime (t : Z) : Z :=
  let d := DayWithinYear t in
  let L := InLeapYear (YearFromTime t) in
  if d <? 31 then 0
  else if d <? 59 + L then 1
  else if d <? 90 + L then 2
  else if d <? 120 + L then 3
  else if d <? 151 + L then 4
  else if d <? 181 + L then 5
  else if d <? 212 + L then 6
  else if d <? 243 + L then 7
  else if d <? 273 + L then 8
  else if d <? 304 + L then 9
  else if d <? 334 + L then 10
  else 11.

Definition DateFromTime (t : Z) : Z :=
  DayWithinYear t
  - month_start (InLeapYear (YearFromTime t)) (MonthFromTime t) + 1.

(** [MakeDay]: the day number of day [date] of month [month] of [year];
    months and dates outside their range carry over. *)
Definition MakeDay (year month date : Z) : Z :=
  let ym := year + month / 12 in
  let mn := month mod 12 in
  DayFromYear ym + month_start (InLeapYear ym) mn + date - 1.

Definition MakeDate (day time : Z) : Z := day * msPerDay + time.

Definition TimeClip (t : Z) : option Z :=
  if Z.abs t <=? 8640000000000000 then Some t else None.

(** The time zone of the host: the offset of local time from UTC at a UTC
    instant, and at a local instant (the two arguments of LocalTZA). *)
Record TimeZone := {
  offset_at_utc : Z -> Z;
  offset_at_local : Z -> Z
}.

Definition LocalTime (tz : TimeZone) (t : Z) : Z := t + offset_at_utc tz t.

Definition UTC (tz : TimeZone) (t : Z) : Z := t - offset_at_local tz t.

Definition getDate (tz : TimeZone) (t : Z) : Z :=
  DateFromTime (LocalTime tz t).

Definition getMonth (tz : TimeZone) (t : Z) : Z :=
  MonthFromTime (LocalTime tz t).

(** [d.setDate(dt)] on a valid Date: the new time value, which is also
    what the call returns. *)
Definition setDate (tz : TimeZone) (t dt : Z) : option Z :=
  let lt := LocalTime tz t in
  let newDate :=
    MakeDate (MakeDay (YearFromTime lt) (MonthFromTime lt) dt)
             (TimeWithinDay lt) in
  TimeClip (UTC tz newDate).

(** [d.setMonth(m)] on a valid Date, the day of the month kept. *)
Definition setMonth (tz : TimeZone) (t m : Z) : option Z :=
  let lt := LocalTime tz t in
  let newDate :=
    MakeDate (MakeDay (YearFromTime lt) m (DateFromTime lt))
             (TimeWithinDay lt) in
  TimeClip (UTC tz newDate).

(** The number of days of month [m] (January is [0]) of year [y]. *)
Definition DaysInMonth (y m : Z) : Z :=
  if m =? 11 then 31
  else month_start (InLeapYear y) (m + 1) - month_start (InLeapYear y) m.

(** The date-only form [YYYY-MM-DD] of the Date Time String Format: its
    year, month and day when [s] has that form. *)
Definition iso_date (s : JSString) : option (Z * Z * Z) :=
  match s with
  | [y1; y2; y3; y4; h1; m1; m2; h2; d1; d2] =>
      if forallb is_digit [y1; y2; y3; y4; m1; m2; d1; d2]
         && (h1 =? chr "-")%N && (h2 =? chr "-")%N
      then Some (digits_val [y1; y2; y3; y4],
                 digits_val [m1; m2], digits_val [d1; d2])
      else None
  | _ => None
  end.

(** [Date.parse]: a string in the form [YYYY-MM-DD] that names a day of the
    calendar is midnight UTC of that day.  What any other string parses to
    is left to the implementation by ECMAScript (and differs between
    browsers), so it is a parameter, [other]. *)
Definition parse (other : JSString -> option Z) (s : JSString) : option Z :=
  match iso_date s with
  | Some (y, m, d) =>
      if (1 <=? m) && (m <=? 12) && (1 <=? d) && (d <=? DaysInMonth y (m - 1))
      then Some (MakeDate (MakeDay y (m - 1) d) 0)
      else other s
  | None => other s
  end.

End Date.

(** What the script takes from its host and [script.js] does not fix. *)
Record Host := {
  timeZone : Date.TimeZone;
  (** [Date.parse] on strings that are not a calendar day [YYYY-MM-DD] *)
  parseOtherDate : JSString -> option Z;
  (** Number::toString, used by [toFixed] for magnitudes of 1e21 and more *)
  numberToString : Number.t -> JSString
}.

(** [new Date(s)] for a string [s]: the time value, NaN as [None]. *)
Definition newDate (h : Host) (s : JSString) : option Z :=
  match Date.parse (parseOtherDate h) s with
  | Some t => Date.TimeClip t
  | None => None
  end.

(* ===================================================================== *)
(** ** JSON text *)
(* ===================================================================== *)

(** [JSON.parse] on a string: the JSON grammar of ECMA-404.  The value
    parser recurses on a fuel that [parse] sets from the length of the
    text. *)
Module JSON.

#[warnings="-register-all"]
Inductive value :=
| Null
| Bool (b : bool)
| Num (x : Number.t)
| Str (s : JSString)
| Arr (vs : list value)
| Obj (members : list (JSString * value)).

(** What a parse ends in. *)
Inductive result (A : Type) :=
| Ok (a : A)
| SyntaxError
| OutOfFuel.
Arguments Ok {A} a.
Arguments SyntaxError {A}.
Arguments OutOfFuel {A}.

Definition is_ws (c : N) : bool :=
  ((c =? 32) || (c =? 9) || (c =? 10) || (c =? 13))%N.

Fixpoint skip_ws (s : JSString) : JSString :=
  match s with
  | c :: s' => if is_ws c then skip_ws s' else s
  | [] => []
  end.

Definition hex_val (c : N) : option N :=
  if is_digit c then Some (c - 48)%N
  else if ((97 <=? c) && (c <=? 102))%N then Some (c - 87)%N
  else if ((65 <=? c) && (c <=? 70))%N then Some (c - 55)%N
  else None.

(** The characters of a string after its opening quote, up to the closing
    quote: the string they denote and the text after the quote. *)
Fixpoint string_body (s : JSString) : option (JSString * JSString) :=
  match s with
  | [] => None
  | c :: r =>
      if (c =? dquote)%N then Some ([], r)
      else if (c <? 32)%N then None
      else if (c =? chr "\")%N then
        match r with
        | e :: r' =>
            let simple (u : N) :=
              match string_body r' with
              | Some (t, rest) => Some (u :: t, rest)
              | None => None
              end in
            if (e =? dquote)%N then simple 34%N
            else if (e =? chr "\")%N then simple 92%N
            else if (e =? chr "/")%N then simple 47%N
            else if (e =? chr "b")%N then simple 8%N
            else if (e =? chr "f")%N then simple 12%N
            else if (e =? chr "n")%N then simple 10%N
            else if (e =? chr "r")%N then simple 13%N
            else if (e =? chr "t")%N then simple 9%N
            else if (e =? chr "u")%N then
              match r' with
              | h1 :: ((h2 :: ((h3 :: ((h4 :: r'') as q3)) as q2)) as q1) =>
                  match hex_val h1, hex_val h2, hex_val h3, hex_val h4 with
                  | Some a, Some b, Some c', Some d =>
                      match string_body r'' with
                      | Some (t, rest) =>
                          Some ((((a * 16 + b) * 16 + c') * 16 + d)%N :: t,
                                rest)
                      | None => None
                      end
                  | _, _, _, _ => None
                  end
              | _ => None
              end
            else None
        | [] => None
        end
      else
        match string_body r with
        | Some (t, rest) => Some (c :: t, rest)
        | None => None
        end
  end.

(** A JSON number at the head of [s] ([neg]: a minus sign came before). *)
Definition number (neg : bool) (s : JSString) : option (Number.t * JSString) :=
  let '(ip, r1) := span_digits s in
  let int_ok :=
    match ip with
    | [] => false
    | [_] => true
    | c :: _ => negb (c =? chr "0")%N
    end in
  if negb int_ok then None else
  let '(fp, r2, frac_ok) :=
    match r1 with
    | c :: r =>
        if (c =? chr ".")%N then
          let '(fp, r2) := span_digits r in
          (fp, r2, match fp with [] => false | _ => true end)
        else ([], r1, true)
    | [] => ([], r1, true)
    end in
  if negb frac_ok then None else
  let '(e10, r3, exp_ok) :=
    match r2 with
    | c :: r =>
        if ((c =? chr "e") || (c =? chr "E"))%N then
          let '(eneg, r') :=
            match r with
            | d :: q =>
                if (d =? chr "-")%N then (true, q)
                else if (d =? chr "+")%N then (false, q)
                else (false, r)
            | [] => (false, r)
            end in
          let '(ds, r3) := span_digits r' in
          (if eneg then - digits_val ds else digits_val ds, r3,
           match ds with [] => false | _ => true end)
        else (0, r2, true)
    | [] => (0, r2, true)
    end in
  if negb exp_ok then None else
  Some (Number.of_decimal neg (digits_val (ip ++ fp))
          (e10 - Z.of_nat (length fp)), r3).

Definition literal (word : string) (v : value) (s : JSString)
  : result (value * JSString) :=
  match strip_prefix (js word) s with
  | Some r => Ok (v, r)
  | None => SyntaxError
  end.

(** The properties of the object that a list of members makes, in the
    order of the text: the members are defined one after the other
    (CreateDataProperty), so a name that comes again keeps its place and
    takes the later value. *)
Fixpoint define {A} (k : JSString) (v : A) (ms : list (JSString * A))
  : list (JSString * A) :=
  match ms with
  | [] => [(k, v)]
  | (k', v') :: ms' =>
      if str_eqb k' k then (k', v) :: ms' else (k', v') :: define k v ms'
  end.

Definition properties {A} (ms : list (JSString * A)) : list (JSString * A) :=
  fold_left (fun acc kv => define (fst kv) (snd kv) acc) ms [].

(** [parse_value] reads one value at the head of [s] (after white space);
    [elements] and [members] read the rest of an array and of an object,
    [acc] holding what was read, last first. *)
Fixpoint parse_value (fuel : nat) (s : JSString) : result (value * JSString) :=
  match fuel with
  | O => OutOfFuel
  | S n =>
      match skip_ws s with
      | [] => SyntaxError
      | c :: r =>
          if (c =? chr "{")%N then
            match skip_ws r with
            | c' :: r' =>
                if (c' =? chr "}")%N then Ok (Obj [], r')
                else members n (skip_ws r) []
            | [] => SyntaxError
            end
          else if (c =? chr "[")%N then
            match skip_ws r with
            | c' :: r' =>
                if (c' =? chr "]")%N then Ok (Arr [], r')
                else elements n r []
            | [] => SyntaxError
            end
          else if (c =? dquote)%N then
            match string_body r with
            | Some (t, rest) => Ok (Str t, rest)
            | None => SyntaxError
            end
          else if (c =? chr "t")%N then literal "true" (Bool true) (c :: r)
          else if (c =? chr "f")%N then literal "false" (Bool false) (c :: r)
          else if (c =? chr "n")%N then literal "null" Null (c :: r)
          else if (c =? chr "-")%N then
            match number true r with
            | Some (x, rest) => Ok (Num x, rest)
            | None => SyntaxError
            end
          else
            match number false (c :: r) with
            | Some (x, rest) => Ok (Num x, rest)
            | None => SyntaxError
            end
      end
  end
with elements (fuel : nat) (s : JSString) (acc : list value)
  : result (value * JSString) :=
  match fuel with
  | O => OutOfFuel
  | S n =>
      match parse_value n s with
      | Ok (v, r) =>
          match skip_ws r with
          | c :: r' =>
              if (c =? chr ",")%N then elements n r' (v :: acc)
              else if (c =? chr "]")%N then Ok (Arr (rev (v :: acc)), r')
              else SyntaxError
          | [] => SyntaxError
          end
      | SyntaxError => SyntaxError
      | OutOfFuel => OutOfFuel
      end
  end
with members (fuel : nat) (s : JSString) (acc : list (JSString * value))
  : result (value * JSString) :=
  match fuel with
  | O => OutOfFuel
  | S n =>
      match s with
      | q :: r0 =>
          if negb (q =? dquote)%N then SyntaxError else
          match string_body r0 with
          | Some (k, r1) =>
              match skip_ws r1 with
              | c :: r2 =>
                  if negb (c =? chr ":")%N then SyntaxError else
                  match parse_value n r2 with
                  | Ok (v, r3) =>
                      match skip_ws r3 with
                      | c' :: r4 =>
                          if (c' =? chr ",")%N
                          then members n (skip_ws r4) ((k, v) :: acc)
                          else if (c' =? chr "}")%N
                          then Ok (Obj (properties (rev ((k, v) :: acc))), r4)
                          else SyntaxError
                      | [] => SyntaxError
                      end
                  | SyntaxError => SyntaxError
                  | OutOfFuel => OutOfFuel
                  end
              | [] => SyntaxError
              end
          | None => SyntaxError
          end
      | [] => SyntaxError
      end
  end.

(** [JSON.parse(text)]: one value, white space around it, nothing else. *)
Definition parse (text : JSString) : result value :=
  match parse_value (2 * length text + 2) text with
  | Ok (v, r) =>
      match skip_ws r with
      | [] => Ok v
      | _ :: _ => SyntaxError
      end
  | SyntaxError => SyntaxError
  | OutOfFuel => OutOfFuel
  end.

(** ToBoolean on a parsed value. *)
Definition truthy (v : value) : bool :=
  match v with
  | Null => false
  | Bool b => b
  | Num x => Number.truthy x
  | Str s => match s with [] => false | _ => true end
  | Arr _ | Obj _ => true
  end.

End JSON.

(* ===================================================================== *)
(** ** Arrays: a store of mutable arrays *)
(* ===================================================================== *)

(** An expense as the submit handler builds it. *)
Record Expense := {
  id : Z;
  amount : Number.t;
  date : JSString;
  category : JSString;
  description : JSString
}.

(** Arrays are objects: a variable holds a reference, and [sort] and [push]
    change the array every holder of the reference sees.  The store maps
    references to array contents; computations thread it. *)
Abbreviation loc := positive.
Abbreviation Heap := (gmap positive (list Expense)).

Definition M (A : Type) : Type := Heap -> option (A * Heap).

#[global] Instance M_ret : MRet M := fun A a h => Some (a, h).

#[global] Instance M_bind : MBind M := fun A B f m h =>
  match m h with
  | Some (a, h') => f a h'
  | None => None
  end.

(** A new array with contents [v]. *)
Definition alloc (v : list Expense) : M loc := fun h =>
  let l := fresh (dom h) in Some (l, <[l := v]> h).

Definition read (l : loc) : M (list Expense) := fun h =>
  match h !! l with
  | Some v => Some (v, h)
  | None => None
  end.

Definition write (l : loc) (v : list Expense) : M unit := fun h =>
  match h !! l with
  | Some _ => Some (tt, <[l := v]> h)
  | None => None
  end.

(** [[...a]] *)
Definition spread (a : loc) : M loc := v ← read a; alloc v.

(** [a.filter(p)]: a new array. *)
Definition Array_filter (p : Expense -> bool) (a : loc) : M loc :=
  v ← read a; alloc (List.filter p v).

(** [a.push(x)] *)
Definition Array_push (a : loc) (x : Expense) : M unit :=
  v ← read a; write a (v ++ [x]).

(** SortCompare leaves [x] before [y] unless the comparator's result is
    above zero.  Insertion from the right keeps elements that compare equal
    in their order: the sort is stable, as ECMAScript requires, and for a
    consistent comparator that fixes its result.  (For an inconsistent one
    ECMAScript leaves the order to the implementation; this is then one of
    the orders allowed.) *)
Fixpoint sort_insert {A} (cmp : A -> A -> Z) (x : A) (l : list A) : list A :=
  match l with
  | [] => [x]
  | y :: l' => if cmp x y <=? 0 then x :: y :: l' else y :: sort_insert cmp x l'
  end.

Definition sorted_by {A} (cmp : A -> A -> Z) (l : list A) : list A :=
  foldr (sort_insert cmp) [] l.

(** [a.sort(cmp)]: sorts [a] in place. *)
Definition Array_sort (cmp : Expense -> Expense -> Z) (a : loc) : M unit :=
  v ← read a; write a (sorted_by cmp v).

(* ===================================================================== *)
(** ** Objects used as maps *)
(* ===================================================================== *)

(** The object [{}] that the category totals are collected in: its own
    properties, in creation order. *)
Abbreviation JSObject := (list (JSString * Number.t)).

Fixpoint own (o : JSObject) (k : JSString) : option Number.t :=
  match o with
  | [] => None
  | (k', v) :: o' => if str_eqb k' k then Some v else own o' k
  end.

(** [o[k] = v] on an object whose properties are all own data properties. *)
Fixpoint set_own (o : JSObject) (k : JSString) (v : Number.t) : JSObject :=
  match o with
  | [] => [(k, v)]
  | (k', v') :: o' =>
      if str_eqb k' k then (k', v) :: o' else (k', v') :: set_own o' k v
  end.

(** The properties an object literal inherits from [Object.prototype]. *)
Definition prototype_names : list JSString :=
  List.map js
    ["constructor"; "__defineGetter__"; "__defineSetter__"; "hasOwnProperty";
     "__lookupGetter__"; "__lookupSetter__"; "isPrototypeOf";
     "propertyIsEnumerable"; "toString"; "valueOf"; "__proto__";
     "toLocaleString"]%string.

Definition inherited (k : JSString) : bool :=
  existsb (str_eqb k) prototype_names.

(** An array index: the canonical decimal form of an integer below
    [2^32 - 1].  [Object.keys] lists such keys first. *)
Definition array_index (k : JSString) : option Z :=
  match k with
  | [] => None
  | c :: r =>
      if forallb is_digit k
         && (match r with [] => true | _ => negb (c =? chr "0")%N end)
         && (Z.of_nat (length k) <=? 10)
         && (digits_val k <=? 4294967294)
      then Some (digits_val k)
      else None
  end.

Definition index_of (kv : JSString * Number.t) : Z :=
  match array_index (fst kv) with Some i => i | None => 0 end.

Definition is_index (kv : JSString * Number.t) : bool :=
  match array_index (fst kv) with Some _ => true | None => false end.

(** [Object.keys(o)]: array indices in ascending order, then the other
    keys in creation order. *)
Definition Object_keys (o : JSObject) : list JSString :=
  List.map fst
    (sorted_by (fun a b => index_of a - index_of b) (List.filter is_index o)
     ++ List.filter (fun kv => negb (is_index kv)) o).

(* ===================================================================== *)
(** ** [Number.prototype.toFixed] *)
(* ===================================================================== *)

Fixpoint uint_codes (u : Decimal.uint) : JSString :=
  match u with
  | Decimal.Nil => []
  | Decimal.D0 r => 48%N :: uint_codes r
  | Decimal.D1 r => 49%N :: uint_codes r
  | Decimal.D2 r => 50%N :: uint_codes r
  | Decimal.D3 r => 51%N :: uint_codes r
  | Decimal.D4 r => 52%N :: uint_codes r
  | Decimal.D5 r => 53%N :: uint_codes r
  | Decimal.D6 r => 54%N :: uint_codes r
  | Decimal.D7 r => 55%N :: uint_codes r
  | Decimal.D8 r => 56%N :: uint_codes r
  | Decimal.D9 r => 57%N :: uint_codes r
  end.

(** The decimal digits of a natural number, [0] for zero. *)
Definition decimal_digits (n : Z) : JSString :=
  uint_codes (N.to_uint (Z.to_N n)).

(** [n] hundredths written with two fraction digits. *)
Definition hundredths (n : Z) : JSString :=
  let ds := decimal_digits n in
  let ds := List.repeat 48%N (3 - length ds) ++ ds in
  firstn (length ds - 2) ds ++ chr "." :: skipn (length ds - 2) ds.

(** The integer nearest to [100 * m * 2^e], the larger one of two. *)
Definition nearest_hundredths (m : positive) (e : Z) : Z :=
  if 0 <=? e then 100 * Zpos m * 2 ^ e
  else (2 * 100 * Zpos m + 2 ^ (- e)) / 2 ^ (- e + 1).

(** [x.toFixed(2)] *)
Definition toFixed2 (h : Host) (x : Number.t) : JSString :=
  match x with
  | S754_nan => js "NaN"
  | S754_infinity false => js "Infinity"
  | S754_infinity true => js "-Infinity"
  | S754_zero _ => js "0.00"
  | S754_finite s m e =>
      if (if 0 <=? e then 10 ^ 21 <=? Zpos m * 2 ^ e
          else 10 ^ 21 * 2 ^ (- e) <=? Zpos m)
      then numberToString h x
      else (if s then js "-" else []) ++ hundredths (nearest_hundredths m e)
  end.

(* ===================================================================== *)
(** ** [script.js]: the functions of the script *)
(* ===================================================================== *)

(** The module state of the script: the store of arrays, the variable
    [expenses], [localStorage], and the two filter selects of the page. *)
Record State := {
  heap : Heap;
  expenses : loc;
  localStorage : gmap (list N) (list N);
  filterCategorySelect : JSString;
  filterTimeSelect : JSString
}.

(** The array [expenses] refers to. *)
Definition ledger (s : State) : option (list Expense) := heap s !! expenses s.

(** The text the four elements of the insights panel show. *)
Record Insights := {
  totalSpendEl : JSString;
  highestCategoryEl : JSString;
  avgSpendEl : JSString;
  suggestionEl : JSString
}.

(** Line 37, the initial load:
    [let expenses = JSON.parse(localStorage.getItem("expenses")) || [];]
    [getItem] gives [null] for an absent key, which [JSON.parse] reads as
    the text [null]. *)
Definition load (stored : option JSString) : JSON.result JSON.value :=
  let text := match stored with Some s => s | None => js "null" end in
  match JSON.parse text with
  | JSON.Ok v => JSON.Ok (if JSON.truthy v then v else JSON.Arr [])
  | JSON.SyntaxError => JSON.SyntaxError
  | JSON.OutOfFuel => JSON.OutOfFuel
  end.

Definition initial_expenses (storage : gmap (list N) (list N))
  : JSON.result JSON.value :=
  load (storage !! js "expenses").

(** The first reduce of [updateInsights] (lines 90 to 93): the sum of the
    amounts, from [0]. *)
Definition totalSpend (currentExpenses : list Expense) : Number.t :=
  fold_left (fun sum exp => Number.add sum (amount exp))
    currentExpenses Number.zero.

(** [(acc[k] || 0)] for an own property value. *)
Definition or_zero (v : Number.t) : Number.t :=
  if Number.truthy v then v else Number.zero.

(** One step of the second reduce (lines 97 to 100):
    [acc[exp.category] = (acc[exp.category] || 0) + exp.amount].
    When the category is not an own property yet but names a property
    inherited from [Object.prototype], [acc[exp.category]] is a function or
    an object, [+] concatenates strings, and the totals are no longer
    Numbers: the model stops there ([None]). *)
Definition categoryStep (acc : JSObject) (exp : Expense) : option JSObject :=
  match own acc (category exp) with
  | Some v =>
      Some (set_own acc (category exp) (Number.add (or_zero v) (amount exp)))
  | None =>
      if inherited (category exp) then None
      else Some (set_own acc (category exp)
                   (Number.add Number.zero (amount exp)))
  end.

(** The second reduce, from [{}]. *)
Definition categorySpends (currentExpenses : list Expense) : option JSObject :=
  fold_left
    (fun acc exp => match acc with Some o => categoryStep o exp | None => None end)
    currentExpenses (Some []).

(** [categorySpends[a] > categorySpends[b]]; an absent property is
    [undefined], which compares as NaN. *)
Definition spends_gt (o : JSObject) (a b : JSString) : bool :=
  match own o a, own o b with
  | Some x, Some y => Number.gt x y
  | _, _ => false
  end.

(** The third reduce (lines 102 to 105), over [Object.keys(categorySpends)]
    from ["-"]. *)
Definition highestCategory (o : JSObject) : JSString :=
  fold_left (fun a b => if spends_gt o a b then a else b)
    (Object_keys o) (js "-").

(** [new Date(Math.min(...ds))] and [new Date(Math.max(...ds))] for Dates
    [ds]: invalid when one of them is, or when there are none. *)
Definition extreme (pick : Z -> Z -> Z) (ds : list (option Z)) : option Z :=
  match ds with
  | [] => None
  | d :: ds' =>
      fold_left
        (fun acc d' =>
           match acc, d' with
           | Some a, Some b => Some (pick a b)
           | _, _ => None
           end)
        ds' d
  end.

Definition firstDate (h : Host) (currentExpenses : list Expense) : option Z :=
  extreme Z.min (List.map (fun e => newDate h (date e)) currentExpenses).

Definition lastDate (h : Host) (currentExpenses : list Expense) : option Z :=
  extreme Z.max (List.map (fun e => newDate h (date e)) currentExpenses).

(** Line 115: [(lastDate - firstDate) / (1000 * 60 * 60 * 24 * 7) + 1].
    The difference of the two Dates is the difference of their time values
    rounded to a Number, NaN when one is invalid. *)
Definition weeks (h : Host) (currentExpenses : list Expense) : Number.t :=
  match lastDate h currentExpenses, firstDate h currentExpenses with
  | Some l, Some f =>
      Number.add
        (Number.div (Number.of_Z (l - f)) (Number.of_Z (1000 * 60 * 60 * 24 * 7)))
        (Number.of_Z 1)
  | _, _ => Number.nan
  end.

(** Line 116: [totalSpend / weeks]. *)
Definition avgWeeklySpend (h : Host) (currentExpenses : list Expense)
  : Number.t :=
  Number.div (totalSpend currentExpenses) (weeks h currentExpenses).

(** [updateInsights] (lines 80 to 121): the text it gives the four
    elements of the panel; [None] where [categorySpends] leaves the model. *)
Definition updateInsights (h : Host) (currentExpenses : list Expense)
  : option Insights :=
  match currentExpenses with
  | [] =>
      Some {| totalSpendEl := js "0.00";
              highestCategoryEl := js "-";
              avgSpendEl := js "0.00";
              suggestionEl := js "Add an expense to get started!" |}
  | _ :: _ =>
      match categorySpends currentExpenses with
      | Some spends =>
          Some {| totalSpendEl := toFixed2 h (totalSpend currentExpenses);
                  highestCategoryEl := highestCategory spends;
                  avgSpendEl := toFixed2 h (avgWeeklySpend h currentExpenses);
                  suggestionEl :=
                    js "You're spending the most on "
                    ++ highestCategory spends
                    ++ js ". Consider reviewing this category." |}
      | None => None
      end
  end.

(** [new Date(exp.date) >= limit] *)
Definition date_ge (h : Host) (exp : Expense) (limit : option Z) : bool :=
  match newDate h (date exp), limit with
  | Some t, Some l => l <=? t
  | _, _ => false
  end.

(** [new Date(now.setDate(now.getDate() - 7))] *)
Definition oneWeekAgo (h : Host) (now : Z) : option Z :=
  Date.setDate (timeZone h) now (Date.getDate (timeZone h) now - 7).

(** [new Date(now.setMonth(now.getMonth() - 1))] *)
Definition oneMonthAgo (h : Host) (now : Z) : option Z :=
  Date.setMonth (timeZone h) now (Date.getMonth (timeZone h) now - 1).

(** The comparator of the sort, [new Date(b.date) - new Date(a.date)], as
    SortCompare reads it: NaN counts as zero.  Time values are integers, so
    the difference of two has the sign of its rounding to a Number. *)
Definition byDateDesc (h : Host) (a b : Expense) : Z :=
  match newDate h (date b), newDate h (date a) with
  | Some tb, Some ta => tb - ta
  | _, _ => 0
  end.

(** Lines 229 to 253 of [applyFilters]: the array [filteredExpenses] that the
    table, the insights and the charts are rendered from.  [now] is the time
    value of [new Date()]. *)
Definition query (h : Host) (now : Z) (categoryValue period : JSString)
    (expensesRef : loc) : M loc :=
  filteredExpenses ← spread expensesRef;
  filteredExpenses ←
    (if negb (str_eqb categoryValue (js "All"))
     then Array_filter (fun exp => str_eqb (category exp) categoryValue)
            filteredExpenses
     else mret filteredExpenses);
  filteredExpenses ←
    (if str_eqb period (js "Weekly")
     then Array_filter (fun exp => date_ge h exp (oneWeekAgo h now))
            filteredExpenses
     else if str_eqb period (js "Monthly")
     then Array_filter (fun exp => date_ge h exp (oneMonthAgo h now))
            filteredExpenses
     else mret filteredExpenses);
  _ ← Array_sort (byDateDesc h) filteredExpenses;
  mret filteredExpenses.

(** What [applyFilters] puts on the page: the rows of the table, in order,
    and the insights panel ([None] where [categorySpends] leaves the model).
    The charts are not modelled. *)
Record Rendered := {
  tableRows : list Expense;
  insightsPanel : option Insights
}.

(** [applyFilters] (lines 225 to 258), with the values of the two selects
    read from the state.  It fails ([None]) only on a dangling reference. *)
Definition applyFilters (h : Host) (now : Z) (s : State)
  : option (Rendered * State) :=
  match (filteredExpenses ←
           query h now (filterCategorySelect s) (filterTimeSelect s) (expenses s);
         read filteredExpenses) (heap s) with
  | Some (rows, heap') =>
      Some ({| tableRows := rows; insightsPanel := updateInsights h rows |},
            {| heap := heap';
               expenses := expenses s;
               localStorage := localStorage s;
               filterCategorySelect := filterCategorySelect s;
               filterTimeSelect := filterTimeSelect s |})
  | None => None
  end.

(** [saveExpenses] (lines 44 to 46).  [JSON.stringify] writes Numbers with
    Number::toString; the serializer is taken from the host. *)
Definition saveExpenses (stringify : list Expense -> JSString) (s : State)
  : option State :=
  match ledger s with
  | Some v =>
      Some {| heap := heap s;
              expenses := expenses s;
              localStorage := <[js "expenses" := stringify v]> (localStorage s);
              filterCategorySelect := filterCategorySelect s;
              filterTimeSelect := filterTimeSelect s |}
  | None => None
  end.

(** The distinct categories of the ledger, first seen first: the options
    [populateFilterCategories] adds after [All]. *)
Fixpoint distinct (seen l : list JSString) : list JSString :=
  match l with
  | [] => []
  | c :: l' =>
      if existsb (str_eqb c) seen then distinct seen l'
      else c :: distinct (c :: seen) l'
  end.

(** [populateFilterCategories] (lines 213 to 220): rebuilding the options
    leaves the first one, [All], selected. *)
Definition populateFilterCategories (s : State)
  : option (list JSString * State) :=
  match ledger s with
  | Some v =>
      Some (js "All" :: distinct [] (List.map category v),
            {| heap := heap s;
               expenses := expenses s;
               localStorage := localStorage s;
               filterCategorySelect := js "All";
               filterTimeSelect := filterTimeSelect s |})
  | None => None
  end.

(** The values of the form's fields at a submission. *)
Record Form := {
  amountInput : JSString;
  dateInput : JSString;
  categorySelect : JSString;
  descriptionInput : JSString
}.

(** What the user sees after a submission: the alert, or the page rendered
    again and the success message. *)
Inductive Outcome :=
| Alert (message : JSString)
| Success (page : Rendered).

(** The clock readings a submission takes: [Date.now()] for the id, and
    [new Date()] in [applyFilters]. *)
Record Clock := {
  idTime : Z;
  filterTime : Z
}.

(** The submit handler of [expenseForm] (lines 284 to 318), up to the
    success message and the reset of the form. *)
Definition submit (h : Host) (stringify : list Expense -> JSString)
    (clock : Clock) (form : Form) (s : State) : option (Outcome * State) :=
  let amount := Number.parseFloat (amountInput form) in
  let date := dateInput form in
  let category := categorySelect form in
  let description := descriptionInput form in
  if negb (Number.truthy amount)
     || str_eqb date [] || str_eqb category []
  then Some (Alert (js "Please fill in all required fields."), s)
  else
    let newExpense :=
      {| id := idTime clock;
         amount := amount;
         date := date;
         category := category;
         description := description |} in
    match Array_push (expenses s) newExpense (heap s) with
    | Some (_, heap') =>
        s1 ← saveExpenses stringify
               {| heap := heap';
                  expenses := expenses s;
                  localStorage := localStorage s;
                  filterCategorySelect := filterCategorySelect s;
                  filterTimeSelect := filterTimeSelect s |};
        '(page, s2) ← applyFilters h (filterTime clock) s1;
        '(_, s3) ← populateFilterCategories s2;
        Some (Success page, s3)
    | None => None
    end.

(** A run of submissions, each with its clock readings. *)
Fixpoint submissions (h : Host) (stringify : list Expense -> JSString)
    (subs : list (Clock * Form)) (s : State) : option State :=
  match subs with
  | [] => Some s
  | (clock, form) :: subs' =>
      '(_, s') ← submit h stringify clock form s;
      submissions h stringify subs' s'
  end.

(* ===================================================================== *)
(** ** A host and a ledger to run the script on *)
(* ===================================================================== *)

(** A browser in the UTC time zone that parses nothing but calendar days. *)
Definition host0 : Host :=
  {| timeZone := {| Date.offset_at_utc := fun _ => 0;
                    Date.offset_at_local := fun _ => 0 |};
     parseOtherDate := fun _ => None;
     numberToString := fun _ => [] |}.

Definition stringify0 (v : list Expense) : JSString :=
  List.concat (List.map (fun e => date e ++ category e) v).

Definition food100 : Expense :=
  {| id := 1704067200123; amount := Number.of_Z 100;
     date := js "2024-01-01"; category := js "Food"; description := [] |}.

Definition food50 : Expense :=
  {| id := 1704672000456; amount := Number.of_Z 50;
     date := js "2024-01-08"; category := js "Food"; description := [] |}.

Definition rent150 : Expense :=
  {| id := 1704672000789; amount := Number.of_Z 150;
     date := js "2024-01-08"; category := js "Rent"; description := js "flat" |}.

Definition ledger0 : list Expense := [food100; food50; rent150].

(** 10 January 2024, noon UTC. *)
Definition now0 : Z := 1704888000000.

Definition state0 : State :=
  {| heap := {[ 1%positive := ledger0 ]};
     expenses := 1%positive;
     localStorage := ∅;
     filterCategorySelect := js "Food";
     filterTimeSelect := js "Weekly" |}.

Definition emptyState : State :=
  {| heap := {[ 1%positive := [] ]};
     expenses := 1%positive;
     localStorage := ∅;
     filterCategorySelect := js "All";
     filterTimeSelect := js "All" |}.

Definition clock0 : Clock :=
  {| idTime := 1704888000000; filterTime := 1704888000001 |}.

Definition clock1 : Clock :=
  {| idTime := 1704888000250; filterTime := 1704888000251 |}.

Definition lunch : Form :=
  {| amountInput := js "12.5"; dateInput := js "2024-01-10";
     categorySelect := js "Food"; descriptionInput := js "lunch" |}.

(** A refund entered as a negative amount. *)
Definition refund : Form :=
  {| amountInput := js "-5"; dateInput := js "2024-01-10";
     categorySelect := js "Food"; descriptionInput := js "refund" |}.

Definition food10 : Expense :=
  {| id := 1704067200123; amount := Number.of_Z 10;
     date := js "2024-01-01"; category := js "Food"; description := [] |}.

Definition rent10 : Expense :=
  {| id := 1704067200456; amount := Number.of_Z 10;
     date := js "2024-01-02"; category := js "Rent"; description := [] |}.

(** The two records of the specification's example. *)
Definition example : list Expense := [food100; food50].

Definition priced (a : Number.t) : Expense :=
  {| id := 0; amount := a; date := js "2024-01-01";
     category := js "Food"; description := [] |}.

(** [1e16], [1], [1], and the same amounts with the large one last. *)
Definition largeFirst : list Expense :=
  [priced (Number.parseFloat (js "1e16")); priced (Number.of_Z 1);
   priced (Number.of_Z 1)].

Definition largeLast : list Expense :=
  [priced (Number.of_Z 1); priced (Number.of_Z 1);
   priced (Number.parseFloat (js "1e16"))].

(* ===================================================================== *)
(** ** The specification's reading of the filter *)
(* ===================================================================== *)

(** The time value of an expense's date, when it has one. *)
Definition timeOf (h : Host) (e : Expense) : option Z := newDate h (date e).

(** [now] moved seven days back on the local clock. *)
Definition sevenDaysBefore (h : Host) (now : Z) : option Z :=
  Date.TimeClip
    (Date.UTC (timeZone h)
       (Date.LocalTime (timeZone h) now - 7 * Date.msPerDay)).

(** The calendar month before month [m] (0 to 11) of year [y]: December of
    the year before for January. *)
Definition monthBefore (y m : Z) : Z * Z :=
  if m =? 0 then (y - 1, 11) else (y, m - 1).

(** The number of days of the calendar month before the month [now] is in,
    on the local clock. *)
Definition daysOfMonthBefore (h : Host) (now : Z) : Z :=
  let lt := Date.LocalTime (timeZone h) now in
  let (y, m) := monthBefore (Date.YearFromTime lt) (Date.MonthFromTime lt) in
  Date.DaysInMonth y m.

(** [now] moved back, on the local clock, by as many days as the calendar
    month before has. *)
Definition oneMonthBefore (h : Host) (now : Z) : option Z :=
  Date.TimeClip
    (Date.UTC (timeZone h)
       (Date.LocalTime (timeZone h) now
        - daysOfMonthBefore h now * Date.msPerDay)).


(** [now] minus one calendar month, as the specification words the Monthly
    limit: on the local calendar, the same time of day on the same day of
    the month before, and on the last day of that month where it has no
    such day. *)
Definition oneCalendarMonthBefore (h : Host) (now : Z) : option Z :=
  let lt := Date.LocalTime (timeZone h) now in
  let (y, m) := monthBefore (Date.YearFromTime lt) (Date.MonthFromTime lt) in
  Date.TimeClip
    (Date.UTC (timeZone h)
       (Date.MakeDate
          (Date.MakeDay y m
             (Z.min (Date.DateFromTime lt) (Date.DaysInMonth y m)))
          (Date.TimeWithinDay lt))).



(** The same as a test, the way the code takes its decisions. *)
Definition keeps (h : Host) (now : Z) (categoryValue period : JSString)
    (e : Expense) : bool :=
  (str_eqb categoryValue (js "All") || str_eqb (category e) categoryValue)
  && (if str_eqb period (js "Weekly") then date_ge h e (oneWeekAgo h now)
      else if str_eqb period (js "Monthly") then date_ge h e (oneMonthAgo h now)
      else true).

(** Descending by date. *)
Definition notEarlier (h : Host) (a b : Expense) : Prop :=
  match timeOf h a, timeOf h b with
  | Some ta, Some tb => tb <= ta
  | _, _ => False
  end.

Definition dated (h : Host) (e : Expense) : Prop := is_Some (timeOf h e).

Definition onDate (h : Host) (t : Z) (e : Expense) : bool :=
  match timeOf h e with
  | Some t' => t' =? t
  | None => false
  end.

(** The time value as a sort key; [0] stands in where there is none. *)
Definition timeKey (h : Host) (e : Expense) : Z :=
  match timeOf h e with Some t => t | None => 0 end.

(** [hp] holds a fresh array [a] with contents [v] on top of [hp0]. *)
Definition extends (hp0 hp : Heap) (a : loc) (v : list Expense) : Prop :=
  hp !! a = Some v /\ hp0 !! a = None /\
  forall k x, hp0 !! k = Some x -> hp !! k = Some x.


(** The record the submit handler builds from the form. *)
Definition newExpense (clock : Clock) (form : Form) : Expense :=
  {| id := idTime clock;
     amount := Number.parseFloat (amountInput form);
     date := dateInput form;
     category := categorySelect form;
     description := descriptionInput form |}.

(** The submissions that pass the handler's check. *)
Definition accepted (form : Form) : bool :=
  Number.truthy (Number.parseFloat (amountInput form))
  && negb (str_eqb (dateInput form) [])
  && negb (str_eqb (categorySelect form) []).

(** The records a run of submissions appends. *)
Definition appended (subs : list (Clock * Form)) : list Expense :=
  List.map (fun cf => newExpense (fst cf) (snd cf))
    (List.filter (fun cf => accepted (snd cf)) subs).

(** Numbers other than NaN are ordered as their ranks are: by class
    (negative infinity, negative, zero, positive, positive infinity), then
    by exponent and by mantissa, both turned around for negative Numbers. *)
Definition rank (x : Number.t) : Z * Z * Z :=
  match x with
  | S754_infinity true => (-2, 0, 0)
  | S754_finite true m e => (-1, - e, - Zpos m)
  | S754_zero _ => (0, 0, 0)
  | S754_nan => (0, 0, 0)
  | S754_finite false m e => (1, e, Zpos m)
  | S754_infinity false => (2, 0, 0)
  end.

Definition rank_lt (a b : Z * Z * Z) : Prop :=
  let '(a1, a2, a3) := a in
  let '(b1, b2, b3) := b in
  a1 < b1 \/ (a1 = b1 /\ (a2 < b2 \/ (a2 = b2 /\ a3 < b3))).

(** The running total of category [k] as the second reduce keeps it: none
    before the first record of the category, and [(total || 0) + amount]
    from then on. *)
Definition totalStep (k : JSString) (acc : option Number.t) (e : Expense)
  : option Number.t :=
  if str_eqb (category e) k
  then Some (Number.add
               (match acc with Some v => or_zero v | None => Number.zero end)
               (amount e))
  else acc.

Definition categoryTotal (records : list Expense) (k : JSString)
  : option Number.t :=
  fold_left (totalStep k) records None.

(** The choice the third reduce makes between the category it holds and
    the next key. *)
Definition pick {A} (gt : A -> A -> bool) (a b : A) : A :=
  if gt a b then a else b.

(** A property with a total that is a Number other than NaN. *)
Definition counted (o : JSObject) (k : JSString) : Prop :=
  exists x, own o k = Some x /\ Number.is_nan x = false.

(** An amount that is a whole number. *)
Definition whole (e : Expense) : Prop :=
  amount e = Number.of_Z (Number.to_Z (amount e)).

(** The arithmetic sum of whole amounts, and the sum of their magnitudes. *)
Definition sumOf (records : list Expense) : Z :=
  fold_right (fun e acc => Number.to_Z (amount e) + acc) 0 records.

Definition magnitudeOf (records : list Expense) : Z :=
  fold_right (fun e acc => Z.abs (Number.to_Z (amount e)) + acc) 0 records.

(* ===================================================================== *)
(** ** [script.js]: the listeners of the two filter selects *)
(* ===================================================================== *)

(** The user's choice of an option of [filterTimeSelect] or of
    [filterCategorySelect]: the select holds the option's value when its
    [change] event fires. *)
Definition selectPeriod (period : JSString) (s : State) : State :=
  {| heap := heap s;
     expenses := expenses s;
     localStorage := localStorage s;
     filterCategorySelect := filterCategorySelect s;
     filterTimeSelect := period |}.

Definition selectCategory (categoryValue : JSString) (s : State) : State :=
  {| heap := heap s;
     expenses := expenses s;
     localStorage := localStorage s;
     filterCategorySelect := categoryValue;
     filterTimeSelect := filterTimeSelect s |}.

(** Lines 321 and 322: both [change] listeners are [applyFilters]. *)
Definition filterCategoryChanged (h : Host) (now : Z)
    (categoryValue : JSString) (s : State) : option (Rendered * State) :=
  applyFilters h now (selectCategory categoryValue s).

Definition filterTimeChanged (h : Host) (now : Z) (period : JSString)
    (s : State) : option (Rendered * State) :=
  applyFilters h now (selectPeriod period s).

(* ===================================================================== *)
(** ** [script.js]: the table *)
(* ===================================================================== *)

(** [d.toLocaleDateString()]: the text for a time value is the locale's
    ([localeDate], from the host); an invalid Date reads [Invalid Date]. *)
Definition toLocaleDateString (localeDate : Z -> JSString) (d : option Z)
  : JSString :=
  match d with
  | Some t => localeDate t
  | None => js "Invalid Date"
  end.

(** A row of the table body: the markup it was given, and its classes. *)
Record Row := {
  markup : JSString;
  classList : list JSString
}.

Definition newline : N := 10.

(** The rupee sign, U+20B9. *)
Definition rupee : N := 8377.

(** The template of lines 62 to 67; the fields go into the markup as they
    are. *)
Definition rowMarkup (localeDate : Z -> JSString) (h : Host)
    (expense : Expense) : JSString :=
  newline :: js "        <td>"
  ++ toLocaleDateString localeDate (newDate h (date expense)) ++ js "</td>"
  ++ newline :: js "        <td>"
  ++ rupee :: toFixed2 h (amount expense) ++ js "</td>"
  ++ newline :: js "        <td>" ++ category expense ++ js "</td>"
  ++ newline :: js "        <td>" ++ description expense ++ js "</td>"
  ++ newline :: js "      ".

(** The one row the body holds when there is nothing to show (line 55). *)
Definition noExpensesRow : Row :=
  {| markup :=
       js "<td colspan=" ++ dquote :: js "4" ++ dquote :: js " style="
       ++ dquote :: js "text-align:center;" ++ dquote
       :: js ">No expenses found.</td>";
     classList := [] |}.

(** [renderExpenses] (lines 52 to 74): the rows of the table body after the
    call. *)
Definition renderExpenses (localeDate : Z -> JSString) (h : Host)
    (filteredExpenses : list Expense) : list Row :=
  match filteredExpenses with
  | [] => [noExpensesRow]
  | _ :: _ =>
      imap
        (fun index expense =>
           {| markup := rowMarkup localeDate h expense;
              classList :=
                if (index =? 0)%nat then [js "highlighted-row"] else [] |})
        filteredExpenses
  end.

(* ===================================================================== *)
(** ** [script.js]: the charts *)
(* ===================================================================== *)

(** [Object.entries(o)] and [Object.values(o)], in the order of
    [Object.keys(o)]. *)
Definition Object_entries (o : JSObject) : list (JSString * Number.t) :=
  sorted_by (fun a b => index_of a - index_of b) (List.filter is_index o)
  ++ List.filter (fun kv => negb (is_index kv)) o.

Definition Object_values (o : JSObject) : list Number.t :=
  List.map snd (Object_entries o).

(** The first reduce of [renderCharts] (lines 129 to 132), the reduce of
    [updateInsights] again. *)
Definition categoryData (currentExpenses : list Expense) : option JSObject :=
  fold_left
    (fun acc exp => match acc with Some o => categoryStep o exp | None => None end)
    currentExpenses (Some []).

(** One step of the second reduce (lines 134 to 138), keyed by the
    locale's text for the date of the record. *)
Definition trendStep (localeDate : Z -> JSString) (h : Host)
    (acc : JSObject) (exp : Expense) : option JSObject :=
  let day := toLocaleDateString localeDate (newDate h (date exp)) in
  match own acc day with
  | Some v => Some (set_own acc day (Number.add (or_zero v) (amount exp)))
  | None =>
      if inherited day then None
      else Some (set_own acc day (Number.add Number.zero (amount exp)))
  end.

Definition trendData (localeDate : Z -> JSString) (h : Host)
    (currentExpenses : list Expense) : option JSObject :=
  fold_left
    (fun acc exp =>
       match acc with Some o => trendStep localeDate h o exp | None => None end)
    currentExpenses (Some []).

(** The comparator of line 141, [new Date(a[0]) - new Date(b[0])], as
    SortCompare reads it. *)
Definition byLabelDate (h : Host) (a b : JSString * Number.t) : Z :=
  match newDate h (fst a), newDate h (fst b) with
  | Some ta, Some tb => ta - tb
  | _, _ => 0
  end.

(** Lines 140 to 142. *)
Definition sortedTrendData (h : Host) (trend : JSObject)
  : list (JSString * Number.t) :=
  sorted_by (byLabelDate h) (Object_entries trend).

(** What a chart is made from: its canvas, its type, and the labels and the
    one dataset of its data.  Colours and options are left out. *)
Record Chart := {
  canvas : JSString;
  chartType : JSString;
  labels : list JSString;
  data : list Number.t
}.

(** The chart instances that were made and not destroyed, and the three
    variables of line 34, [None] for [undefined]. *)
Record Charts := {
  instances : gmap positive Chart;
  categoryChart : option positive;
  trendChart : option positive;
  pieChart : option positive
}.

(** Before the first call of [renderCharts]. *)
Definition noCharts : Charts :=
  {| instances := ∅; categoryChart := None; trendChart := None;
     pieChart := None |}.

(** [if (chart) chart.destroy()] *)
Definition destroy (chart : option positive) (live : gmap positive Chart)
  : gmap positive Chart :=
  match chart with
  | Some c => delete c live
  | None => live
  end.

(** [new Chart(canvas, config)] *)
Definition newChart (c : Chart) (live : gmap positive Chart)
  : positive * gmap positive Chart :=
  let i := fresh (dom live) in (i, <[i := c]> live).

(** [renderCharts] (lines 127 to 210); [None] where one of the two reduces
    leaves the model. *)
Definition renderCharts (localeDate : Z -> JSString) (h : Host)
    (currentExpenses : list Expense) (charts : Charts) : option Charts :=
  categoryData ← categoryData currentExpenses;
  trendData ← trendData localeDate h currentExpenses;
  let sortedTrendData := sortedTrendData h trendData in
  let live := destroy (categoryChart charts) (instances charts) in
  let live := destroy (trendChart charts) live in
  let live := destroy (pieChart charts) live in
  let '(bar, live) :=
    newChart {| canvas := js "categoryChart"; chartType := js "bar";
                labels := Object_keys categoryData;
                data := Object_values categoryData |} live in
  let '(line, live) :=
    newChart {| canvas := js "trendChart"; chartType := js "line";
                labels := List.map fst sortedTrendData;
                data := List.map snd sortedTrendData |} live in
  let '(pie, live) :=
    newChart {| canvas := js "pieChart"; chartType := js "pie";
                labels := Object_keys categoryData;
                data := Object_values categoryData |} live in
  Some {| instances := live; categoryChart := Some bar;
          trendChart := Some line; pieChart := Some pie |}.

(** The whole of what [applyFilters] puts on the page: the table as rows
    of markup and the charts, which [Rendered] leaves out, and the panel. *)
Record View := {
  table : list Row;
  panel : option Insights;
  charts : Charts
}.

Definition applyFiltersView (localeDate : Z -> JSString) (h : Host) (now : Z)
    (s : State) (c : Charts) : option (View * State) :=
  '(page, s') ← applyFilters h now s;
  c' ← renderCharts localeDate h (tableRows page) c;
  Some ({| table := renderExpenses localeDate h (tableRows page);
           panel := insightsPanel page;
           charts := c' |}, s').

(** [initialize] (lines 325 to 331), the date field of the form apart. *)
Definition initialize (localeDate : Z -> JSString) (h : Host) (now : Z)
    (s : State) : option (View * State) :=
  '(_, s1) ← populateFilterCategories s;
  applyFiltersView localeDate h now s1 noCharts.

(** The text the locale gives the date of a record, and the running total
    of the records of one text, as the second reduce keeps it. *)
Definition dayOf (localeDate : Z -> JSString) (h : Host) (e : Expense)
  : JSString :=
  toLocaleDateString localeDate (newDate h (date e)).

Definition dayTotal (localeDate : Z -> JSString) (h : Host)
    (records : list Expense) (k : JSString) : option Number.t :=
  fold_left
    (fun acc e =>
       if str_eqb (dayOf localeDate h e) k
       then Some (Number.add
                    (match acc with Some v => or_zero v | None => Number.zero end)
                    (amount e))
       else acc)
    records None.

(** A record filed under its day instead of its category. *)
Definition byDay (localeDate : Z -> JSString) (h : Host) (e : Expense)
  : Expense :=
  {| id := id e; amount := amount e; date := date e;
     category := dayOf localeDate h e; description := description e |}.

(** A locale that writes dates as [YYYY-MM-DD], in UTC. *)
Definition two_digits (n : Z) : JSString :=
  decimal_digits (n / 10) ++ decimal_digits (n mod 10).

Definition localeDate0 (t : Z) : JSString :=
  decimal_digits (Date.YearFromTime t)
  ++ js "-" ++ two_digits (Date.MonthFromTime t + 1)
  ++ js "-" ++ two_digits (Date.DateFromTime t).

(** The chart one of the three variables holds, when it is live. *)
Definition shown (var : Charts -> option positive) (c : Charts)
  : option Chart :=
  match var c with
  | Some i => instances c !! i
  | None => None
  end.

(** [renderCharts] called once for each of [calls], in order. *)
Fixpoint renderAll (localeDate : Z -> JSString) (h : Host)
    (calls : list (list Expense)) (c : Charts) : option Charts :=
  match calls with
  | [] => Some c
  | currentExpenses :: calls' =>
      match renderCharts localeDate h currentExpenses c with
      | Some c' => renderAll localeDate h calls' c'
      | None => None
      end
  end.

(** Records the two reduces of [renderCharts] stay in the model on. *)
Definition plainKeys (localeDate : Z -> JSString) (h : Host) (e : Expense)
  : Prop :=
  inherited (category e) = false /\ inherited (dayOf localeDate h e) = false.

(** Labels in ascending order of the dates they parse to. *)
Definition notLater (h : Host) (a b : JSString) : Prop :=
  match newDate h a, newDate h b with
  | Some ta, Some tb => ta <= tb
  | _, _ => False
  end.

(** The label texts read back in the order of the records' dates: of two
    records with different texts, the text of the one dated earlier parses
    to the earlier instant. *)
Definition readsBackInOrder (localeDate : Z -> JSString) (h : Host)
    (records : list Expense) : Prop :=
  forall e e' t t' u u',
    In e records -> In e' records ->
    timeOf h e = Some t -> timeOf h e' = Some t' ->
    newDate h (dayOf localeDate h e) = Some u ->
    newDate h (dayOf localeDate h e') = Some u' ->
    dayOf localeDate h e <> dayOf localeDate h e' ->
    t < t' -> u < u'.

(* ===================================================================== *)
(** ** [script.js]: the category select of the form *)
(* ===================================================================== *)

(** The select of the form: the values of its options, in order, and the
    value it reads as. *)
Record Select := {
  options : list JSString;
  value : JSString
}.

(** [select.add(option, select.options[select.options.length - 1])]: the
    new option goes before the last one; into a select without options it
    goes as the only one. *)
Definition addBeforeLast (opt : JSString) (opts : list JSString)
  : list JSString :=
  match opts with
  | [] => [opt]
  | _ :: _ => List.removelast opts ++ [opt; List.last opts []]
  end.

(** The [change] listener of the form's select (lines 263 to 281).
    [answer] is what [prompt] returns: [None] for [null], when the user
    cancels.  The option added is created selected. *)
Definition categoryChanged (answer : option JSString) (sel : Select)
    (s : State) : option (Select * State) :=
  if str_eqb (value sel) (js "addNew") then
    match answer with
    | Some newCategory =>
        if negb (str_eqb newCategory []) then
          '(_, s') ← populateFilterCategories s;
          Some ({| options := addBeforeLast newCategory (options sel);
                   value := newCategory |}, s')
        else Some ({| options := options sel; value := [] |}, s)
    | None => Some ({| options := options sel; value := [] |}, s)
    end
  else Some (sel, s).

(** The form as the submit handler reads it, its category from the
    select. *)
Definition formOf (amountText dateText descriptionText : JSString)
    (sel : Select) : Form :=
  {| amountInput := amountText; dateInput := dateText;
     categorySelect := value sel; descriptionInput := descriptionText |}.

(* ===================================================================== *)
(** ** [script.js]: the date field of the form *)
(* ===================================================================== *)

(** [dateInput.valueAsDate = d] on the input of type [date] (lines 317 and
    327): the value becomes the calendar day of [d] in UTC, written
    [YYYY-MM-DD]; this is the form of the value for years of four
    digits. *)
Definition valueAsDate (t : Z) : JSString :=
  decimal_digits (Date.YearFromTime t / 1000)
  ++ decimal_digits (Date.YearFromTime t / 100 mod 10)
  ++ decimal_digits (Date.YearFromTime t / 10 mod 10)
  ++ decimal_digits (Date.YearFromTime t mod 10)
  ++ js "-" ++ two_digits (Date.MonthFromTime t + 1)
  ++ js "-" ++ two_digits (Date.DateFromTime t).

(** Lines 326 to 328 of [initialize]: a date field that is empty gets the
    day of [new Date()]. *)
Definition initialDate (now : Z) (dateValue : JSString) : JSString :=
  if str_eqb dateValue [] then valueAsDate now else dateValue.

(** A form left as the page set it up at [now0], but for the amount and
    the category. *)
Definition todayForm : Form :=
  {| amountInput := js "30"; dateInput := initialDate now0 [];
     categorySelect := js "Food"; descriptionInput := [] |}.

(* ===================================================================== *)
(** ** Totals by category *)
(* ===================================================================== *)

(** The records of category [k]. *)
Definition ofCategory (k : JSString) (records : list Expense)
  : list Expense :=
  List.filter (fun e => str_eqb (category e) k) records.

(** A record whose date is not one. *)
Definition undated : Expense :=
  {| id := 1704672000999; amount := Number.of_Z 20;
     date := js "soon"; category := js "Food"; description := [] |}.

(** The sum of whole Numbers. *)
Definition wholeSum (xs : list Number.t) : Z :=
  fold_right (fun x acc => Number.to_Z x + acc) 0 xs.

(* ===================================================================== *)
(** ** [JSON.stringify] on the ledger *)
(* ===================================================================== *)

(** A hexadecimal digit, in lower case. *)
Definition hex_digit (d : N) : N :=
  if (d <? 10)%N then (48 + d)%N else (87 + d)%N.

(** UnicodeEscape: [\u] and the four hexadecimal digits of a code unit. *)
Definition unicode_escape (c : N) : JSString :=
  chr "\" :: chr "u"
  :: [hex_digit (c / 4096); hex_digit ((c / 256) mod 16);
      hex_digit ((c / 16) mod 16); hex_digit (c mod 16)]%N.

Definition is_leading_surrogate (c : N) : bool :=
  ((55296 <=? c) && (c <=? 56319))%N.

Definition is_trailing_surrogate (c : N) : bool :=
  ((56320 <=? c) && (c <=? 57343))%N.

(** QuoteJSONString between its quotes: the short escapes, [\u] escapes
    for the other control characters and for surrogates that are not part
    of a pair, and every other code unit as it is. *)
Fixpoint quote_body (s : JSString) : JSString :=
  match s with
  | [] => []
  | c :: r =>
      if (c =? 8)%N then chr "\" :: chr "b" :: quote_body r
      else if (c =? 9)%N then chr "\" :: chr "t" :: quote_body r
      else if (c =? 10)%N then chr "\" :: chr "n" :: quote_body r
      else if (c =? 12)%N then chr "\" :: chr "f" :: quote_body r
      else if (c =? 13)%N then chr "\" :: chr "r" :: quote_body r
      else if (c =? dquote)%N then chr "\" :: dquote :: quote_body r
      else if (c =? chr "\")%N then chr "\" :: chr "\" :: quote_body r
      else if (c <? 32)%N then unicode_escape c ++ quote_body r
      else if is_leading_surrogate c then
        match r with
        | d :: r' =>
            if is_trailing_surrogate d then c :: d :: quote_body r'
            else unicode_escape c ++ quote_body r
        | [] => unicode_escape c
        end
      else if is_trailing_surrogate c then unicode_escape c ++ quote_body r
      else c :: quote_body r
  end.

Definition quoteJSONString (s : JSString) : JSString :=
  dquote :: quote_body s ++ [dquote].

(** A Number: Number::toString when it is finite, [null] otherwise. *)
Definition stringifyNumber (h : Host) (x : Number.t) : JSString :=
  if Number.is_finite x then numberToString h x else js "null".

(** A property of an object: its name, quoted, a colon and its value. *)
Definition stringifyProperty (name : string) (valueText : JSString)
  : JSString :=
  quoteJSONString (js name) ++ chr ":" :: valueText.

(** An expense, its properties in the order the submit handler creates
    them (lines 297 to 303). *)
Definition stringifyExpense (h : Host) (e : Expense) : JSString :=
  chr "{"
  :: stringifyProperty "id" (stringifyNumber h (Number.of_Z (id e)))
  ++ chr ","
  :: stringifyProperty "amount" (stringifyNumber h (amount e))
  ++ chr ","
  :: stringifyProperty "date" (quoteJSONString (date e))
  ++ chr ","
  :: stringifyProperty "category" (quoteJSONString (category e))
  ++ chr ","
  :: stringifyProperty "description" (quoteJSONString (description e))
  ++ [chr "}"].

Fixpoint separated (texts : list JSString) : JSString :=
  match texts with
  | [] => []
  | [t] => t
  | t :: texts' => t ++ chr "," :: separated texts'
  end.

(** [JSON.stringify(expenses)] *)
Definition JSON_stringify (h : Host) (v : list Expense) : JSString :=
  chr "[" :: separated (List.map (stringifyExpense h) v) ++ [chr "]"].

(** The value [JSON.parse] is to give back for a Number and for an
    expense: a Number that is not finite was written as [null]. *)
Definition numberValue (x : Number.t) : JSON.value :=
  if Number.is_finite x then JSON.Num x else JSON.Null.

Definition expenseValue (e : Expense) : JSON.value :=
  JSON.Obj
    [(js "id", numberValue (Number.of_Z (id e)));
     (js "amount", numberValue (amount e));
     (js "date", JSON.Str (date e));
     (js "category", JSON.Str (category e));
     (js "description", JSON.Str (description e))].

(** The host writes the finite Number [x] as a text that reads as [x]
    again. *)
Definition readsBack (h : Host) (x : Number.t) : Prop :=
  Number.is_finite x = true ->
  JSON.parse (numberToString h x) = JSON.Ok (JSON.Num x).

Definition storable (h : Host) (e : Expense) : Prop :=
  readsBack h (Number.of_Z (id e)) /\ readsBack h (amount e).

(** A host that writes whole Numbers in decimal digits. *)
Definition wholeToString (x : Number.t) : JSString :=
  (if Number.to_Z x <? 0 then js "-" else [])
  ++ decimal_digits (Z.abs (Number.to_Z x)).

Definition host1 : Host :=
  {| timeZone := timeZone host0;
     parseOtherDate := parseOtherDate host0;
     numberToString := wholeToString |}.

(** A parse that ends in [expected], when the fuel lasts. *)
Definition reads (res : JSON.result (JSON.value * JSString))
    (expected : JSON.value * JSString) : Prop :=
  res = JSON.OutOfFuel \/ res = JSON.Ok expected.

(** A text that reads as [val] in front of a comma. *)
Definition valueBeforeComma (valueText : JSString) (val : JSON.value)
  : Prop :=
  forall n rest,
    exists r,
      JSON.parse_value (S n) (valueText ++ chr "," :: rest)
      = JSON.Ok (val, r) /\
      JSON.skip_ws r = chr "," :: rest.

(** A ledger and a form with strings that need escapes. *)
Definition quoted100 : Expense :=
  {| id := 1704067200123; amount := Number.of_Z 100;
     date := js "2024-01-01";
     category := js "Food " ++ dquote :: js "out" ++ [dquote];
     description := js "a\b" ++ [newline; 55357%N; 56832%N; 55357%N] |}.


(** A text with ['] for each double quote. *)
Definition quoted (s : string) : JSString :=
  List.map (fun c => if (c =? chr "'")%N then dquote else c) (js s).

(* ===================================================================== *)
(** ** More states to run the script on *)
(* ===================================================================== *)

(** [ledger0] with both filters at [All], and with the Monthly filter. *)
Definition allState0 : State :=
  selectPeriod (js "All") (selectCategory (js "All") state0).



Definition onDay (n : Z) (day : JSString) : Expense :=
  {| id := n; amount := Number.of_Z 10; date := day;
     category := js "Food"; description := [] |}.



(** [ledger0] with the records of the later day first. *)
Definition ledgerLatestFirst : list Expense := [food50; rent150; food100].

(** A locale that writes dates day first, [DD/MM/YYYY], in UTC, and a host
    whose [Date.parse] reads such a text month first. *)
Definition localeDayFirst (t : Z) : JSString :=
  two_digits (Date.DateFromTime t)
  ++ js "/" ++ two_digits (Date.MonthFromTime t + 1)
  ++ js "/" ++ decimal_digits (Date.YearFromTime t).

Definition parseMonthFirst (s : JSString) : option Z :=
  match s with
  | [m1; m2; s1; d1; d2; s2; y1; y2; y3; y4] =>
      let m := digits_val [m1; m2] in
      let d := digits_val [d1; d2] in
      let y := digits_val [y1; y2; y3; y4] in
      if forallb is_digit [m1; m2; d1; d2; y1; y2; y3; y4]
         && (s1 =? chr "/")%N && (s2 =? chr "/")%N
         && (1 <=? m) && (m <=? 12) && (1 <=? d)
         && (d <=? Date.DaysInMonth y (m - 1))
      then Some (Date.MakeDate (Date.MakeDay y (m - 1) d) 0)
      else None
  | _ => None
  end.

Definition hostMonthFirst : Host :=
  {| timeZone := timeZone host0;
     parseOtherDate := parseMonthFirst;
     numberToString := numberToString host0 |}.
(* ===================================================================== *)
(** ** Lemmas: strings and the store *)
(* ===================================================================== *)

Lemma str_eqb_eq (a b : JSString) : str_eqb a b = true <-> a = b.
Proof. unfold str_eqb. apply bool_decide_eq_true. Qed.

Lemma str_eqb_neq (a b : JSString) : str_eqb a b = false <-> a <> b.
Proof. unfold str_eqb. apply bool_decide_eq_false. Qed.

Lemma str_eqb_refl (a : JSString) : str_eqb a a = true.
Proof. by apply str_eqb_eq. Qed.

Lemma fresh_None (hp : Heap) : hp !! fresh (dom hp) = None.
Proof. apply not_elem_of_dom. apply is_fresh. Qed.

Lemma alloc_extends (hp0 hp : Heap) (v : list Expense) :
  (forall k x, hp0 !! k = Some x -> hp !! k = Some x) ->
  exists a hp', alloc v hp = Some (a, hp') /\ extends hp0 hp' a v.
Proof.
  intros Hext. unfold alloc.
  set (a := fresh (dom hp)).
  assert (Ha : hp !! a = None) by apply fresh_None.
  exists a, (<[a := v]> hp). split; [reflexivity|].
  repeat split.
  - apply lookup_insert_eq.
  - destruct (hp0 !! a) eqn:E; [|reflexivity].
    apply Hext in E. congruence.
  - intros k x Hk. rewrite lookup_insert_ne; [by apply Hext|].
    intros ->. apply Hext in Hk. congruence.
Qed.

Lemma spread_extends (hp : Heap) (a : loc) (v : list Expense) :
  hp !! a = Some v ->
  exists a' hp', spread a hp = Some (a', hp') /\ extends hp hp' a' v.
Proof.
  intros Ha. unfold spread, mbind, M_bind, read. rewrite Ha.
  apply alloc_extends. auto.
Qed.

Lemma filter_extends (hp0 hp : Heap) (a : loc) (v : list Expense)
    (p : Expense -> bool) :
  extends hp0 hp a v ->
  exists a' hp', Array_filter p a hp = Some (a', hp') /\
    extends hp0 hp' a' (List.filter p v).
Proof.
  intros (Ha & _ & Hext). unfold Array_filter, mbind, M_bind, read.
  rewrite Ha. by apply alloc_extends.
Qed.

Lemma sort_extends (hp0 hp : Heap) (a : loc) (v : list Expense)
    (cmp : Expense -> Expense -> Z) :
  extends hp0 hp a v ->
  exists hp', Array_sort cmp a hp = Some (tt, hp') /\
    extends hp0 hp' a (sorted_by cmp v).
Proof.
  intros (Ha & H0 & Hext). unfold Array_sort, mbind, M_bind, read, write.
  rewrite Ha. simpl. rewrite Ha. eexists. split; [reflexivity|].
  repeat split; [apply lookup_insert_eq|done|].
  intros k x Hk. rewrite lookup_insert_ne; [by apply Hext|].
  intros ->. congruence.
Qed.

Lemma filter_filter_andb {A} (p q : A -> bool) (l : list A) :
  List.filter q (List.filter p l) = List.filter (fun x => p x && q x) l.
Proof.
  induction l as [|x l IH]; [reflexivity|]. simpl.
  destruct (p x); simpl; [destruct (q x)|]; by rewrite IH.
Qed.

Lemma filter_true {A} (p : A -> bool) (l : list A) :
  (forall x, p x = true) -> List.filter p l = l.
Proof.
  intros Hp. induction l as [|x l IH]; [reflexivity|].
  simpl. by rewrite Hp, IH.
Qed.

(** What [query] computes and what it leaves alone: the result is a fresh
    array holding the kept records, sorted; every array there was before is
    as it was. *)
Lemma query_extends (h : Host) (now : Z) (categoryValue period : JSString)
    (hp : Heap) (a : loc) (v : list Expense) :
  hp !! a = Some v ->
  exists r hp', query h now categoryValue period a hp = Some (r, hp') /\
    extends hp hp' r
      (sorted_by (byDateDesc h)
         (List.filter (keeps h now categoryValue period) v)).
Proof.
  intros Ha. unfold query.
  destruct (spread_extends hp a v Ha) as (a1 & hp1 & E1 & X1).
  assert (exists a2 hp2,
    (if negb (str_eqb categoryValue (js "All"))
     then Array_filter (fun exp => str_eqb (category exp) categoryValue) a1
     else mret a1) hp1 = Some (a2, hp2) /\
    extends hp hp2 a2
      (List.filter (fun e => str_eqb categoryValue (js "All")
                             || str_eqb (category e) categoryValue) v))
    as (a2 & hp2 & E2 & X2).
  { destruct (str_eqb categoryValue (js "All")) eqn:Ec; simpl.
    - exists a1, hp1. split; [reflexivity|]. by rewrite filter_true.
    - by apply filter_extends. }
  set (periodTest := fun e : Expense =>
         if str_eqb period (js "Weekly") then date_ge h e (oneWeekAgo h now)
         else if str_eqb period (js "Monthly")
         then date_ge h e (oneMonthAgo h now) else true).
  assert (exists a3 hp3,
    (if str_eqb period (js "Weekly")
     then Array_filter (fun exp => date_ge h exp (oneWeekAgo h now)) a2
     else if str_eqb period (js "Monthly")
     then Array_filter (fun exp => date_ge h exp (oneMonthAgo h now)) a2
     else mret a2) hp2 = Some (a3, hp3) /\
    extends hp hp3 a3
      (List.filter (keeps h now categoryValue period) v))
    as (a3 & hp3 & E3 & X3).
  { replace (List.filter (keeps h now categoryValue period) v)
      with (List.filter periodTest
              (List.filter (fun e => str_eqb categoryValue (js "All")
                             || str_eqb (category e) categoryValue) v))
      by (rewrite filter_filter_andb; reflexivity).
    unfold periodTest.
    destruct (str_eqb period (js "Weekly")).
    - by apply filter_extends.
    - destruct (str_eqb period (js "Monthly")).
      + by apply filter_extends.
      + exists a2, hp2. split; [reflexivity|]. by rewrite filter_true. }
  destruct (sort_extends hp hp3 a3 _ (byDateDesc h) X3) as (hp4 & E4 & X4).
  exists a3, hp4. split; [|exact X4].
  unfold mbind, M_bind. rewrite E1.
  unfold mbind, M_bind in E2, E3. rewrite E2, E3, E4. reflexivity.
Qed.

(* ===================================================================== *)
(** ** Lemmas: the sort *)
(* ===================================================================== *)

Section Sort.
Context {A : Type} (cmp : A -> A -> Z).

Lemma sort_insert_perm (x : A) (l : list A) :
  Permutation (sort_insert cmp x l) (x :: l).
Proof.
  induction l as [|y l IH]; simpl; [reflexivity|].
  destruct (cmp x y <=? 0); [reflexivity|].
  rewrite IH. apply perm_swap.
Qed.

Lemma sorted_by_perm (l : list A) : Permutation (sorted_by cmp l) l.
Proof.
  induction l as [|x l IH]; [reflexivity|].
  change (sorted_by cmp (x :: l)) with (sort_insert cmp x (sorted_by cmp l)).
  rewrite sort_insert_perm. by constructor.
Qed.

Lemma sorted_by_In (l : list A) (x : A) : In x (sorted_by cmp l) <-> In x l.
Proof.
  split; apply Permutation_in;
    [apply sorted_by_perm | symmetry; apply sorted_by_perm].
Qed.

(** Sortedness, for a comparator that is the difference of keys on the
    elements that have one ([P]). *)
Context (P : A -> Prop) (key : A -> Z).
Context (Hcmp : forall x y, P x -> P y -> cmp x y = key y - key x).

Lemma sort_insert_sorted (x : A) (l : list A) :
  P x -> Forall P l ->
  StronglySorted (fun a b => key b <= key a) l ->
  StronglySorted (fun a b => key b <= key a) (sort_insert cmp x l).
Proof using Hcmp.
  intros Px Pl Hs. induction Hs as [|y l Hs IH Hy]; simpl.
  - repeat constructor.
  - apply Forall_cons_1 in Pl as [Py Pl].
    rewrite (Hcmp x y Px Py).
    destruct (Z.leb_spec (key y - key x) 0) as [Hle|Hgt].
    + constructor; [by constructor|].
      constructor; [lia|].
      eapply Forall_impl; [exact Hy|]. simpl. intros z Hz. lia.
    + constructor; [by apply IH|].
      rewrite List.Forall_forall. intros z Hz.
      apply (Permutation_in _ (sort_insert_perm x l)) in Hz.
      destruct Hz as [<-|Hz]; [lia|].
      rewrite List.Forall_forall in Hy. auto.
Qed.

Lemma sorted_by_sorted (l : list A) :
  Forall P l -> StronglySorted (fun a b => key b <= key a) (sorted_by cmp l).
Proof using Hcmp.
  induction l as [|x l IH]; intros Pl; [constructor|].
  apply Forall_cons_1 in Pl as [Px Pl].
  change (sorted_by cmp (x :: l)) with (sort_insert cmp x (sorted_by cmp l)).
  apply sort_insert_sorted; [done| |by apply IH].
  rewrite List.Forall_forall. intros z Hz. apply (proj1 (sorted_by_In _ _)) in Hz.
  rewrite List.Forall_forall in Pl. auto.
Qed.

(** Stability: the elements with a given key keep their order. *)
Lemma sort_insert_stable (t : Z) (x : A) (l : list A) :
  P x -> Forall P l ->
  List.filter (fun a => key a =? t) (sort_insert cmp x l)
  = List.filter (fun a => key a =? t) (x :: l).
Proof using Hcmp.
  intros Px Pl. induction l as [|y l IH]; [reflexivity|].
  apply Forall_cons_1 in Pl as [Py Pl]. simpl.
  rewrite (Hcmp x y Px Py).
  destruct (Z.leb_spec (key y - key x) 0) as [Hle|Hgt]; [reflexivity|].
  simpl. rewrite (IH Pl). simpl.
  destruct (Z.eqb_spec (key x) t), (Z.eqb_spec (key y) t); try reflexivity.
  lia.
Qed.

Lemma sorted_by_stable (t : Z) (l : list A) :
  Forall P l ->
  List.filter (fun a => key a =? t) (sorted_by cmp l)
  = List.filter (fun a => key a =? t) l.
Proof using Hcmp.
  induction l as [|x l IH]; [reflexivity|]. intros Pl.
  apply Forall_cons_1 in Pl as [Px Pl].
  change (sorted_by cmp (x :: l)) with (sort_insert cmp x (sorted_by cmp l)).
  rewrite sort_insert_stable; [simpl; by rewrite IH|done|].
  rewrite List.Forall_forall. intros z Hz. apply (proj1 (sorted_by_In _ _)) in Hz.
  rewrite List.Forall_forall in Pl. auto.
Qed.

End Sort.

(* ===================================================================== *)
(** ** Lemmas: the calendar *)
(* ===================================================================== *)

Lemma MonthFromTime_range (t : Z) : 0 <= Date.MonthFromTime t <= 11.
Proof.
  unfold Date.MonthFromTime.
  repeat match goal with |- context [if ?b then _ else _] => destruct b end;
    lia.
Qed.

(** The calendar functions invert [MakeDay] on the date they give, and a
    shift of the day of the month is a shift of the day. *)
Lemma MakeDay_of_time (t k : Z) :
  Date.MakeDay (Date.YearFromTime t) (Date.MonthFromTime t)
    (Date.DateFromTime t + k) = Date.Day t + k.
Proof.
  pose proof (MonthFromTime_range t) as Hm.
  unfold Date.MakeDay.
  rewrite Z.div_small, Z.mod_small, Z.add_0_r by lia.
  unfold Date.DateFromTime, Date.DayWithinYear. lia.
Qed.

Lemma MakeDate_Day (t k : Z) :
  Date.MakeDate (Date.Day t + k) (Date.TimeWithinDay t)
  = t + k * Date.msPerDay.
Proof.
  unfold Date.MakeDate, Date.Day, Date.TimeWithinDay, Date.msPerDay.
  pose proof (Z.div_mod t 86400000). lia.
Qed.

(** [now.setDate(now.getDate() - 7)] moves [now] back by seven days of the
    local clock. *)
Lemma oneWeekAgo_sevenDaysBefore (h : Host) (now : Z) :
  oneWeekAgo h now = sevenDaysBefore h now.
Proof.
  unfold oneWeekAgo, sevenDaysBefore, Date.setDate, Date.getDate.
  replace (Date.DateFromTime (Date.LocalTime (timeZone h) now) - 7)
    with (Date.DateFromTime (Date.LocalTime (timeZone h) now) + (-7)) by lia.
  rewrite MakeDay_of_time, MakeDate_Day. reflexivity.
Qed.

(** The year function meets its definition: the year of a day is the last
    one that starts on or before it. *)
Lemma YearFromDay_spec (d : Z) :
  Date.DayFromYear (Date.YearFromDay d) <= d
  < Date.DayFromYear (Date.YearFromDay d + 1).
Proof.
  unfold Date.YearFromDay.
  set (y := 1970 + 400 * d / 146097).
  assert (Hy : 146097 * (y - 1970) <= 400 * d < 146097 * (y - 1970) + 146097).
  { subst y. Z.div_mod_to_equations. lia. }
  clearbody y.
  destruct (Z.ltb_spec d (Date.DayFromYear y)) as [H1|H1].
  - replace (y - 1 + 1) with y by lia. split; [|exact H1].
    unfold Date.DayFromYear in *. Z.div_mod_to_equations. lia.
  - destruct (Z.leb_spec (Date.DayFromYear (y + 1)) d) as [H2|H2].
    + split; [exact H2|]. clear H1.
      unfold Date.DayFromYear in *. Z.div_mod_to_equations. lia.
    + split; assumption.
Qed.

(** A year has 365 days, or 366 in a leap year. *)
Lemma DayFromYear_succ (y : Z) :
  Date.DayFromYear (y + 1) = Date.DayFromYear y + 365 + Date.InLeapYear y.
Proof.
  unfold Date.InLeapYear, Date.DaysInYear, Date.DayFromYear.
  destruct (Z.eqb_spec (y mod 4) 0); simpl;
    [destruct (Z.eqb_spec (y mod 100) 0); simpl;
       [destruct (Z.eqb_spec (y mod 400) 0); simpl|]|];
    Z.div_mod_to_equations; lia.
Qed.

Lemma InLeapYear_range (y : Z) : 0 <= Date.InLeapYear y <= 1.
Proof. unfold Date.InLeapYear. destruct (_ =? _); lia. Qed.

Lemma DayFromYear_mono (a b : Z) :
  a <= b -> Date.DayFromYear a <= Date.DayFromYear b.
Proof.
  intros H. unfold Date.DayFromYear. Z.div_mod_to_equations. lia.
Qed.

Lemma YearFromDay_unique (y d : Z) :
  Date.DayFromYear y <= d < Date.DayFromYear (y + 1) ->
  Date.YearFromDay d = y.
Proof.
  intros Hy. pose proof (YearFromDay_spec d) as HY.
  set (Y := Date.YearFromDay d) in *.
  destruct (Z.lt_trichotomy Y y) as [Hlt|[Heq|Hgt]]; [|exact Heq|].
  - pose proof (DayFromYear_mono (Y + 1) y ltac:(lia)). lia.
  - pose proof (DayFromYear_mono (y + 1) Y ltac:(lia)). lia.
Qed.

Lemma Day_MakeDate (day time : Z) :
  0 <= time < Date.msPerDay ->
  Date.Day (Date.MakeDate day time) = day /\
  Date.TimeWithinDay (Date.MakeDate day time) = time.
Proof.
  unfold Date.Day, Date.TimeWithinDay, Date.MakeDate, Date.msPerDay.
  intros H. split.
  - rewrite Z.add_comm, Z.div_add by lia. rewrite Z.div_small by lia. lia.
  - rewrite Z.add_comm, Z.mod_add by lia. apply Z.mod_small. lia.
Qed.

(** The calendar functions read back the date [MakeDay] was given. *)
Lemma calendar_of_MakeDay (y m d time : Z) :
  0 <= m <= 11 -> 1 <= d <= Date.DaysInMonth y m ->
  0 <= time < Date.msPerDay ->
  let t := Date.MakeDate (Date.MakeDay y m d) time in
  Date.YearFromTime t = y /\ Date.MonthFromTime t = m /\
  Date.DateFromTime t = d /\ Date.TimeWithinDay t = time.
Proof.
  intros Hm Hd Ht t.
  destruct (Day_MakeDate (Date.MakeDay y m d) time Ht) as [HD HT].
  fold t in HD, HT.
  pose proof (InLeapYear_range y) as HL.
  assert (HM : Date.MakeDay y m d
               = Date.DayFromYear y
                 + Date.month_start (Date.InLeapYear y) m + d - 1).
  { unfold Date.MakeDay. rewrite Z.div_small, Z.mod_small by lia.
    by rewrite Z.add_0_r. }
  assert (Hw : 0 <= Date.month_start (Date.InLeapYear y) m + d - 1
               < 365 + Date.InLeapYear y).
  { unfold Date.DaysInMonth in Hd.
    assert (m = 0 \/ m = 1 \/ m = 2 \/ m = 3 \/ m = 4 \/ m = 5 \/ m = 6 \/
            m = 7 \/ m = 8 \/ m = 9 \/ m = 10 \/ m = 11) as Hcase by lia.
    repeat (destruct Hcase as [->|Hcase]); try subst m; simpl in *; lia. }
  assert (HY : Date.YearFromTime t = y).
  { unfold Date.YearFromTime. rewrite HD, HM.
    apply YearFromDay_unique. rewrite DayFromYear_succ. lia. }
  assert (Hdw : Date.DayWithinYear t
                = Date.month_start (Date.InLeapYear y) m + d - 1).
  { unfold Date.DayWithinYear. rewrite HY, HD, HM. lia. }
  assert (HMo : Date.MonthFromTime t = m).
  { unfold Date.MonthFromTime. rewrite Hdw, HY.
    unfold Date.DaysInMonth in Hd.
    assert (m = 0 \/ m = 1 \/ m = 2 \/ m = 3 \/ m = 4 \/ m = 5 \/ m = 6 \/
            m = 7 \/ m = 8 \/ m = 9 \/ m = 10 \/ m = 11) as Hcase by lia.
    repeat (destruct Hcase as [->|Hcase]); try subst m; simpl in *;
      repeat match goal with
        | |- context [if ?a <? ?b then _ else _] =>
            destruct (Z.ltb_spec a b); try lia
        end. }
  repeat split; try assumption.
  unfold Date.DateFromTime. rewrite HMo, Hdw, HY. lia.
Qed.

(** The day of the month the calendar functions give is a day of that
    month. *)
Lemma DateFromTime_range (t : Z) :
  1 <= Date.DateFromTime t
  <= Date.DaysInMonth (Date.YearFromTime t) (Date.MonthFromTime t).
Proof.
  pose proof (YearFromDay_spec (Date.Day t)) as HY.
  rewrite DayFromYear_succ in HY.
  fold (Date.YearFromTime t) in HY.
  pose proof (InLeapYear_range (Date.YearFromTime t)) as HL.
  unfold Date.DateFromTime, Date.DaysInMonth, Date.MonthFromTime,
    Date.DayWithinYear.
  set (L := Date.InLeapYear (Date.YearFromTime t)) in *.
  set (dw := Date.Day t - Date.DayFromYear (Date.YearFromTime t)).
  assert (0 <= dw < 365 + L) by (unfold dw; lia).
  clearbody dw L.
  repeat match goal with
    | |- context [if ?a <? ?b then _ else _] =>
        destruct (Z.ltb_spec a b); simpl; try lia
    end.
Qed.

(** In [MakeDay] the month before starts as many days earlier as it has
    days, December of the year before for January. *)
Lemma MakeDay_month_before (y m d : Z) :
  0 <= m <= 11 ->
  Date.MakeDay y (m - 1) d
  = Date.MakeDay y m d
    - Date.DaysInMonth (y + (m - 1) / 12) ((m - 1) mod 12).
Proof.
  intros Hm.
  pose proof (DayFromYear_succ (y - 1)) as Hy.
  replace (y - 1 + 1) with y in Hy by lia.
  pose proof (InLeapYear_range (y - 1)) as HL.
  assert (Hc : m = 0 \/ 1 <= m) by lia.
  destruct Hc as [-> | H1].
  - unfold Date.MakeDay, Date.DaysInMonth.
    change ((0 - 1) / 12) with (-1). change ((0 - 1) mod 12) with 11.
    change (0 / 12) with 0. change (0 mod 12) with 0.
    replace (y + -1) with (y - 1) by lia. replace (y + 0) with y by lia.
    change (11 =? 11) with true. cbv iota.
    change (Date.month_start (Date.InLeapYear (y - 1)) 11)
      with (334 + Date.InLeapYear (y - 1)).
    change (Date.month_start (Date.InLeapYear y) 0) with 0. lia.
  - unfold Date.MakeDay, Date.DaysInMonth.
    rewrite (Z.div_small (m - 1)), (Z.mod_small (m - 1)),
      (Z.div_small m), (Z.mod_small m), Z.add_0_r by lia.
    replace (m - 1 =? 11) with false by (symmetry; apply Z.eqb_neq; lia).
    replace (m - 1 + 1) with m by lia. lia.
Qed.

Lemma DaysInMonth_range (y m : Z) :
  0 <= m <= 11 -> 28 <= Date.DaysInMonth y m <= 31.
Proof.
  intros Hm. pose proof (InLeapYear_range y) as HL.
  unfold Date.DaysInMonth.
  set (L := Date.InLeapYear y) in *. clearbody L.
  assert (Hc : m = 0 \/ m = 1 \/ m = 2 \/ m = 3 \/ m = 4 \/ m = 5 \/ m = 6
               \/ m = 7 \/ m = 8 \/ m = 9 \/ m = 10 \/ m = 11) by lia.
  repeat destruct Hc as [-> | Hc]; try subst m; simpl; lia.
Qed.

Lemma monthBefore_spec (y m : Z) :
  0 <= m <= 11 -> monthBefore y m = (y + (m - 1) / 12, (m - 1) mod 12).
Proof.
  intros Hm. unfold monthBefore. destruct (Z.eqb_spec m 0) as [-> | Hne].
  - change ((0 - 1) / 12) with (-1). change ((0 - 1) mod 12) with 11.
    f_equal.
  - rewrite Z.div_small, Z.mod_small by lia. f_equal. lia.
Qed.

Lemma monthBefore_range (y m : Z) :
  0 <= m <= 11 -> 0 <= snd (monthBefore y m) <= 11.
Proof.
  intros Hm. unfold monthBefore. destruct (Z.eqb_spec m 0); simpl; lia.
Qed.


(** [now.setMonth(now.getMonth() - 1)] moves [now] back by the days of the
    calendar month before, on the local clock: the day of the month stays,
    and the month before starts that many days earlier. *)
Lemma oneMonthAgo_oneMonthBefore (h : Host) (now : Z) :
  oneMonthAgo h now = oneMonthBefore h now.
Proof.
  unfold oneMonthAgo, oneMonthBefore, daysOfMonthBefore, Date.setMonth,
    Date.getMonth.
  set (lt := Date.LocalTime (timeZone h) now).
  rewrite (monthBefore_spec _ _ (MonthFromTime_range lt)).
  do 2 f_equal.
  rewrite (MakeDay_month_before _ _ _ (MonthFromTime_range lt)).
  set (days := Date.DaysInMonth _ _).
  pose proof (MakeDay_of_time lt 0) as H0.
  rewrite !Z.add_0_r in H0. rewrite H0.
  replace (Date.Day lt - days) with (Date.Day lt + - days) by lia.
  rewrite MakeDate_Day. lia.
Qed.

(** [now.setMonth(now.getMonth() - 1)]: while the month before has the
    day of the month that [now] has, the result is that day of that month
    at the same time of day, on the local clock. *)
Lemma oneMonthAgo_calendar (h : Host) (now : Z) :
  let lt := Date.LocalTime (timeZone h) now in
  let ym := Date.YearFromTime lt + (Date.MonthFromTime lt - 1) / 12 in
  let mn := (Date.MonthFromTime lt - 1) mod 12 in
  Date.DateFromTime lt <= Date.DaysInMonth ym mn ->
  exists lt',
    oneMonthAgo h now = Date.TimeClip (Date.UTC (timeZone h) lt') /\
    Date.YearFromTime lt' = ym /\ Date.MonthFromTime lt' = mn /\
    Date.DateFromTime lt' = Date.DateFromTime lt /\
    Date.TimeWithinDay lt' = Date.TimeWithinDay lt.
Proof.
  intros lt ym mn Hd.
  exists (Date.MakeDate (Date.MakeDay ym mn (Date.DateFromTime lt))
            (Date.TimeWithinDay lt)).
  assert (Hmn : 0 <= mn <= 11)
    by (unfold mn; pose proof (Z.mod_pos_bound (Date.MonthFromTime lt - 1) 12);
        lia).
  split.
  - unfold oneMonthAgo, Date.setMonth, Date.getMonth. fold lt. do 3 f_equal.
    unfold Date.MakeDay. fold ym mn.
    rewrite (Z.div_small mn 12), (Z.mod_small mn 12), Z.add_0_r by lia.
    reflexivity.
  - apply calendar_of_MakeDay; [exact Hmn| |].
    + pose proof (DateFromTime_range lt). lia.
    + unfold Date.TimeWithinDay, Date.msPerDay. apply Z.mod_pos_bound. lia.
Qed.

(** The limit as the specification words it is the instant the local
    calendar reads as the month before, on the day of the month of [now] or
    on the last day of that month, at the time of day of [now]. *)
Lemma oneCalendarMonthBefore_calendar (h : Host) (now : Z) :
  let lt := Date.LocalTime (timeZone h) now in
  let ym := monthBefore (Date.YearFromTime lt) (Date.MonthFromTime lt) in
  exists lt',
    oneCalendarMonthBefore h now
    = Date.TimeClip (Date.UTC (timeZone h) lt') /\
    Date.YearFromTime lt' = fst ym /\ Date.MonthFromTime lt' = snd ym /\
    Date.DateFromTime lt'
    = Z.min (Date.DateFromTime lt) (Date.DaysInMonth (fst ym) (snd ym)) /\
    Date.TimeWithinDay lt' = Date.TimeWithinDay lt.
Proof.
  intros lt ym.
  pose proof (monthBefore_range (Date.YearFromTime lt) (Date.MonthFromTime lt)
                (MonthFromTime_range lt)) as Hm.
  fold ym in Hm.
  pose proof (DaysInMonth_range (fst ym) (snd ym) Hm) as Hdim.
  pose proof (DateFromTime_range lt) as Hd.
  exists (Date.MakeDate
            (Date.MakeDay (fst ym) (snd ym)
               (Z.min (Date.DateFromTime lt)
                  (Date.DaysInMonth (fst ym) (snd ym))))
            (Date.TimeWithinDay lt)).
  split.
  - unfold oneCalendarMonthBefore. fold lt ym.
    destruct ym as [y m]. reflexivity.
  - apply calendar_of_MakeDay; [exact Hm|lia|].
    unfold Date.TimeWithinDay, Date.msPerDay. apply Z.mod_pos_bound. lia.
Qed.



(** [Date.parse] on a calendar day [YYYY-MM-DD]: the instant the calendar
    functions read as midnight of that day. *)
Lemma parse_calendar (other : JSString -> option Z) (s : JSString)
    (y m d : Z) :
  Date.iso_date s = Some (y, m, d) ->
  1 <= m <= 12 -> 1 <= d <= Date.DaysInMonth y (m - 1) ->
  exists t,
    Date.parse other s = Some t /\
    Date.YearFromTime t = y /\ Date.MonthFromTime t = m - 1 /\
    Date.DateFromTime t = d /\ Date.TimeWithinDay t = 0.
Proof.
  intros Hs Hm Hd. unfold Date.parse. rewrite Hs.
  replace ((1 <=? m) && (m <=? 12) && (1 <=? d)
           && (d <=? Date.DaysInMonth y (m - 1))) with true.
  - eexists. split; [reflexivity|].
    apply calendar_of_MakeDay; [lia|exact Hd|].
    unfold Date.msPerDay. lia.
  - symmetry. rewrite !andb_true_iff, !Z.leb_le. lia.
Qed.

(* ===================================================================== *)
(** ** Lemmas: [applyFilters] *)
(* ===================================================================== *)

Lemma date_ge_spec (h : Host) (e : Expense) (limit : option Z) :
  date_ge h e limit = true <->
  exists t l, timeOf h e = Some t /\ limit = Some l /\ l <= t.
Proof.
  unfold date_ge, timeOf.
  generalize (newDate h (date e)). intros [t|]; destruct limit as [l|].
  - rewrite Z.leb_le. split.
    + intros H. exists t, l. auto.
    + intros (t' & l' & Et & El & H). congruence.
  - split; [discriminate|]. intros (t' & l' & _ & El & _). discriminate.
  - split; [discriminate|]. intros (t' & l' & Et & _). discriminate.
  - split; [discriminate|]. intros (t' & l' & Et & _). discriminate.
Qed.




(** [applyFilters] on a state whose [expenses] refers to an array: it
    returns, renders the kept records sorted, and leaves every array that
    was there as it was. *)
Lemma applyFilters_runs (h : Host) (now : Z) (s : State) (v : list Expense) :
  ledger s = Some v ->
  exists page s',
    applyFilters h now s = Some (page, s') /\
    tableRows page
    = sorted_by (byDateDesc h)
        (List.filter
           (keeps h now (filterCategorySelect s) (filterTimeSelect s)) v) /\
    insightsPanel page = updateInsights h (tableRows page) /\
    expenses s' = expenses s /\
    localStorage s' = localStorage s /\
    filterCategorySelect s' = filterCategorySelect s /\
    filterTimeSelect s' = filterTimeSelect s /\
    forall a x, heap s !! a = Some x -> heap s' !! a = Some x.
Proof.
  intros Hv. unfold ledger in Hv.
  destruct (query_extends h now (filterCategorySelect s) (filterTimeSelect s)
              (heap s) (expenses s) v Hv) as (r & hp' & Eq & Hr & _ & Hext).
  unfold applyFilters, mbind, M_bind. rewrite Eq.
  unfold read. rewrite Hr.
  eexists _, _. split; [reflexivity|]. simpl. auto 10.
Qed.

Lemma byDateDesc_dated (h : Host) (x y : Expense) :
  dated h x -> dated h y -> byDateDesc h x y = timeKey h y - timeKey h x.
Proof.
  unfold dated, byDateDesc, timeKey, timeOf.
  intros [tx ->] [ty ->]. reflexivity.
Qed.

Lemma StronglySorted_dated (h : Host) (l : list Expense) :
  Forall (dated h) l ->
  StronglySorted (fun a b => timeKey h b <= timeKey h a) l ->
  StronglySorted (notEarlier h) l.
Proof.
  intros Hd Hs. induction Hs as [|x l Hs IH Hx]; [constructor|].
  apply Forall_cons_1 in Hd as [Dx Dl].
  constructor; [by apply IH|].
  rewrite List.Forall_forall in *. intros y Hy.
  specialize (Hx y Hy). specialize (Dl y Hy).
  unfold notEarlier, timeKey, dated in *.
  destruct Dx as [tx Ex], Dl as [ty Ey]. by rewrite Ex, Ey in *.
Qed.

Lemma onDate_dated (h : Host) (t : Z) (l : list Expense) :
  Forall (dated h) l ->
  List.filter (onDate h t) l = List.filter (fun e => timeKey h e =? t) l.
Proof.
  intros Hd. apply filter_ext_in. intros e He.
  rewrite List.Forall_forall in Hd. destruct (Hd e He) as [te Ee].
  unfold onDate, timeKey. by rewrite Ee.
Qed.

Lemma Forall_filter_keep {A} (P : A -> Prop) (p : A -> bool) (l : list A) :
  Forall P l -> Forall P (List.filter p l).
Proof.
  rewrite !List.Forall_forall. intros H x Hx.
  apply filter_In in Hx as [Hx _]. auto.
Qed.

(* ===================================================================== *)
(** ** Lemmas: the submit handler *)
(* ===================================================================== *)

(** A submission that fails the check changes nothing. *)
Lemma submit_rejects (h : Host) (stringify : list Expense -> JSString)
    (clock : Clock) (form : Form) (s : State) :
  Number.truthy (Number.parseFloat (amountInput form)) = false
  \/ dateInput form = [] \/ categorySelect form = [] ->
  submit h stringify clock form s
  = Some (Alert (js "Please fill in all required fields."), s).
Proof.
  intros H. unfold submit.
  destruct (Number.truthy (Number.parseFloat (amountInput form))) eqn:Et;
    simpl; [|reflexivity].
  destruct H as [H|[->| ->]]; [discriminate| |].
  - rewrite str_eqb_refl. reflexivity.
  - rewrite str_eqb_refl, orb_true_r. reflexivity.
Qed.

(** One that passes appends its record and saves the ledger. *)
Lemma submit_accepts (h : Host) (stringify : list Expense -> JSString)
    (clock : Clock) (form : Form) (s : State) (v : list Expense) :
  ledger s = Some v ->
  Number.truthy (Number.parseFloat (amountInput form)) = true ->
  dateInput form <> [] -> categorySelect form <> [] ->
  exists page s',
    submit h stringify clock form s = Some (Success page, s') /\
    ledger s' = Some (v ++ [newExpense clock form]) /\
    localStorage s'
    = <[js "expenses" := stringify (v ++ [newExpense clock form])]>
        (localStorage s) /\
    expenses s' = expenses s.
Proof.
  intros Hv Ht Hd Hc. unfold submit.
  rewrite Ht. apply str_eqb_neq in Hd, Hc. rewrite Hd, Hc. simpl.
  unfold ledger in Hv.
  unfold Array_push, mbind at 1, M_bind at 1, read, write. rewrite Hv.
  simpl. rewrite Hv.
  set (rec := {| id := idTime clock |}).
  change rec with (newExpense clock form). clear rec.
  set (v' := v ++ [newExpense clock form]).
  set (s0 := {| heap := <[expenses s := v']> (heap s) |}).
  assert (H0 : ledger s0 = Some v') by apply lookup_insert_eq.
  unfold saveExpenses. rewrite H0. simpl.
  set (s1 := {| heap := heap s0; expenses := expenses s0;
              localStorage := <[js "expenses" := stringify v']> (localStorage s0);
              filterCategorySelect := filterCategorySelect s0;
              filterTimeSelect := filterTimeSelect s0 |}).
  destruct (applyFilters_runs h (filterTime clock) s1 v' H0)
    as (page & s2 & E2 & _ & _ & He & Hl & _ & _ & Hh).
  change (applyFilters h (filterTime clock) _) with
    (applyFilters h (filterTime clock) s1).
  rewrite E2. simpl.
  assert (H2 : ledger s2 = Some v').
  { unfold ledger. rewrite He. apply Hh. exact H0. }
  unfold populateFilterCategories. rewrite H2. simpl.
  eexists _, _. split; [reflexivity|]. simpl.
  repeat split; [exact H2| exact Hl | exact He].
Qed.

Lemma negative_truthy (x : Number.t) :
  Number.lt x Number.zero = true -> Number.truthy x = true.
Proof. destruct x as [[]|[]| |[] m e]; simpl; try discriminate; reflexivity. Qed.

Lemma truthy_false (x : Number.t) :
  Number.truthy x = false <->
  Number.is_zero x = true \/ Number.is_nan x = true.
Proof.
  unfold Number.truthy. rewrite negb_false_iff, orb_true_iff. reflexivity.
Qed.

(* ===================================================================== *)
(** ** Theorems: the filter *)
(* ===================================================================== *)




(** C4.  For every ledger whose records all have a valid date and every
    criteria, the rows [applyFilters] renders are sorted by date, latest
    first, and the records of any one date are in the order they have in
    the ledger. *)
Theorem applyFilters_sorted_stable (h : Host) (now : Z) (s : State)
    (v : list Expense) :
  ledger s = Some v ->
  Forall (dated h) v ->
  exists page s',
    applyFilters h now s = Some (page, s') /\
    StronglySorted (notEarlier h) (tableRows page) /\
    forall t,
      List.filter (onDate h t) (tableRows page)
      = List.filter (onDate h t)
          (List.filter
             (keeps h now (filterCategorySelect s) (filterTimeSelect s)) v).
Proof.
  intros Hv Hd.
  destruct (applyFilters_runs h now s v Hv) as (page & s' & E & Hrows & _).
  exists page, s'. split; [exact E|].
  set (kept := List.filter
         (keeps h now (filterCategorySelect s) (filterTimeSelect s)) v) in *.
  assert (Hk : Forall (dated h) kept) by (by apply Forall_filter_keep).
  assert (Hr : Forall (dated h) (tableRows page)).
  { rewrite Hrows. rewrite List.Forall_forall in *. intros e He.
    apply Hk. by apply (proj1 (sorted_by_In _ _ _)) in He. }
  split.
  - apply StronglySorted_dated; [exact Hr|].
    rewrite Hrows.
    apply (sorted_by_sorted (byDateDesc h) (dated h) (timeKey h)
             (byDateDesc_dated h) kept Hk).
  - intros t. rewrite (onDate_dated h t _ Hr), (onDate_dated h t _ Hk), Hrows.
    apply (sorted_by_stable (byDateDesc h) (dated h) (timeKey h)
             (byDateDesc_dated h) t kept Hk).
Qed.

(** On [ledger0] with no filter the three records are shown, those of
    8 January first and in the order of the ledger. *)
Lemma applyFilters_sorted_stable_witness :
  exists page s',
    applyFilters host0 now0 allState0 = Some (page, s') /\
    tableRows page = [food50; rent150; food100] /\
    StronglySorted (notEarlier host0) (tableRows page) /\
    forall t,
      List.filter (onDate host0 t) (tableRows page)
      = List.filter (onDate host0 t)
          (List.filter
             (keeps host0 now0 (filterCategorySelect allState0)
                (filterTimeSelect allState0)) ledger0).
Proof.
  destruct (applyFilters_sorted_stable host0 now0 allState0 ledger0)
    as (page & s' & E & Hs & Hst).
  - reflexivity.
  - repeat constructor; eexists; vm_compute; reflexivity.
  - exists page, s'. split; [exact E|]. split; [|split; assumption].
    destruct (applyFilters_runs host0 now0 allState0 ledger0 eq_refl)
      as (page' & s'' & E' & Hrows & _).
    rewrite E in E'. injection E' as <- <-.
    rewrite Hrows. vm_compute. reflexivity.
Defined.

(** C9.  For every ledger and every criteria, [applyFilters] leaves the
    array [expenses] refers to as it was, the same records in the same
    order, also after the sort of the result; so is every other array
    there was, and [localStorage]. *)
Theorem applyFilters_frame (h : Host) (now : Z) (s : State)
    (v : list Expense) :
  ledger s = Some v ->
  exists page s',
    applyFilters h now s = Some (page, s') /\
    ledger s' = Some v /\
    expenses s' = expenses s /\
    localStorage s' = localStorage s /\
    forall a x, heap s !! a = Some x -> heap s' !! a = Some x.
Proof.
  intros Hv.
  destruct (applyFilters_runs h now s v Hv)
    as (page & s' & E & _ & _ & He & Hl & _ & _ & Hh).
  exists page, s'. repeat split; try assumption.
  unfold ledger in *. rewrite He. by apply Hh.
Qed.

Lemma applyFilters_frame_witness :
  exists page s',
    applyFilters host0 now0 state0 = Some (page, s') /\
    ledger s' = Some ledger0 /\
    expenses s' = expenses state0 /\
    localStorage s' = localStorage state0 /\
    forall a x, heap state0 !! a = Some x -> heap s' !! a = Some x.
Proof.
  apply (applyFilters_frame host0 now0 state0 ledger0).
  reflexivity.
Defined.

(** C6.  On no records, [updateInsights] shows a total of [0.00], the
    category [-], an average of [0.00] and the get-started text. *)
Theorem updateInsights_empty (h : Host) :
  updateInsights h []
  = Some {| totalSpendEl := js "0.00";
            highestCategoryEl := js "-";
            avgSpendEl := js "0.00";
            suggestionEl := js "Add an expense to get started!" |}.
Proof. reflexivity. Qed.

Lemma submissions_ledger (h : Host) (stringify : list Expense -> JSString)
    (subs : list (Clock * Form)) :
  forall (s : State) (v : list Expense),
  ledger s = Some v ->
  exists s',
    submissions h stringify subs s = Some s' /\
    ledger s' = Some (v ++ appended subs).
Proof.
  induction subs as [|[clock form] subs IH]; intros s v Hv.
  - exists s. split; [reflexivity|]. unfold appended. simpl.
    by rewrite app_nil_r.
  - unfold appended. simpl. destruct (accepted form) eqn:Ea.
    + unfold accepted in Ea.
      apply andb_true_iff in Ea as [Ea Hc].
      apply andb_true_iff in Ea as [Ht Hd].
      apply negb_true_iff, str_eqb_neq in Hc, Hd.
      destruct (submit_accepts h stringify clock form s v Hv Ht Hd Hc)
        as (page & s1 & E1 & H1 & _).
      destruct (IH s1 _ H1) as (s' & E' & H').
      exists s'. rewrite E1. simpl. split; [exact E'|].
      rewrite H'. simpl. by rewrite <- app_assoc.
    + assert (Hr : Number.truthy (Number.parseFloat (amountInput form)) = false
                   \/ dateInput form = [] \/ categorySelect form = []).
      { unfold accepted in Ea.
        apply andb_false_iff in Ea as [Ea|Ea];
          [apply andb_false_iff in Ea as [Ea|Ea]|].
        - by left.
        - right; left. by apply negb_false_iff, str_eqb_eq in Ea.
        - right; right. by apply negb_false_iff, str_eqb_eq in Ea. }
      rewrite (submit_rejects h stringify clock form s Hr). simpl.
      apply (IH s v Hv).
Qed.

(* ===================================================================== *)
(** ** Theorems: the submit handler *)
(* ===================================================================== *)

(** C10.  The submit handler rejects a submission exactly when the amount
    parses to zero or to NaN, or the date or the category is the empty
    string; the state, ledger and storage with it, is then as before.
    Any other submission appends its record and saves the ledger; one with
    a negative amount is among them and is appended with that amount. *)
Theorem submit_validation (h : Host) (stringify : list Expense -> JSString)
    (clock : Clock) (form : Form) (s : State) (v : list Expense) :
  ledger s = Some v ->
  let parsed := Number.parseFloat (amountInput form) in
  let invalid :=
    Number.is_zero parsed = true \/ Number.is_nan parsed = true \/
    dateInput form = [] \/ categorySelect form = [] in
  (invalid ->
     submit h stringify clock form s
     = Some (Alert (js "Please fill in all required fields."), s)) /\
  (~ invalid ->
     exists page s',
       submit h stringify clock form s = Some (Success page, s') /\
       ledger s' = Some (v ++ [newExpense clock form]) /\
       localStorage s'
       = <[js "expenses" := stringify (v ++ [newExpense clock form])]>
           (localStorage s)) /\
  (Number.lt parsed Number.zero = true ->
   dateInput form <> [] -> categorySelect form <> [] ->
   ~ invalid /\ amount (newExpense clock form) = parsed).
Proof.
  intros Hv parsed invalid. subst parsed invalid. split; [|split].
  - intros H. apply submit_rejects.
    rewrite truthy_false. tauto.
  - intros H.
    destruct (Number.truthy (Number.parseFloat (amountInput form))) eqn:Et.
    + destruct (submit_accepts h stringify clock form s v Hv Et)
        as (page & s' & E & Hl & Hs & _); [tauto|tauto|].
      exists page, s'. auto.
    + apply truthy_false in Et. tauto.
  - intros Hneg Hd Hc. split; [|reflexivity].
    apply negative_truthy in Hneg.
    intros [Hz|[Hn|[?|?]]]; try contradiction.
    + assert (Number.truthy (Number.parseFloat (amountInput form)) = false)
        by (apply truthy_false; auto).
      congruence.
    + assert (Number.truthy (Number.parseFloat (amountInput form)) = false)
        by (apply truthy_false; auto).
      congruence.
Qed.

Lemma submit_validation_witness :
  let parsed := Number.parseFloat (amountInput refund) in
  let invalid :=
    Number.is_zero parsed = true \/ Number.is_nan parsed = true \/
    dateInput refund = [] \/ categorySelect refund = [] in
  (invalid ->
     submit host0 stringify0 clock0 refund state0
     = Some (Alert (js "Please fill in all required fields."), state0)) /\
  (~ invalid ->
     exists page s',
       submit host0 stringify0 clock0 refund state0 = Some (Success page, s') /\
       ledger s' = Some (ledger0 ++ [newExpense clock0 refund]) /\
       localStorage s'
       = <[js "expenses" := stringify0 (ledger0 ++ [newExpense clock0 refund])]>
           (localStorage state0)) /\
  (Number.lt parsed Number.zero = true ->
   dateInput refund <> [] -> categorySelect refund <> [] ->
   ~ invalid /\ amount (newExpense clock0 refund) = parsed).
Proof.
  apply (submit_validation host0 stringify0 clock0 refund state0 ledger0).
  reflexivity.
Defined.

(** C8, as the code has it.  After every run of submissions the ids in
    the ledger are the ids it had, followed by the [Date.now()] readings of
    the submissions that were accepted, in order.  So the ids are pairwise
    distinct whenever the ids the ledger had and these readings are. *)
Theorem submissions_ids (h : Host) (stringify : list Expense -> JSString)
    (subs : list (Clock * Form)) (s : State) (v : list Expense) :
  ledger s = Some v ->
  exists s' v',
    submissions h stringify subs s = Some s' /\
    ledger s' = Some v' /\
    List.map id v'
    = List.map id v
      ++ List.map (fun cf => idTime (fst cf))
           (List.filter (fun cf => accepted (snd cf)) subs) /\
    (List.NoDup (List.map id v
           ++ List.map (fun cf => idTime (fst cf))
                (List.filter (fun cf => accepted (snd cf)) subs)) ->
     List.NoDup (List.map id v')).
Proof.
  intros Hv.
  destruct (submissions_ledger h stringify subs s v Hv) as (s' & E & Hl).
  exists s', (v ++ appended subs). split; [exact E|]. split; [exact Hl|].
  assert (Hids : List.map id (v ++ appended subs)
                 = List.map id v
                   ++ List.map (fun cf => idTime (fst cf))
                        (List.filter (fun cf => accepted (snd cf)) subs)).
  { rewrite List.map_app. f_equal. unfold appended.
    rewrite List.map_map. reflexivity. }
  split; [exact Hids|]. rewrite Hids. intros Hnd. exact Hnd.
Qed.

Lemma submissions_ids_witness :
  exists s' v',
    submissions host0 stringify0 [(clock0, lunch); (clock1, refund)] state0
    = Some s' /\
    ledger s' = Some v' /\
    List.map id v'
    = List.map id ledger0
      ++ List.map (fun cf => idTime (fst cf))
           (List.filter (fun cf => accepted (snd cf))
              [(clock0, lunch); (clock1, refund)]) /\
    List.NoDup (List.map id v').
Proof.
  destruct (submissions_ids host0 stringify0
              [(clock0, lunch); (clock1, refund)] state0 ledger0 eq_refl)
    as (s' & v' & E & Hl & Hids & Hnd).
  exists s', v'. split; [exact E|]. split; [exact Hl|].
  split; [exact Hids|]. apply Hnd.
  vm_compute.
  repeat (constructor;
          [simpl; intros H;
           repeat (destruct H as [H|H]; [discriminate H|]); exact H|]).
  constructor.
Defined.

(** C8, as the specification has it, fails: two submissions that read the
    same millisecond off the clock leave two records with one id. *)
Lemma submissions_same_millisecond :
  exists s' v',
    submissions host0 stringify0 [(clock0, lunch); (clock0, refund)] emptyState
    = Some s' /\
    ledger s' = Some v' /\
    ~ List.NoDup (List.map id v').
Proof.
  destruct (submissions_ledger host0 stringify0
              [(clock0, lunch); (clock0, refund)] emptyState [] eq_refl)
    as (s' & E & Hl).
  exists s', ([] ++ appended [(clock0, lunch); (clock0, refund)]).
  split; [exact E|]. split; [exact Hl|].
  vm_compute. intros H. inversion H as [|x l Hin _]; subst.
  apply Hin. left. reflexivity.
Qed.

(* ===================================================================== *)
(** ** Lemmas: [JSON.parse] has fuel enough *)
(* ===================================================================== *)

Lemma skip_ws_length (s : JSString) :
  (length (JSON.skip_ws s) <= length s)%nat.
Proof.
  induction s as [|c s IH]; simpl; [lia|].
  destruct (JSON.is_ws c); simpl; lia.
Qed.

Lemma skip_ws_cons (s r : JSString) (c : N) :
  JSON.skip_ws s = c :: r -> (length r < length s)%nat.
Proof.
  intros E. pose proof (skip_ws_length s) as H. rewrite E in H. simpl in H. lia.
Qed.

Lemma span_digits_length (s ds rest : JSString) :
  span_digits s = (ds, rest) -> length s = (length ds + length rest)%nat.
Proof.
  revert ds rest. induction s as [|c s IH]; simpl; intros ds rest E.
  - by inversion E.
  - destruct (is_digit c).
    + destruct (span_digits s) as [ds' rest'] eqn:E'. inversion E; subst.
      simpl. by rewrite (IH ds' rest).
    + inversion E; subst. reflexivity.
Qed.

Lemma strip_prefix_length (p s r : JSString) :
  strip_prefix p s = Some r -> length s = (length p + length r)%nat.
Proof.
  revert s. induction p as [|a p IH]; intros [|b s] E; simpl in *;
    try discriminate.
  - by inversion E.
  - by inversion E.
  - destruct (a =? b)%N; [|discriminate]. by rewrite (IH s E).
Qed.

Lemma string_body_length (n : nat) :
  forall s t r, (length s <= n)%nat ->
    JSON.string_body s = Some (t, r) -> (length r < length s)%nat.
Proof.
  induction n as [|n IH]; intros s t r Hn E.
  - destruct s; [discriminate|simpl in Hn; lia].
  - destruct s as [|c s]; [discriminate|]. simpl in Hn, E.
    repeat (case_match; simplify_eq; simpl in *; try lia);
      match goal with
      | H : JSON.string_body ?x = Some (_, r) |- _ =>
          apply IH in H; [lia|simpl in *; lia]
      end.
Qed.

Lemma number_length (neg : bool) (s r : JSString) (x : Number.t) :
  JSON.number neg s = Some (x, r) -> (length r < length s)%nat.
Proof.
  unfold JSON.number. intros E.
  repeat (case_match; simplify_eq; simpl in *);
    repeat match goal with
      | H : span_digits _ = _ |- _ => apply span_digits_length in H
      end; simpl in *; lia.
Qed.

Lemma literal_length (word : string) (v v' : JSON.value) (s r : JSString) :
  word <> EmptyString ->
  JSON.literal word v s = JSON.Ok (v', r) -> (length r < length s)%nat.
Proof.
  unfold JSON.literal. intros Hw E.
  destruct (strip_prefix (js word) s) as [r'|] eqn:Es; [|discriminate].
  inversion E; subst. apply strip_prefix_length in Es.
  destruct word; [done|]. simpl in Es. lia.
Qed.

(** What the hypotheses say about lengths: each successful read and each
    non-empty rest after white space is turned into an inequality. *)
Ltac json_lengths IHv IHe IHm :=
  repeat match goal with
    | H : JSON.skip_ws _ = _ :: _ |- _ => apply skip_ws_cons in H
    | H : JSON.parse_value _ _ = JSON.Ok _ |- _ => apply IHv in H
    | H : JSON.elements _ _ _ = JSON.Ok _ |- _ => apply IHe in H
    | H : JSON.members _ _ _ = JSON.Ok _ |- _ => apply IHm in H
    | H : JSON.string_body _ = Some _ |- _ =>
        apply (string_body_length _ _ _ _ (le_n _)) in H
    | H : JSON.number _ _ = Some _ |- _ => apply number_length in H
    | H : JSON.literal _ _ _ = JSON.Ok _ |- _ =>
        apply literal_length in H; [|discriminate]
    | H : context [JSON.skip_ws ?x] |- _ =>
        lazymatch goal with
        | _ : (length (JSON.skip_ws x) <= length x)%nat |- _ => fail
        | _ => pose proof (skip_ws_length x)
        end
    end;
  simpl in *.

(** Every value read takes at least one character. *)
Lemma parse_consumes (n : nat) :
  (forall s v r, JSON.parse_value n s = JSON.Ok (v, r) ->
     (length r < length s)%nat) /\
  (forall s acc v r, JSON.elements n s acc = JSON.Ok (v, r) ->
     (length r < length s)%nat) /\
  (forall s acc v r, JSON.members n s acc = JSON.Ok (v, r) ->
     (length r < length s)%nat).
Proof.
  induction n as [|n (IHv & IHe & IHm)]; [repeat split; discriminate|].
  split; [|split].
  - intros s v r E. simpl in E.
    destruct (JSON.skip_ws s) as [|c r0] eqn:Es; [discriminate|].
    apply skip_ws_cons in Es.
    repeat (case_match; simplify_eq); json_lengths IHv IHe IHm; lia.
  - intros s acc v r E. simpl in E.
    repeat (case_match; simplify_eq); json_lengths IHv IHe IHm; lia.
  - intros s acc v r E. simpl in E.
    repeat (case_match; simplify_eq); json_lengths IHv IHe IHm; lia.
Qed.

(** With twice the length of the text and one more, reading a value does
    not run out of fuel. *)
Lemma parse_fuel (n : nat) :
  (forall s, (2 * length s + 1 <= n)%nat ->
     JSON.parse_value n s <> JSON.OutOfFuel) /\
  (forall s acc, (2 * length s + 2 <= n)%nat ->
     JSON.elements n s acc <> JSON.OutOfFuel) /\
  (forall s acc, (2 * length s + 2 <= n)%nat ->
     JSON.members n s acc <> JSON.OutOfFuel).
Proof.
  induction n as [|n (IHv & IHe & IHm)]; [repeat split; intros; lia|].
  pose proof (parse_consumes n) as (Cv & Ce & Cm).
  split; [|split].
  - intros s Hn E. simpl in E.
    destruct (JSON.skip_ws s) as [|c r0] eqn:Es; [discriminate|].
    apply skip_ws_cons in Es.
    repeat (case_match; simplify_eq);
      try (unfold JSON.literal in *; case_match; discriminate);
      json_lengths Cv Ce Cm;
      match goal with
      | H : JSON.members _ _ _ = JSON.OutOfFuel |- _ =>
          apply IHm in H; [exact H|simpl in *; lia]
      | H : JSON.elements _ _ _ = JSON.OutOfFuel |- _ =>
          apply IHe in H; [exact H|simpl in *; lia]
      end.
  - intros s acc Hn E. simpl in E.
    repeat (case_match; simplify_eq); json_lengths Cv Ce Cm;
      match goal with
      | H : JSON.parse_value _ _ = JSON.OutOfFuel |- _ =>
          apply IHv in H; [exact H|simpl in *; lia]
      | H : JSON.elements _ _ _ = JSON.OutOfFuel |- _ =>
          apply IHe in H; [exact H|simpl in *; lia]
      end.
  - intros s acc Hn E. simpl in E.
    repeat (case_match; simplify_eq); json_lengths Cv Ce Cm;
      match goal with
      | H : JSON.parse_value _ _ = JSON.OutOfFuel |- _ =>
          apply IHv in H; [exact H|simpl in *; lia]
      | H : JSON.members _ _ _ = JSON.OutOfFuel |- _ =>
          apply IHm in H; [exact H|simpl in *; lia]
      end.
Qed.

(** [JSON.parse] ends in a value or in a SyntaxError. *)
Lemma parse_total (text : JSString) : JSON.parse text <> JSON.OutOfFuel.
Proof.
  unfold JSON.parse.
  destruct (JSON.parse_value (2 * length text + 2) text) as [[v r]| |] eqn:E.
  - destruct (JSON.skip_ws r); discriminate.
  - discriminate.
  - exfalso. revert E. apply (proj1 (parse_fuel _)). lia.
Qed.

(** The values that count as false. *)
Lemma JSON_falsy (v : JSON.value) :
  JSON.truthy v = false <->
  v = JSON.Null \/ v = JSON.Bool false \/ v = JSON.Str [] \/
  exists x, v = JSON.Num x /\ (Number.is_zero x = true \/ Number.is_nan x = true).
Proof.
  split.
  - destruct v as [|[]|x|[|c s]|vs|ms]; simpl; try discriminate; auto.
    intros H%truthy_false. right; right; right. by exists x.
  - intros [->|[->|[->|(x & -> & H)]]]; try reflexivity.
    simpl. by apply truthy_false.
Qed.

(* ===================================================================== *)
(** ** Theorems: the initial load *)
(* ===================================================================== *)

(** C1, as the code has it.  With the key absent the ledger starts as the
    empty array.  A stored text is parsed as JSON, which ends in a value or
    in a SyntaxError: text that is not JSON, the empty text among it, makes
    the load raise the SyntaxError; text for a value that counts as false
    ([null], [false], a zero, the empty string) gives the empty array; text
    for any other value makes that value the ledger, whatever its shape. *)
Theorem load_outcomes :
  load None = JSON.Ok (JSON.Arr []) /\
  (forall text,
     JSON.parse text = JSON.SyntaxError \/ exists v, JSON.parse text = JSON.Ok v) /\
  (forall text,
     JSON.parse text = JSON.SyntaxError ->
     load (Some text) = JSON.SyntaxError) /\
  (forall text v,
     JSON.parse text = JSON.Ok v -> JSON.truthy v = false ->
     load (Some text) = JSON.Ok (JSON.Arr [])) /\
  (forall text v,
     JSON.parse text = JSON.Ok v -> JSON.truthy v = true ->
     load (Some text) = JSON.Ok v) /\
  (forall v,
     JSON.truthy v = false <->
     v = JSON.Null \/ v = JSON.Bool false \/ v = JSON.Str [] \/
     exists x, v = JSON.Num x /\
       (Number.is_zero x = true \/ Number.is_nan x = true)).
Proof.
  split; [vm_compute; reflexivity|]. split; [|split; [|split; [|split]]].
  - intros text. pose proof (parse_total text) as H.
    destruct (JSON.parse text) as [v| |]; [right; by exists v|by left|].
    contradiction.
  - intros text E. unfold load. by rewrite E.
  - intros text v E Hv. unfold load. by rewrite E, Hv.
  - intros text v E Hv. unfold load. by rewrite E, Hv.
  - apply JSON_falsy.
Qed.

Lemma load_outcomes_witness :
  load (Some (js "null")) = JSON.Ok (JSON.Arr []) /\
  load (Some (js "[]")) = JSON.Ok (JSON.Arr []).
Proof.
  destruct load_outcomes as (_ & _ & _ & Hfalsy & Htruthy & _).
  split.
  - apply (Hfalsy (js "null") JSON.Null); vm_compute; reflexivity.
  - apply (Htruthy (js "[]") (JSON.Arr [])); vm_compute; reflexivity.
Defined.

(** C1, as the specification has it, fails: an empty stored text makes the
    load raise, so does text that is not JSON, and a stored value of
    another shape is kept, not replaced by the empty array. *)
Lemma load_raises_or_keeps :
  initial_expenses (<[js "expenses" := []]> ∅) = JSON.SyntaxError /\
  initial_expenses (<[js "expenses" := js "[{"]> ∅) = JSON.SyntaxError /\
  initial_expenses (<[js "expenses" := js "{}"]> ∅) = JSON.Ok (JSON.Obj []).
Proof. repeat split; vm_compute; reflexivity. Qed.

(* ===================================================================== *)
(** ** Lemmas: the order of Numbers *)
(* ===================================================================== *)

Lemma rank_lt_spec (x y : Number.t) :
  Number.is_nan x = false -> Number.is_nan y = false ->
  (SFltb x y = true <-> rank_lt (rank x) (rank y)).
Proof.
  unfold SFltb, rank_lt.
  destruct x as [sx|sx| |sx mx ex], y as [sy|sy| |sy my ey];
    try discriminate; intros _ _;
    try (destruct sx); try (destruct sy); simpl;
    try (split; intros; first [discriminate|reflexivity|lia]);
    change (PosDef.Pos.compare_cont Eq mx my) with (Pos.compare mx my);
    destruct (Z.compare_spec ex ey), (Pos.compare_spec mx my); simpl;
    split; intros; first [discriminate|reflexivity|lia].
Qed.

Lemma gt_false_trans (x y z : Number.t) :
  Number.is_nan x = false -> Number.is_nan y = false ->
  Number.is_nan z = false ->
  Number.gt x y = false -> Number.gt y z = false -> Number.gt x z = false.
Proof.
  unfold Number.gt. intros Hx Hy Hz H1 H2.
  apply not_true_iff_false. apply not_true_iff_false in H1, H2.
  rewrite rank_lt_spec in * by assumption.
  unfold rank_lt in *. destruct (rank x) as [[? ?] ?], (rank y) as [[? ?] ?],
    (rank z) as [[? ?] ?]. lia.
Qed.

Lemma lt_gt_false_trans (x y z : Number.t) :
  Number.is_nan x = false -> Number.is_nan y = false ->
  Number.is_nan z = false ->
  Number.gt y x = true -> Number.gt y z = false -> Number.gt x z = false.
Proof.
  unfold Number.gt. intros Hx Hy Hz H1 H2.
  apply not_true_iff_false. apply not_true_iff_false in H2.
  rewrite rank_lt_spec in * by assumption.
  unfold rank_lt in *. destruct (rank x) as [[? ?] ?], (rank y) as [[? ?] ?],
    (rank z) as [[? ?] ?]. lia.
Qed.

Lemma gt_irrefl (x : Number.t) : Number.gt x x = false.
Proof.
  destruct x as [s|s| |s m e]; try reflexivity; try (by destruct s).
  unfold Number.gt, SFltb. simpl.
  replace (Pos.compare_cont Eq m m) with (Pos.compare m m) by reflexivity.
  rewrite Z.compare_refl, Pos.compare_refl. by destruct s.
Qed.

(* ===================================================================== *)
(** ** Lemmas: rounding is exact on what a Number can hold *)
(* ===================================================================== *)

Lemma digits2_log2 (p : positive) :
  Zpos (digits2_pos p) = Z.log2 (Zpos p) + 1.
Proof.
  assert (Hs : forall q, digits2_pos q = Pos.size q)
    by (induction q; simpl; congruence).
  destruct p; simpl; rewrite ?Hs; lia.
Qed.

Lemma iter_xO (m : positive) (j : positive) :
  Zpos (Pos.iter xO m j) = Zpos m * 2 ^ Zpos j.
Proof.
  induction j as [|j IH] using Pos.peano_ind.
  - simpl. lia.
  - rewrite Pos.iter_succ, Pos2Z.inj_succ, Z.pow_succ_r by lia.
    rewrite Pos2Z.inj_xO, IH. lia.
Qed.

Lemma iter_pos_iter {A} (f : A -> A) (n : positive) (x : A) :
  SpecFloat.iter_pos f n x = Pos.iter f x n.
Proof.
  revert x. induction n as [n IH|n IH|]; intros x; simpl.
  - rewrite !IH. by rewrite <- !Pos.iter_swap.
  - by rewrite !IH.
  - reflexivity.
Qed.

Lemma shr_1_even (z : Z) :
  0 < z ->
  shr_1 {| shr_m := 2 * z; shr_r := false; shr_s := false |}
  = {| shr_m := z; shr_r := false; shr_s := false |}.
Proof. destruct z; try lia. reflexivity. Qed.

Lemma shr_exact (n : positive) (z : Z) :
  0 < z ->
  SpecFloat.iter_pos shr_1 n {| shr_m := z * 2 ^ Zpos n; shr_r := false; shr_s := false |}
  = {| shr_m := z; shr_r := false; shr_s := false |}.
Proof.
  intros Hz. rewrite iter_pos_iter. revert z Hz.
  induction n as [|n IH] using Pos.peano_ind; intros z Hz.
  - simpl. replace (z * 2 ^ 1) with (2 * z) by lia. by apply shr_1_even.
  - rewrite Pos.iter_succ_r, Pos2Z.inj_succ, Z.pow_succ_r by lia.
    replace (z * (2 * 2 ^ Zpos n)) with (2 * (z * 2 ^ Zpos n)) by lia.
    rewrite shr_1_even by (apply Z.mul_pos_pos; [lia|by apply Z.pow_pos_nonneg]).
    by apply IH.
Qed.

(** Shifting out zero bits loses nothing. *)
Lemma shr_fexp_exact (m c : positive) (e n : Z) :
  Zpos (digits2_pos c) = 53 -> 0 <= n -> -1074 <= e + n ->
  Zpos m = Zpos c * 2 ^ n ->
  shr_fexp 53 1024 (Zpos m) e loc_Exact
  = ({| shr_m := Zpos c; shr_r := false; shr_s := false |}, e + n).
Proof.
  intros Hd Hn He Hm.
  assert (Hdm : Zpos (digits2_pos m) = 53 + n).
  { rewrite digits2_log2 in *. rewrite Hm, Z.log2_mul_pow2 by lia. lia. }
  unfold shr_fexp, fexp, emin. simpl Zdigits2. rewrite Hdm.
  replace (Z.max (53 + n + e - 53) (3 - 1024 - 53) - e) with n by lia.
  change (shr_record_of_loc (Zpos m) loc_Exact)
    with {| shr_m := Zpos m; shr_r := false; shr_s := false |}.
  unfold shr. destruct n as [|d|d]; [|  |lia].
  - rewrite Z.pow_0_r, Z.mul_1_r in Hm. by rewrite Hm, Z.add_0_r.
  - by rewrite Hm, shr_exact.
Qed.

(** A value that a 53-bit mantissa [c] holds, given with zero bits after
    it, is rounded to that mantissa. *)
Lemma round_aux_exact (s : bool) (m c : positive) (e n : Z) :
  Zpos (digits2_pos c) = 53 -> 0 <= n -> -1074 <= e + n <= 971 ->
  Zpos m = Zpos c * 2 ^ n ->
  binary_round_aux 53 1024 s (Zpos m) e loc_Exact = S754_finite s c (e + n).
Proof.
  intros Hd Hn He Hm. unfold binary_round_aux.
  rewrite (shr_fexp_exact m c e n Hd Hn) by (lia || exact Hm).
  cbn [shr_m loc_of_shr_record round_nearest_even].
  rewrite (shr_fexp_exact c c (e + n) 0 Hd) by lia.
  cbn [shr_m]. rewrite Z.add_0_r.
  replace (e + n <=? 1024 - 53) with true by (symmetry; apply Z.leb_le; lia).
  reflexivity.
Qed.

(** The master lemma: a mantissa and exponent whose value a 53-bit
    mantissa [c] with exponent [ec] in range also has, round to [c] and
    [ec].  Values are compared in units of [2^-1074]. *)
Lemma binary_round_exact (s : bool) (m c : positive) (e ec : Z) :
  Zpos (digits2_pos c) = 53 -> -1074 <= ec <= 971 -> -1074 <= e ->
  Zpos m * 2 ^ (e + 1074) = Zpos c * 2 ^ (ec + 1074) ->
  binary_round 53 1024 s m e = S754_finite s c ec.
Proof.
  intros Hd Hec He Hv.
  assert (Hdm : Zpos (digits2_pos m) + e = 53 + ec).
  { rewrite digits2_log2 in *.
    assert (Hl : Z.log2 (Zpos m * 2 ^ (e + 1074))
                 = Z.log2 (Zpos c * 2 ^ (ec + 1074))) by (by rewrite Hv).
    rewrite !Z.log2_mul_pow2 in Hl by lia. lia. }
  unfold binary_round, fexp, emin. rewrite Hdm.
  replace (Z.max (53 + ec - 53) (3 - 1024 - 53)) with ec by lia.
  unfold shl_align.
  destruct (ec - e) as [|d|d] eqn:Ed.
  - replace ec with (e + 0) by lia.
    apply round_aux_exact; try lia.
    assert (e = ec) by lia. subst e.
    apply Z.mul_cancel_r in Hv; [|apply Z.pow_nonzero; lia]. lia.
  - replace ec with (e + Zpos d) by lia.
    apply round_aux_exact; try lia.
    replace (ec + 1074) with (Zpos d + (e + 1074)) in Hv by lia.
    rewrite (Z.pow_add_r 2 (Zpos d) (e + 1074)), Z.mul_assoc in Hv by lia.
    apply Z.mul_cancel_r in Hv; [exact Hv|apply Z.pow_nonzero; lia].
  - replace ec with (ec + 0) at 2 by lia.
    apply round_aux_exact; try lia.
    rewrite iter_xO.
    replace (e + 1074) with (Zpos d + (ec + 1074)) in Hv by lia.
    rewrite (Z.pow_add_r 2 (Zpos d) (ec + 1074)), Z.mul_assoc in Hv by lia.
    apply Z.mul_cancel_r in Hv; [lia|apply Z.pow_nonzero; lia].
Qed.

(* ===================================================================== *)
(** ** Lemmas: sums of finite Numbers are Numbers *)
(* ===================================================================== *)

Lemma shr_1_nonneg (mrs : shr_record) : 0 <= shr_m mrs -> 0 <= shr_m (shr_1 mrs).
Proof.
  destruct mrs as [m r s]. simpl.
  destruct m as [|[p|p|]|[p|p|]]; simpl; lia.
Qed.

Lemma shr_nonneg (mrs : shr_record) (e n : Z) :
  0 <= shr_m mrs -> 0 <= shr_m (fst (shr mrs e n)).
Proof.
  intros H. unfold shr. destruct n as [|p|p]; simpl; try exact H.
  rewrite iter_pos_iter. apply Pos.iter_invariant; [|exact H].
  intros x Hx. by apply shr_1_nonneg.
Qed.

Lemma shr_fexp_nonneg (m e : Z) (l : location) :
  0 <= m -> 0 <= shr_m (fst (shr_fexp 53 1024 m e l)).
Proof.
  intros H. unfold shr_fexp. apply shr_nonneg.
  destruct l as [|[]]; exact H.
Qed.

Lemma round_nearest_even_nonneg (m : Z) (l : location) :
  0 <= m -> 0 <= round_nearest_even m l.
Proof.
  intros H. unfold round_nearest_even.
  destruct l as [|[]]; try destruct (Z.even m); lia.
Qed.

Lemma binary_round_aux_number (s : bool) (m e : Z) (l : location) :
  0 <= m -> Number.is_nan (binary_round_aux 53 1024 s m e l) = false.
Proof.
  intros H. unfold binary_round_aux.
  pose proof (shr_fexp_nonneg m e l H) as H1.
  destruct (shr_fexp 53 1024 m e l) as [mrs' e'].
  pose proof (shr_fexp_nonneg
                (round_nearest_even (shr_m mrs') (loc_of_shr_record mrs'))
                e' loc_Exact
                (round_nearest_even_nonneg _ _ H1)) as H2.
  destruct (shr_fexp 53 1024 _ e' loc_Exact) as [mrs'' e''].
  simpl in H2. destruct (shr_m mrs''); try lia; try reflexivity.
  destruct (e'' <=? 1024 - 53); reflexivity.
Qed.

Lemma binary_normalize_number (m e : Z) (szero : bool) :
  Number.is_nan (binary_normalize 53 1024 m e szero) = false.
Proof.
  unfold binary_normalize, binary_round.
  destruct m as [|p|p]; [reflexivity| |];
    destruct (shl_align p e _) as [mz ez];
    apply binary_round_aux_number; lia.
Qed.

(** Adding a finite Number to a Number gives a Number. *)
Lemma add_finite_number (x y : Number.t) :
  Number.is_nan x = false -> Number.is_finite y = true ->
  Number.is_nan (Number.add x y) = false.
Proof.
  unfold Number.add, SFadd.
  destruct x as [sx|sx| |sx mx ex], y as [sy|sy| |sy my ey];
    try discriminate; intros _ _; try reflexivity.
  - by destruct sx, sy.
  - apply binary_normalize_number.
Qed.

Lemma or_zero_number (v : Number.t) : Number.is_nan (or_zero v) = false.
Proof. by destruct v as [[]|[]| |[] m e]. Qed.

Lemma totalStep_number (records : list Expense) (k : JSString) :
  Forall (fun e => Number.is_finite (amount e) = true) records ->
  forall acc x,
    (forall a, acc = Some a -> Number.is_nan a = false) ->
    fold_left (totalStep k) records acc = Some x ->
    Number.is_nan x = false.
Proof.
  induction records as [|e records IH]; simpl; intros Hf acc x Hacc E.
  - by apply Hacc.
  - apply Forall_cons_1 in Hf as [He Hf].
    apply (IH Hf _ x) in E; [exact E|].
    intros a Ha. unfold totalStep in Ha.
    destruct (str_eqb (category e) k); [|by apply Hacc].
    inversion Ha; subst. apply add_finite_number; [|exact He].
    destruct acc; [apply or_zero_number|reflexivity].
Qed.

(** With finite amounts no category total is NaN. *)
Lemma categoryTotal_number (records : list Expense) (k : JSString)
    (x : Number.t) :
  Forall (fun e => Number.is_finite (amount e) = true) records ->
  categoryTotal records k = Some x -> Number.is_nan x = false.
Proof.
  intros Hf E. apply (totalStep_number records k Hf None x); [|exact E].
  intros a Ha. discriminate.
Qed.

(* ===================================================================== *)
(** ** Lemmas: objects and the category totals *)
(* ===================================================================== *)

Lemma own_set_own (o : JSObject) (k k' : JSString) (v : Number.t) :
  own (set_own o k v) k' = if str_eqb k k' then Some v else own o k'.
Proof.
  induction o as [|[k0 v0] o IH]; simpl; [reflexivity|].
  destruct (str_eqb k0 k) eqn:E0; simpl.
  - apply str_eqb_eq in E0. subst k0.
    destruct (str_eqb k k'); reflexivity.
  - rewrite IH. destruct (str_eqb k0 k') eqn:E1; [|reflexivity].
    apply str_eqb_eq in E1. subst k'.
    destruct (str_eqb k k0) eqn:E2; [|reflexivity].
    apply str_eqb_eq in E2. subst k0. by rewrite str_eqb_refl in E0.
Qed.

Lemma own_In (o : JSObject) (k : JSString) :
  In k (List.map fst o) <-> is_Some (own o k).
Proof.
  induction o as [|[k0 v0] o IH]; simpl.
  - split; [tauto|]. intros [x Hx]. discriminate.
  - destruct (str_eqb k0 k) eqn:E0.
    + apply str_eqb_eq in E0. split; [by eexists|auto].
    + apply str_eqb_neq in E0. rewrite <- IH. tauto.
Qed.

Lemma filter_partition_perm {A} (p : A -> bool) (l : list A) :
  Permutation (List.filter p l ++ List.filter (fun x => negb (p x)) l) l.
Proof.
  induction l as [|x l IH]; simpl; [reflexivity|].
  destruct (p x); simpl.
  - by constructor.
  - rewrite <- Permutation_middle. by constructor.
Qed.

Lemma Object_keys_perm (o : JSObject) :
  Permutation (Object_keys o) (List.map fst o).
Proof.
  unfold Object_keys. apply Permutation_map.
  rewrite sorted_by_perm. apply filter_partition_perm.
Qed.

Lemma Object_keys_In (o : JSObject) (k : JSString) :
  In k (Object_keys o) <-> is_Some (own o k).
Proof.
  rewrite <- own_In. split; apply Permutation_in;
    [apply Object_keys_perm | symmetry; apply Object_keys_perm].
Qed.

Lemma categoryStep_own (o o' : JSObject) (e : Expense) (k : JSString) :
  categoryStep o e = Some o' -> own o' k = totalStep k (own o k) e.
Proof.
  unfold categoryStep, totalStep. intros E.
  destruct (own o (category e)) as [v|] eqn:Ev.
  - inversion E; subst. rewrite own_set_own.
    destruct (str_eqb (category e) k) eqn:Ek; [|reflexivity].
    apply str_eqb_eq in Ek. subst k. by rewrite Ev.
  - destruct (inherited (category e)); [discriminate|].
    inversion E; subst. rewrite own_set_own.
    destruct (str_eqb (category e) k) eqn:Ek; [|reflexivity].
    apply str_eqb_eq in Ek. subst k. by rewrite Ev.
Qed.

Lemma categoryStep_Some (o : JSObject) (e : Expense) :
  inherited (category e) = false -> is_Some (categoryStep o e).
Proof.
  unfold categoryStep. intros ->. destruct (own o (category e)); by eexists.
Qed.

Lemma category_fold_own (records : list Expense) (k : JSString) :
  forall o o',
    fold_left
      (fun acc exp =>
         match acc with Some o => categoryStep o exp | None => None end)
      records (Some o) = Some o' ->
    own o' k = fold_left (totalStep k) records (own o k).
Proof.
  induction records as [|e records IH]; simpl; intros o o' E.
  - by inversion E.
  - destruct (categoryStep o e) as [o1|] eqn:E1.
    + rewrite (IH o1 o' E). by rewrite (categoryStep_own o o1 e k E1).
    + exfalso. clear -E. induction records; simpl in E; [discriminate|auto].
Qed.

Lemma category_fold_Some (records : list Expense) :
  Forall (fun e => inherited (category e) = false) records ->
  forall o, is_Some
    (fold_left
       (fun acc exp =>
          match acc with Some o => categoryStep o exp | None => None end)
       records (Some o)).
Proof.
  induction records as [|e records IH]; simpl; intros Hr o.
  - by eexists.
  - apply Forall_cons_1 in Hr as [He Hr].
    destruct (categoryStep_Some o e He) as [o1 ->]. by apply IH.
Qed.

Lemma totalStep_Some (records : list Expense) (k : JSString) (x : Number.t) :
  is_Some (fold_left (totalStep k) records (Some x)).
Proof.
  revert x. induction records as [|e records IH]; simpl; intros x.
  - by eexists.
  - unfold totalStep at 2. destruct (str_eqb (category e) k); apply IH.
Qed.

(** A category has a total exactly when a record has it. *)
Lemma categoryTotal_Some (records : list Expense) (k : JSString) :
  is_Some (categoryTotal records k) <->
  exists e, In e records /\ category e = k.
Proof.
  unfold categoryTotal. induction records as [|e records IH]; simpl.
  - split; [intros [x Hx]; discriminate|intros (e & [] & _)].
  - unfold totalStep at 2. destruct (str_eqb (category e) k) eqn:Ek.
    + apply str_eqb_eq in Ek. split; [eauto|].
      intros _. apply totalStep_Some.
    + apply str_eqb_neq in Ek. rewrite IH. split.
      * intros (e' & He' & Hk). eauto.
      * intros (e' & [<-|He'] & Hk); [contradiction|eauto].
Qed.

(* ===================================================================== *)
(** ** Lemmas: the reduce that picks the highest category *)
(* ===================================================================== *)

Section Pick.
Context {A : Type} (gt : A -> A -> bool) (P : A -> Prop).
Context (le_trans : forall a b c, P a -> P b -> P c ->
           gt a b = false -> gt b c = false -> gt a c = false).
Context (lt_le_trans : forall a b c, P a -> P b -> P c ->
           gt b a = true -> gt b c = false -> gt a c = false).

(** The element the reduce holds is not below any element before it and is
    above every element after it. *)
Lemma fold_pick (l : list A) :
  forall pre a post,
    Forall P (pre ++ a :: post ++ l) ->
    (forall k, In k pre -> gt k a = false) ->
    (forall k, In k post -> gt a k = true) ->
    exists before after,
      pre ++ a :: post ++ l = before ++ fold_left (pick gt) l a :: after /\
      (forall k, In k before -> gt k (fold_left (pick gt) l a) = false) /\
      (forall k, In k after -> gt (fold_left (pick gt) l a) k = true).
Proof using le_trans lt_le_trans.
  induction l as [|b l IH]; intros pre a post HP Hpre Hpost.
  - exists pre, post. rewrite app_nil_r. auto.
  - simpl.
    assert (Ep : pick gt a b = if gt a b then a else b) by reflexivity.
    destruct (gt a b) eqn:Eab; rewrite Ep.
    + replace (pre ++ a :: post ++ b :: l)
        with (pre ++ a :: (post ++ [b]) ++ l)
        by (by rewrite <- app_assoc).
      apply IH.
      * by rewrite <- app_assoc.
      * exact Hpre.
      * intros k Hk. apply in_app_or in Hk as [Hk|[<-|[]]]; auto.
    + replace (pre ++ a :: post ++ b :: l)
        with ((pre ++ a :: post) ++ b :: [] ++ l)
        by (by rewrite <- app_assoc).
      assert (HP' : Forall P ((pre ++ a :: post) ++ b :: [] ++ l))
        by (by rewrite <- app_assoc).
      apply IH; [exact HP'| |intros k []].
      rewrite List.Forall_forall in HP.
      assert (Pa : P a) by (apply HP; rewrite in_app_iff; simpl; auto).
      assert (Pb : P b).
      { apply HP. rewrite in_app_iff. simpl. rewrite in_app_iff. simpl. auto. }
      intros k Hk. apply in_app_or in Hk as [Hk|[<-|Hk]].
      * apply (le_trans k a b); auto.
        apply HP. rewrite in_app_iff. auto.
      * exact Eab.
      * apply (lt_le_trans k a b); auto.
        apply HP. rewrite in_app_iff. simpl. rewrite in_app_iff. auto.
Qed.

End Pick.

Lemma spends_gt_le_trans (o : JSObject) (a b c : JSString) :
  counted o a -> counted o b -> counted o c ->
  spends_gt o a b = false -> spends_gt o b c = false -> spends_gt o a c = false.
Proof.
  unfold spends_gt. intros (x & -> & Hx) (y & -> & Hy) (z & -> & Hz).
  by apply gt_false_trans.
Qed.

Lemma spends_gt_lt_le_trans (o : JSObject) (a b c : JSString) :
  counted o a -> counted o b -> counted o c ->
  spends_gt o b a = true -> spends_gt o b c = false -> spends_gt o a c = false.
Proof.
  unfold spends_gt. intros (x & -> & Hx) (y & -> & Hy) (z & -> & Hz).
  by apply lt_gt_false_trans.
Qed.

(** The highest category is a key; no key before it has a greater total
    and every key after it has a smaller one. *)
Lemma highestCategory_spec (o : JSObject) :
  Object_keys o <> [] ->
  (forall k x, own o k = Some x -> Number.is_nan x = false) ->
  exists before after,
    Object_keys o = before ++ highestCategory o :: after /\
    (forall k, In k before -> spends_gt o k (highestCategory o) = false) /\
    (forall k, In k after -> spends_gt o (highestCategory o) k = true).
Proof.
  intros Hne Hnan.
  assert (Hkeys : Forall (counted o) (Object_keys o)).
  { rewrite List.Forall_forall. intros k Hk.
    apply Object_keys_In in Hk as [x Hx]. exists x. eauto. }
  unfold highestCategory.
  change (fun a b => if spends_gt o a b then a else b) with (pick (spends_gt o)).
  destruct (own o (js "-")) as [d|] eqn:Ed.
  - assert (Pd : counted o (js "-")) by (exists d; eauto).
    destruct (fold_pick (spends_gt o) (counted o)
                (spends_gt_le_trans o) (spends_gt_lt_le_trans o)
                (Object_keys o) [] (js "-") [])
      as (before & after & E & Hb & Ha).
    + simpl. by constructor.
    + intros k [].
    + intros k [].
    + simpl in E. destruct before as [|b0 before].
      * exfalso. simpl in E. inversion E as [[E1 E2]].
        assert (Hin : In (js "-") after).
        { rewrite <- E2. apply Object_keys_In. by eexists. }
        apply Ha in Hin. rewrite <- E1 in Hin.
        unfold spends_gt in Hin. rewrite Ed in Hin.
        by rewrite gt_irrefl in Hin.
      * simpl in E. inversion E as [[E1 E2]].
        exists before, after. split; [exact E2|].
        split; [|exact Ha]. intros k Hk. apply Hb. by right.
  - destruct (Object_keys o) as [|k1 keys] eqn:Ek; [contradiction|].
    simpl.
    replace (pick (spends_gt o) (js "-") k1) with k1
      by (unfold pick, spends_gt; by rewrite Ed).
    destruct (fold_pick (spends_gt o) (counted o)
                (spends_gt_le_trans o) (spends_gt_lt_le_trans o)
                keys [] k1 [])
      as (before & after & E & Hb & Ha).
    + exact Hkeys.
    + intros k [].
    + intros k [].
    + exists before, after. auto.
Qed.

Lemma set_own_keys (o : JSObject) (k : JSString) (v : Number.t) :
  List.map fst (set_own o k v)
  = if existsb (str_eqb k) (List.map fst o) then List.map fst o
    else List.map fst o ++ [k].
Proof.
  induction o as [|[k0 v0] o IH]; simpl; [reflexivity|].
  destruct (str_eqb k0 k) eqn:E0; simpl.
  - apply str_eqb_eq in E0. subst k0. by rewrite str_eqb_refl.
  - rewrite IH.
    destruct (str_eqb k k0) eqn:E1.
    + apply str_eqb_eq in E1. subst k0. by rewrite str_eqb_refl in E0.
    + simpl. by destruct (existsb (str_eqb k) (List.map fst o)).
Qed.

Lemma categoryStep_keys (o o' : JSObject) (e : Expense) :
  categoryStep o e = Some o' ->
  List.map fst o'
  = if existsb (str_eqb (category e)) (List.map fst o) then List.map fst o
    else List.map fst o ++ [category e].
Proof.
  unfold categoryStep. intros E.
  destruct (own o (category e)).
  - inversion E. apply set_own_keys.
  - destruct (inherited (category e)); [discriminate|].
    inversion E. apply set_own_keys.
Qed.

Lemma distinct_ext (l seen seen' : list JSString) :
  (forall c, existsb (str_eqb c) seen = existsb (str_eqb c) seen') ->
  distinct seen l = distinct seen' l.
Proof.
  revert seen seen'. induction l as [|c l IH]; simpl; intros seen seen' H;
    [reflexivity|].
  rewrite <- (H c). destruct (existsb (str_eqb c) seen); [by apply IH|].
  f_equal. apply IH. intros c'. simpl. by rewrite (H c').
Qed.

Lemma existsb_app_single (k c : JSString) (l : list JSString) :
  existsb (str_eqb c) (l ++ [k]) = existsb (str_eqb c) (k :: l).
Proof.
  rewrite existsb_app. simpl. rewrite orb_false_r. apply orb_comm.
Qed.

(** The keys are created in the order the categories are first seen. *)
Lemma category_fold_keys (records : list Expense) :
  forall o o',
    fold_left
      (fun acc exp =>
         match acc with Some o => categoryStep o exp | None => None end)
      records (Some o) = Some o' ->
    List.map fst o'
    = List.map fst o ++ distinct (List.map fst o) (List.map category records).
Proof.
  induction records as [|e records IH]; simpl; intros o o' E.
  - inversion E. by rewrite app_nil_r.
  - destruct (categoryStep o e) as [o1|] eqn:E1.
    + rewrite (IH o1 o' E), (categoryStep_keys o o1 e E1).
      destruct (existsb (str_eqb (category e)) (List.map fst o)); [reflexivity|].
      rewrite <- app_assoc. simpl. do 2 f_equal.
      apply distinct_ext. intros c. apply existsb_app_single.
    + exfalso. clear -E. induction records; simpl in E; [discriminate|auto].
Qed.

(* ===================================================================== *)
(** ** Theorems: the insights *)
(* ===================================================================== *)

(** C3, as the code has it.  For records, one at least, with finite amounts
    and none in a category named like a property of [Object.prototype]:
    the category shown is a key of the totals; the keys are the categories
    of the records, in the order [Object.keys] lists them (array indices
    ascending, then first seen first); no key before the one shown has a
    greater total, and every key after it has a smaller total.  Among the
    categories with the greatest total the last one is shown. *)
Theorem highestCategory_last_maximum (h : Host) (records : list Expense) :
  records <> [] ->
  Forall (fun e => inherited (category e) = false) records ->
  Forall (fun e => Number.is_finite (amount e) = true) records ->
  exists panel spends before after top,
    updateInsights h records = Some panel /\
    highestCategoryEl panel = top /\
    categorySpends records = Some spends /\
    (forall k, own spends k = categoryTotal records k) /\
    List.map fst spends = distinct [] (List.map category records) /\
    Object_keys spends = before ++ top :: after /\
    exists t,
      categoryTotal records top = Some t /\
      (forall k x, In k before -> categoryTotal records k = Some x ->
         Number.gt x t = false) /\
      (forall k x, In k after -> categoryTotal records k = Some x ->
         Number.gt t x = true).
Proof.
  intros Hne Hin Hfin.
  assert (Hnan : forall k x, categoryTotal records k = Some x ->
                   Number.is_nan x = false)
    by (intros k x; by apply categoryTotal_number).
  destruct (category_fold_Some records Hin []) as [spends Es].
  assert (Hown : forall k, own spends k = categoryTotal records k)
    by (intros k; apply (category_fold_own records k [] spends Es)).
  assert (Hkeys : Object_keys spends <> []).
  { destruct records as [|e records]; [contradiction|].
    assert (Hk : In (category e) (Object_keys spends)).
    { apply Object_keys_In. rewrite Hown. apply categoryTotal_Some.
      exists e. simpl. auto. }
    intros E. by rewrite E in Hk. }
  destruct (highestCategory_spec spends Hkeys) as (before & after & E & Hb & Ha).
  { intros k x Hx. apply (Hnan k). by rewrite <- Hown. }
  assert (Htop : is_Some (own spends (highestCategory spends))).
  { apply Object_keys_In. rewrite E. rewrite in_app_iff. simpl. auto. }
  destruct Htop as [t Ht].
  eexists _, spends, before, after, (highestCategory spends).
  split.
  { unfold updateInsights. destruct records; [contradiction|].
    fold (categorySpends (e :: records)) in Es. rewrite Es. reflexivity. }
  split; [reflexivity|]. split; [exact Es|]. split; [exact Hown|].
  split; [apply (category_fold_keys records [] spends Es)|].
  split; [exact E|].
  exists t. split; [by rewrite <- Hown|]. split.
  - intros k x Hk Hx. specialize (Hb k Hk). unfold spends_gt in Hb.
    rewrite Hown, Hx in Hb. rewrite Ht in Hb. exact Hb.
  - intros k x Hk Hx. specialize (Ha k Hk). unfold spends_gt in Ha.
    rewrite Ht in Ha. rewrite Hown, Hx in Ha. exact Ha.
Qed.

Lemma highestCategory_last_maximum_witness :
  exists panel spends before after top,
    updateInsights host0 ledger0 = Some panel /\
    highestCategoryEl panel = top /\
    categorySpends ledger0 = Some spends /\
    (forall k, own spends k = categoryTotal ledger0 k) /\
    List.map fst spends = distinct [] (List.map category ledger0) /\
    Object_keys spends = before ++ top :: after /\
    exists t,
      categoryTotal ledger0 top = Some t /\
      (forall k x, In k before -> categoryTotal ledger0 k = Some x ->
         Number.gt x t = false) /\
      (forall k x, In k after -> categoryTotal ledger0 k = Some x ->
         Number.gt t x = true).
Proof.
  apply (highestCategory_last_maximum host0 ledger0).
  - discriminate.
  - repeat constructor.
  - repeat constructor.
Defined.

(** C3, as the specification has it, fails: of two categories with the
    same total the first in iteration order is not the one shown. *)
Lemma highestCategory_tie_takes_last :
  exists spends,
    categorySpends [food10; rent10] = Some spends /\
    Object_keys spends = [js "Food"; js "Rent"] /\
    own spends (js "Food") = Some (Number.of_Z 10) /\
    own spends (js "Rent") = Some (Number.of_Z 10) /\
    highestCategory spends = js "Rent" /\
    highestCategory spends <> js "Food" /\
    option_map highestCategoryEl (updateInsights host0 [food10; rent10])
    = Some (js "Rent").
Proof.
  eexists. split; [reflexivity|]. vm_compute. repeat split. discriminate.
Qed.

(* ===================================================================== *)
(** ** Lemmas: the first and the last date *)
(* ===================================================================== *)

Section Extreme.
Context (pick : Z -> Z -> Z) (R : Z -> Z -> Prop).
Context (pick_one : forall a b, pick a b = a \/ pick a b = b).
Context (pick_l : forall a b, R (pick a b) a).
Context (pick_r : forall a b, R (pick a b) b).
Context (R_trans : forall a b c, R a b -> R b c -> R a c).

Lemma extreme_fold (ds : list (option Z)) :
  forall a, Forall is_Some ds ->
  exists m,
    fold_left
      (fun acc d' =>
         match acc, d' with
         | Some a, Some b => Some (pick a b)
         | _, _ => None
         end) ds (Some a) = Some m /\
    (m = a \/ In (Some m) ds) /\ R m a /\
    forall t, In (Some t) ds -> R m t.
Proof using pick_one pick_l pick_r R_trans.
  induction ds as [|d ds IH]; simpl; intros a Hd.
  - exists a. repeat split; auto.
    + destruct (pick_one a a) as [E|E]; rewrite <- E at 1; apply pick_l.
    + intros t [].
  - apply Forall_cons_1 in Hd as [[b ->] Hd].
    destruct (IH (pick a b) Hd) as (m & E & Hm & Hma & Hall).
    exists m. split; [exact E|]. split; [|split].
    + destruct Hm as [->|Hm]; [|auto].
      destruct (pick_one a b) as [->| ->]; auto.
    + apply (R_trans _ _ _ Hma), pick_l.
    + intros t [Ht|Ht]; [|auto]. inversion Ht; subst.
      apply (R_trans _ _ _ Hma), pick_r.
Qed.

Lemma extreme_spec (ds : list (option Z)) :
  ds <> [] -> Forall is_Some ds ->
  exists m, extreme pick ds = Some m /\ In (Some m) ds /\
    forall t, In (Some t) ds -> R m t.
Proof using pick_one pick_l pick_r R_trans.
  destruct ds as [|d ds]; [contradiction|]. intros _ Hd.
  apply Forall_cons_1 in Hd as [[a ->] Hd]. simpl.
  destruct (extreme_fold ds a Hd) as (m & E & Hm & Hma & Hall).
  exists m. split; [exact E|]. split.
  - destruct Hm as [->|Hm]; auto.
  - intros t [Ht|Ht]; [by inversion Ht; subst|auto].
Qed.

End Extreme.

Lemma firstDate_spec (h : Host) (records : list Expense) :
  records <> [] -> Forall (dated h) records ->
  exists first,
    firstDate h records = Some first /\
    (exists e, In e records /\ timeOf h e = Some first) /\
    forall e t, In e records -> timeOf h e = Some t -> first <= t.
Proof.
  intros Hne Hd.
  destruct (extreme_spec Z.min Z.le) with
    (ds := List.map (fun e => newDate h (date e)) records)
    as (m & E & Hin & Hall).
  - intros a b. lia.
  - intros a b. lia.
  - intros a b. lia.
  - intros a b c. lia.
  - destruct records; [contradiction|discriminate].
  - rewrite List.Forall_forall in *. intros d Hin.
    apply in_map_iff in Hin as (e & <- & He). by apply Hd.
  - exists m. split; [exact E|]. split.
    + apply in_map_iff in Hin as (e & He & Hin). by exists e.
    + intros e t He Ht. apply Hall. apply in_map_iff. by exists e.
Qed.

Lemma lastDate_spec (h : Host) (records : list Expense) :
  records <> [] -> Forall (dated h) records ->
  exists last,
    lastDate h records = Some last /\
    (exists e, In e records /\ timeOf h e = Some last) /\
    forall e t, In e records -> timeOf h e = Some t -> t <= last.
Proof.
  intros Hne Hd.
  destruct (extreme_spec Z.max (fun a b => b <= a)) with
    (ds := List.map (fun e => newDate h (date e)) records)
    as (m & E & Hin & Hall).
  - intros a b. lia.
  - intros a b. lia.
  - intros a b. lia.
  - intros a b c. lia.
  - destruct records; [contradiction|discriminate].
  - rewrite List.Forall_forall in *. intros d Hin.
    apply in_map_iff in Hin as (e & <- & He). by apply Hd.
  - exists m. split; [exact E|]. split.
    + apply in_map_iff in Hin as (e & He & Hin). by exists e.
    + intros e t He Ht. apply Hall. apply in_map_iff. by exists e.
Qed.

(** C5.  For records, one at least, all with a valid date: the weekly
    average is the total divided by the week span, and the week span is the
    time from the earliest to the latest date divided by seven days, plus
    one.  When all records have one date the span is 1, not zero.  On the
    example of the specification the panel shows the total [150.00], the
    category [Food] and the average [75.00], and the span is 2. *)
Theorem avgWeeklySpend_spec :
  (forall (h : Host) (records : list Expense),
     records <> [] -> Forall (dated h) records ->
     exists first last,
       (exists e, In e records /\ timeOf h e = Some first) /\
       (exists e, In e records /\ timeOf h e = Some last) /\
       (forall e t, In e records -> timeOf h e = Some t -> first <= t <= last) /\
       weeks h records
       = Number.add
           (Number.div (Number.of_Z (last - first))
              (Number.of_Z (7 * Date.msPerDay)))
           (Number.of_Z 1) /\
       avgWeeklySpend h records
       = Number.div (totalSpend records) (weeks h records) /\
       (first = last ->
        weeks h records = Number.of_Z 1 /\
        Number.is_zero (weeks h records) = false) /\
       forall panel, updateInsights h records = Some panel ->
         avgSpendEl panel = toFixed2 h (avgWeeklySpend h records)) /\
  (forall h : Host,
     totalSpend example = Number.of_Z 150 /\
     weeks h example = Number.of_Z 2 /\
     avgWeeklySpend h example = Number.of_Z 75 /\
     updateInsights h example
     = Some {| totalSpendEl := js "150.00";
               highestCategoryEl := js "Food";
               avgSpendEl := js "75.00";
               suggestionEl :=
                 js "You're spending the most on Food. Consider reviewing this category." |}).
Proof.
  split.
  - intros h records Hne Hd.
    destruct (firstDate_spec h records Hne Hd) as (first & Ef & Hf & Hfl).
    destruct (lastDate_spec h records Hne Hd) as (last & El & Hl & Hll).
    exists first, last. split; [exact Hf|]. split; [exact Hl|].
    split; [intros e t He Ht; split; eauto|].
    assert (Ew : weeks h records
                 = Number.add
                     (Number.div (Number.of_Z (last - first))
                        (Number.of_Z (7 * Date.msPerDay)))
                     (Number.of_Z 1))
      by (unfold weeks; rewrite Ef, El; reflexivity).
    split; [exact Ew|]. split; [reflexivity|]. split.
    + intros ->. rewrite Ew, Z.sub_diag. split; reflexivity.
    + intros panel Ep. unfold updateInsights in Ep.
      destruct records; [contradiction|].
      destruct (categorySpends (e :: records)); [|discriminate].
      inversion Ep. reflexivity.
  - intros h. repeat split; vm_compute; reflexivity.
Qed.

Lemma avgWeeklySpend_spec_witness :
  exists first last,
    (exists e, In e ledger0 /\ timeOf host0 e = Some first) /\
    (exists e, In e ledger0 /\ timeOf host0 e = Some last) /\
    (forall e t, In e ledger0 -> timeOf host0 e = Some t -> first <= t <= last) /\
    weeks host0 ledger0
    = Number.add
        (Number.div (Number.of_Z (last - first))
           (Number.of_Z (7 * Date.msPerDay)))
        (Number.of_Z 1) /\
    avgWeeklySpend host0 ledger0
    = Number.div (totalSpend ledger0) (weeks host0 ledger0) /\
    (first = last ->
     weeks host0 ledger0 = Number.of_Z 1 /\
     Number.is_zero (weeks host0 ledger0) = false) /\
    forall panel, updateInsights host0 ledger0 = Some panel ->
      avgSpendEl panel = toFixed2 host0 (avgWeeklySpend host0 ledger0).
Proof.
  apply (proj1 avgWeeklySpend_spec host0 ledger0).
  - discriminate.
  - repeat constructor; eexists; vm_compute; reflexivity.
Defined.

(** Every whole number up to [2^53] in magnitude has a 53-bit mantissa. *)
Lemma whole_canonical (z : Z) :
  0 < z <= 2 ^ 53 ->
  exists c ec,
    Zpos (digits2_pos c) = 53 /\ -52 <= ec <= 1 /\
    z * 2 ^ 1074 = Zpos c * 2 ^ (ec + 1074).
Proof.
  intros Hz. destruct (Z.eq_dec z (2 ^ 53)) as [->|Hne].
  - exists (2 ^ 52)%positive, 1.
    repeat split; first [lia | vm_compute; reflexivity | discriminate].
  - assert (Hl : 0 <= Z.log2 z < 53).
    { split; [apply Z.log2_nonneg|apply Z.log2_lt_pow2; lia]. }
    set (d := Z.log2 z + 1) in *.
    assert (Hc : 0 < z * 2 ^ (53 - d))
      by (apply Z.mul_pos_pos; [lia|apply Z.pow_pos_nonneg; lia]).
    destruct (z * 2 ^ (53 - d)) as [|c|c] eqn:Ec; try lia.
    exists c, (d - 53). split; [|split; [lia|]].
    + rewrite digits2_log2, <- Ec, Z.log2_mul_pow2 by lia. lia.
    + rewrite <- Ec, <- Z.mul_assoc, <- Z.pow_add_r by lia.
      f_equal. f_equal. lia.
Qed.

(** Normalizing a value that is a whole number [z] up to [2^53] in
    magnitude, however it is written as mantissa and exponent, gives the
    Number of [z]. *)
Lemma normalize_whole (M ez z : Z) (c : positive) (ec : Z) :
  z <> 0 -> -1074 <= ez ->
  M * 2 ^ (ez + 1074) = z * 2 ^ 1074 ->
  Zpos (digits2_pos c) = 53 -> -1074 <= ec <= 971 ->
  Z.abs z * 2 ^ 1074 = Zpos c * 2 ^ (ec + 1074) ->
  binary_normalize 53 1024 M ez false = S754_finite (z <? 0) c ec.
Proof.
  intros Hz Hez HM Hd Hec Hc.
  assert (Hp : 0 < 2 ^ (ez + 1074)) by (apply Z.pow_pos_nonneg; lia).
  assert (Hq : 0 < 2 ^ 1074) by (apply Z.pow_pos_nonneg; lia).
  unfold binary_normalize. destruct M as [|m|m].
  - exfalso. simpl in HM. symmetry in HM.
    apply Z.mul_eq_0 in HM as [HM|HM]; lia.
  - assert (0 < z) by (apply (Z.mul_pos_cancel_r _ (2 ^ 1074) Hq); lia).
    replace (z <? 0) with false by (symmetry; apply Z.ltb_ge; lia).
    apply binary_round_exact; try assumption.
    rewrite HM, <- Hc. f_equal. lia.
  - assert (z < 0).
    { destruct (Z.lt_trichotomy z 0) as [Hlt|[Heq|Hgt]]; [exact Hlt|lia|].
      assert (0 < z * 2 ^ 1074) by (by apply Z.mul_pos_pos).
      assert (Z.neg m * 2 ^ (ez + 1074) < 0)
        by (apply Z.mul_neg_pos; [lia|exact Hp]).
      lia. }
    replace (z <? 0) with true by (symmetry; apply Z.ltb_lt; lia).
    apply binary_round_exact; try assumption.
    rewrite <- Hc. replace (Z.abs z) with (- z) by lia.
    rewrite Z.mul_opp_l, <- HM. lia.
Qed.

Lemma of_Z_whole (z : Z) (c : positive) (ec : Z) :
  z <> 0 ->
  Zpos (digits2_pos c) = 53 -> -1074 <= ec <= 971 ->
  Z.abs z * 2 ^ 1074 = Zpos c * 2 ^ (ec + 1074) ->
  Number.of_Z z = S754_finite (z <? 0) c ec.
Proof.
  intros Hz Hd Hec Hc. unfold Number.of_Z.
  apply (normalize_whole z 0 z c ec); try assumption; lia.
Qed.

Lemma shl_align_value (c : positive) (e ez : Z) :
  ez <= e ->
  Zpos (fst (shl_align c e ez)) = Zpos c * 2 ^ (e - ez).
Proof.
  intros H. unfold shl_align.
  destruct (ez - e) as [|d|d] eqn:Ed; simpl fst.
  - replace (e - ez) with 0 by lia. lia.
  - lia.
  - rewrite iter_xO. f_equal. f_equal. lia.
Qed.

Lemma cond_Zopp_abs (z : Z) : cond_Zopp (z <? 0) (Z.abs z) = z.
Proof. unfold cond_Zopp. destruct (Z.ltb_spec z 0); lia. Qed.

(** The sum of two whole Numbers is exact while the magnitudes add up to
    [2^53] at most. *)
Lemma add_of_Z (a b : Z) :
  Z.abs a + Z.abs b <= 2 ^ 53 ->
  Number.add (Number.of_Z a) (Number.of_Z b) = Number.of_Z (a + b).
Proof.
  intros Hab.
  destruct (Z.eq_dec a 0) as [->|Ha].
  { destruct (Z.eq_dec b 0) as [->|Hb]; [reflexivity|].
    destruct (whole_canonical (Z.abs b)) as (c & ec & Hd & Hec & Hc); [lia|].
    rewrite Z.add_0_l.
    rewrite (of_Z_whole b c ec) by (assumption || lia). reflexivity. }
  destruct (Z.eq_dec b 0) as [->|Hb].
  { rewrite Z.add_0_r.
    destruct (whole_canonical (Z.abs a)) as (c & ec & Hd & Hec & Hc); [lia|].
    rewrite (of_Z_whole a c ec) by (assumption || lia). reflexivity. }
  destruct (whole_canonical (Z.abs a)) as (ca & ea & Hda & Hea & Hca); [lia|].
  destruct (whole_canonical (Z.abs b)) as (cb & eb & Hdb & Heb & Hcb); [lia|].
  rewrite (of_Z_whole a ca ea), (of_Z_whole b cb eb) by (assumption || lia).
  unfold Number.add, SFadd.
  set (ez := Z.min ea eb).
  set (M := cond_Zopp (a <? 0) (Zpos (fst (shl_align ca ea ez)))
            + cond_Zopp (b <? 0) (Zpos (fst (shl_align cb eb ez)))).
  assert (HM : M * 2 ^ (ez + 1074) = (a + b) * 2 ^ 1074).
  { unfold M. rewrite !shl_align_value by lia.
    rewrite Z.mul_add_distr_r.
    assert (Ea : cond_Zopp (a <? 0) (Zpos ca * 2 ^ (ea - ez)) * 2 ^ (ez + 1074)
                 = a * 2 ^ 1074).
    { replace (a * 2 ^ 1074)
        with (cond_Zopp (a <? 0) (Z.abs a * 2 ^ 1074))
        by (rewrite <- (cond_Zopp_abs a) at 3; unfold cond_Zopp;
            destruct (a <? 0); lia).
      rewrite Hca. replace (ea + 1074) with ((ea - ez) + (ez + 1074)) by lia.
      rewrite (Z.pow_add_r 2 (ea - ez) (ez + 1074)) by lia.
      unfold cond_Zopp. destruct (a <? 0); lia. }
    assert (Eb : cond_Zopp (b <? 0) (Zpos cb * 2 ^ (eb - ez)) * 2 ^ (ez + 1074)
                 = b * 2 ^ 1074).
    { replace (b * 2 ^ 1074)
        with (cond_Zopp (b <? 0) (Z.abs b * 2 ^ 1074))
        by (rewrite <- (cond_Zopp_abs b) at 3; unfold cond_Zopp;
            destruct (b <? 0); lia).
      rewrite Hcb. replace (eb + 1074) with ((eb - ez) + (ez + 1074)) by lia.
      rewrite (Z.pow_add_r 2 (eb - ez) (ez + 1074)) by lia.
      unfold cond_Zopp. destruct (b <? 0); lia. }
    rewrite Ea, Eb. lia. }
  clearbody M.
  destruct (Z.eq_dec (a + b) 0) as [E0|Hne].
  - rewrite E0 in *. simpl in HM.
    apply Z.mul_eq_0 in HM as [->|HM]; [reflexivity|].
    exfalso. revert HM. apply Z.pow_nonzero; lia.
  - destruct (whole_canonical (Z.abs (a + b))) as (c & ec & Hd & Hec & Hc);
      [lia|].
    rewrite (of_Z_whole (a + b) c ec) by (assumption || lia).
    apply (normalize_whole M ez (a + b) c ec); try assumption; lia.
Qed.

Lemma magnitudeOf_nonneg (records : list Expense) : 0 <= magnitudeOf records.
Proof. induction records; simpl; lia. Qed.

Lemma sumOf_bound (records : list Expense) :
  Z.abs (sumOf records) <= magnitudeOf records.
Proof. induction records; simpl; lia. Qed.

Lemma fold_add_whole (records : list Expense) :
  forall a,
    Forall whole records ->
    Z.abs a + magnitudeOf records <= 2 ^ 53 ->
    fold_left (fun sum exp => Number.add sum (amount exp)) records
      (Number.of_Z a)
    = Number.of_Z (a + sumOf records).
Proof.
  induction records as [|e records IH]; simpl; intros a Hw Hb.
  - by rewrite Z.add_0_r.
  - apply Forall_cons_1 in Hw as [He Hw].
    pose proof (magnitudeOf_nonneg records).
    unfold whole in He. set (z := Number.to_Z (amount e)) in *.
    rewrite He, add_of_Z by lia.
    rewrite IH by (assumption || lia). f_equal. lia.
Qed.

Lemma sumOf_perm (l l' : list Expense) :
  Permutation l l' -> sumOf l = sumOf l' /\ magnitudeOf l = magnitudeOf l'.
Proof. induction 1; simpl; intuition lia. Qed.

(* ===================================================================== *)
(** ** Theorems: the total *)
(* ===================================================================== *)

(** C7, as the code has it.  The total is the sum of the amounts taken
    from left to right in binary64 arithmetic, from [0].  For amounts that
    are whole numbers whose magnitudes add up to [2^53] at most, no
    addition rounds: the total is the arithmetic sum of the amounts, and
    it is the same for every permutation of the records. *)
Theorem totalSpend_whole (records : list Expense) :
  Forall whole records ->
  magnitudeOf records <= 2 ^ 53 ->
  totalSpend records = Number.of_Z (sumOf records) /\
  (forall records', Permutation records records' ->
     totalSpend records' = totalSpend records) /\
  (forall records' e,
     totalSpend (records' ++ [e])
     = Number.add (totalSpend records') (amount e)).
Proof.
  intros Hw Hb.
  assert (Hsum : forall l, Forall whole l -> magnitudeOf l <= 2 ^ 53 ->
                   totalSpend l = Number.of_Z (sumOf l)).
  { intros l Hl Hm. unfold totalSpend.
    change Number.zero with (Number.of_Z 0).
    rewrite fold_add_whole by (assumption || lia). reflexivity. }
  split; [by apply Hsum|]. split.
  - intros records' Hp.
    destruct (sumOf_perm records records' Hp) as [Es Em].
    rewrite (Hsum records Hw Hb), Es. apply Hsum.
    + rewrite List.Forall_forall in *. intros e He. apply Hw.
      by apply (Permutation_in _ (Permutation_sym Hp)).
    + by rewrite <- Em.
  - intros records' e. unfold totalSpend. by rewrite fold_left_app.
Qed.

Lemma totalSpend_whole_witness :
  totalSpend ledger0 = Number.of_Z (sumOf ledger0) /\
  (forall records', Permutation ledger0 records' ->
     totalSpend records' = totalSpend ledger0) /\
  (forall records' e,
     totalSpend (records' ++ [e])
     = Number.add (totalSpend records') (amount e)).
Proof.
  apply (totalSpend_whole ledger0).
  - repeat constructor.
  - vm_compute. discriminate.
Defined.

(** C7, as the specification has it, fails: the same three amounts give
    one total with the large amount first and another with it last, and
    the first is not their arithmetic sum. *)
Lemma totalSpend_depends_on_order :
  Permutation largeFirst largeLast /\
  sumOf largeFirst = 10000000000000002 /\
  totalSpend largeFirst = Number.of_Z 10000000000000000 /\
  totalSpend largeLast = Number.of_Z 10000000000000002 /\
  totalSpend largeFirst <> totalSpend largeLast /\
  option_map totalSpendEl (updateInsights host0 largeFirst)
  = Some (js "10000000000000000.00") /\
  option_map totalSpendEl (updateInsights host0 largeLast)
  = Some (js "10000000000000002.00").
Proof.
  split.
  { unfold largeFirst, largeLast.
    eapply perm_trans; [apply perm_swap|]. apply perm_skip, perm_swap. }
  repeat split; vm_compute; try reflexivity. discriminate.
Qed.

(* ===================================================================== *)
(** ** More on [applyFilters] and the submit handler *)
(* ===================================================================== *)

Lemma accepted_true (form : Form) :
  accepted form = true <->
  Number.truthy (Number.parseFloat (amountInput form)) = true /\
  dateInput form <> [] /\ categorySelect form <> [].
Proof.
  unfold accepted. rewrite !andb_true_iff, !negb_true_iff, !str_eqb_neq.
  tauto.
Qed.

Lemma accepted_false (form : Form) :
  accepted form = false <->
  Number.truthy (Number.parseFloat (amountInput form)) = false
  \/ dateInput form = [] \/ categorySelect form = [].
Proof.
  unfold accepted. rewrite !andb_false_iff, !negb_false_iff, !str_eqb_eq.
  tauto.
Qed.

(** What an accepted submission renders: the page [applyFilters] builds from
    the ledger with the new record, under the filter the selects held. *)
Lemma submit_renders (h : Host) (stringify : list Expense -> JSString)
    (clock : Clock) (form : Form) (s : State) (v : list Expense) :
  ledger s = Some v ->
  accepted form = true ->
  exists page s',
    submit h stringify clock form s = Some (Success page, s') /\
    tableRows page
    = sorted_by (byDateDesc h)
        (List.filter
           (keeps h (filterTime clock) (filterCategorySelect s)
              (filterTimeSelect s))
           (v ++ [newExpense clock form])) /\
    insightsPanel page = updateInsights h (tableRows page) /\
    ledger s' = Some (v ++ [newExpense clock form]) /\
    localStorage s'
    = <[js "expenses" := stringify (v ++ [newExpense clock form])]>
        (localStorage s).
Proof.
  intros Hv Ha. apply accepted_true in Ha as (Ht & Hd & Hc). unfold submit.
  rewrite Ht. apply str_eqb_neq in Hd, Hc. rewrite Hd, Hc. simpl.
  unfold ledger in Hv.
  unfold Array_push, mbind at 1, M_bind at 1, read, write. rewrite Hv.
  simpl. rewrite Hv.
  set (rec := {| id := idTime clock |}).
  change rec with (newExpense clock form). clear rec.
  set (v' := v ++ [newExpense clock form]).
  set (s0 := {| heap := <[expenses s := v']> (heap s) |}).
  assert (H0 : ledger s0 = Some v') by apply lookup_insert_eq.
  unfold saveExpenses. rewrite H0. simpl.
  set (s1 := {| heap := heap s0; expenses := expenses s0;
              localStorage := <[js "expenses" := stringify v']> (localStorage s0);
              filterCategorySelect := filterCategorySelect s0;
              filterTimeSelect := filterTimeSelect s0 |}).
  destruct (applyFilters_runs h (filterTime clock) s1 v' H0)
    as (page & s2 & E2 & Hrows & Hpanel & He & Hl & _ & _ & Hh).
  change (applyFilters h (filterTime clock) _) with
    (applyFilters h (filterTime clock) s1).
  rewrite E2. simpl.
  assert (H2 : ledger s2 = Some v').
  { unfold ledger. rewrite He. apply Hh. exact H0. }
  unfold populateFilterCategories. rewrite H2. simpl.
  eexists _, _. split; [reflexivity|]. simpl.
  repeat split; [exact Hrows | exact Hpanel | exact H2 | exact Hl].
Qed.

(** X1.  [applyFilters] (lines 225 to 258) shows each record of the ledger
    that passes the two filters as many times as the ledger holds it: the
    rows are a rearrangement of the records kept, none dropped and none
    shown twice. *)
Theorem applyFilters_rows_permutation (h : Host) (now : Z) (s : State)
    (v : list Expense) :
  ledger s = Some v ->
  exists page s',
    applyFilters h now s = Some (page, s') /\
    Permutation (tableRows page)
      (List.filter
         (keeps h now (filterCategorySelect s) (filterTimeSelect s)) v) /\
    (length (tableRows page) <= length v)%nat.
Proof.
  intros Hv.
  destruct (applyFilters_runs h now s v Hv) as (page & s' & E & Hrows & _).
  exists page, s'. split; [exact E|]. rewrite Hrows.
  split; [apply sorted_by_perm|].
  rewrite (Permutation_length (sorted_by_perm _ _)).
  apply List.filter_length_le.
Qed.

Lemma applyFilters_rows_permutation_witness :
  exists page s',
    applyFilters host0 now0 state0 = Some (page, s') /\
    Permutation (tableRows page)
      (List.filter
         (keeps host0 now0 (filterCategorySelect state0)
            (filterTimeSelect state0)) ledger0) /\
    (length (tableRows page) <= length ledger0)%nat.
Proof.
  apply (applyFilters_rows_permutation host0 now0 state0 ledger0).
  reflexivity.
Defined.

(** X2.  Calling [applyFilters] again at the same instant, with the selects
    and the ledger as they were, renders the same page: the arrays the first
    call made are not read by the second. *)
Theorem applyFilters_twice (h : Host) (now : Z) (s : State)
    (v : list Expense) :
  ledger s = Some v ->
  exists page s1 s2,
    applyFilters h now s = Some (page, s1) /\
    applyFilters h now s1 = Some (page, s2) /\
    ledger s2 = Some v.
Proof.
  intros Hv.
  destruct (applyFilters_runs h now s v Hv)
    as (p1 & s1 & E1 & R1 & I1 & He1 & _ & Hc1 & Ht1 & Hh1).
  assert (Hv1 : ledger s1 = Some v).
  { unfold ledger. rewrite He1. apply Hh1. exact Hv. }
  destruct (applyFilters_runs h now s1 v Hv1)
    as (p2 & s2 & E2 & R2 & I2 & He2 & _ & _ & _ & Hh2).
  exists p1, s1, s2. split; [exact E1|]. split.
  - rewrite E2. do 2 f_equal.
    destruct p1 as [r1 i1], p2 as [r2 i2]. simpl in *.
    rewrite Hc1, Ht1, <- R1 in R2. subst r2. subst i1 i2. reflexivity.
  - unfold ledger. rewrite He2. apply Hh2. exact Hv1.
Qed.

Lemma applyFilters_twice_witness :
  exists page s1 s2,
    applyFilters host0 now0 state0 = Some (page, s1) /\
    applyFilters host0 now0 s1 = Some (page, s2) /\
    ledger s2 = Some ledger0.
Proof.
  apply (applyFilters_twice host0 now0 state0 ledger0). reflexivity.
Defined.

(** X3.  After an accepted submission the page shows the new record exactly
    when it passes the filter the two selects held at the submission: a
    record outside the filter is saved, and the success message shown, but
    it is not in the table. *)
Theorem submit_shows_new_record (h : Host)
    (stringify : list Expense -> JSString) (clock : Clock) (form : Form)
    (s : State) (v : list Expense) :
  ledger s = Some v ->
  accepted form = true ->
  exists page s',
    submit h stringify clock form s = Some (Success page, s') /\
    ledger s' = Some (v ++ [newExpense clock form]) /\
    (In (newExpense clock form) (tableRows page) <->
     keeps h (filterTime clock) (filterCategorySelect s) (filterTimeSelect s)
       (newExpense clock form) = true).
Proof.
  intros Hv Ha.
  destruct (submit_renders h stringify clock form s v Hv Ha)
    as (page & s' & E & Hrows & _ & Hl & _).
  exists page, s'. split; [exact E|]. split; [exact Hl|].
  rewrite Hrows, sorted_by_In, filter_In, in_app_iff. simpl. tauto.
Qed.

Lemma submit_shows_new_record_witness :
  exists page s',
    submit host0 stringify0 clock0 lunch state0 = Some (Success page, s') /\
    ledger s' = Some (ledger0 ++ [newExpense clock0 lunch]) /\
    (In (newExpense clock0 lunch) (tableRows page) <->
     keeps host0 (filterTime clock0) (filterCategorySelect state0)
       (filterTimeSelect state0) (newExpense clock0 lunch) = true).
Proof.
  apply (submit_shows_new_record host0 stringify0 clock0 lunch state0 ledger0);
    reflexivity.
Defined.

(** The storage after a run of submissions. *)
Lemma submissions_storage (h : Host) (stringify : list Expense -> JSString)
    (subs : list (Clock * Form)) :
  forall (s : State) (v : list Expense),
  ledger s = Some v ->
  exists s',
    submissions h stringify subs s = Some s' /\
    ledger s' = Some (v ++ appended subs) /\
    (forall k, k <> js "expenses" ->
       localStorage s' !! k = localStorage s !! k) /\
    localStorage s' !! js "expenses"
    = match appended subs with
      | [] => localStorage s !! js "expenses"
      | _ :: _ => Some (stringify (v ++ appended subs))
      end.
Proof.
  induction subs as [|[clock form] subs IH]; intros s v Hv.
  - exists s. split; [reflexivity|]. unfold appended. simpl.
    rewrite app_nil_r. auto.
  - unfold appended. simpl. destruct (accepted form) eqn:Ea.
    + destruct (submit_renders h stringify clock form s v Hv Ea)
        as (page & s1 & E1 & _ & _ & H1 & L1).
      destruct (IH s1 _ H1) as (s' & E' & H' & K' & S').
      exists s'. rewrite E1. simpl. split; [exact E'|].
      fold (appended subs). rewrite H', <- app_assoc. simpl.
      split; [reflexivity|]. split.
      * intros k Hk. rewrite (K' k Hk), L1. by apply lookup_insert_ne.
      * rewrite S'. clear IH H' S'.
        destruct (appended subs) as [|x l]; [|by rewrite <- app_assoc].
        rewrite L1. apply lookup_insert_eq.
    + apply accepted_false in Ea.
      rewrite (submit_rejects h stringify clock form s Ea). simpl.
      apply (IH s v Hv).
Qed.

(** X4.  Over any run of submissions the ledger only grows at its end: the
    ledger afterwards is the ledger before, followed by the records of the
    accepted submissions in the order they were made. *)
Theorem submissions_append_only (h : Host)
    (stringify : list Expense -> JSString) (subs : list (Clock * Form))
    (s : State) (v : list Expense) :
  ledger s = Some v ->
  exists s' v',
    submissions h stringify subs s = Some s' /\
    ledger s' = Some v' /\
    v' = v ++ appended subs /\
    firstn (length v) v' = v /\
    (length v' <= length v + length subs)%nat.
Proof.
  intros Hv.
  destruct (submissions_storage h stringify subs s v Hv) as (s' & E & L & _).
  exists s', (v ++ appended subs). repeat split; try assumption.
  - rewrite firstn_app, Nat.sub_diag, firstn_all. simpl. apply app_nil_r.
  - rewrite length_app. unfold appended. rewrite length_map.
    pose proof (List.filter_length_le (fun cf => accepted (snd cf)) subs). lia.
Qed.

Lemma submissions_append_only_witness :
  exists s' v',
    submissions host0 stringify0 [(clock0, lunch); (clock1, refund)] state0
    = Some s' /\
    ledger s' = Some v' /\
    v' = ledger0 ++ appended [(clock0, lunch); (clock1, refund)] /\
    firstn (length ledger0) v' = ledger0 /\
    (length v' <= length ledger0 + 2)%nat.
Proof.
  apply (submissions_append_only host0 stringify0
           [(clock0, lunch); (clock1, refund)] state0 ledger0).
  reflexivity.
Defined.

(** X5.  The stored text follows the ledger: when the text under
    [expenses] is the serialized ledger before a run of submissions, or one
    of them is accepted, it is the serialized ledger after the run; no
    other key of [localStorage] is written. *)
Theorem submissions_storage_follows (h : Host)
    (stringify : list Expense -> JSString) (subs : list (Clock * Form))
    (s : State) (v : list Expense) :
  ledger s = Some v ->
  localStorage s !! js "expenses" = Some (stringify v)
  \/ existsb (fun cf => accepted (snd cf)) subs = true ->
  exists s' v',
    submissions h stringify subs s = Some s' /\
    ledger s' = Some v' /\
    localStorage s' !! js "expenses" = Some (stringify v') /\
    forall k, k <> js "expenses" ->
      localStorage s' !! k = localStorage s !! k.
Proof.
  intros Hv Hs.
  destruct (submissions_storage h stringify subs s v Hv)
    as (s' & E & L & K & S).
  exists s', (v ++ appended subs). repeat split; try assumption.
  rewrite S. destruct (appended subs) as [|x l] eqn:Ea; [|reflexivity].
  rewrite app_nil_r. destruct Hs as [Hs|Hs]; [exact Hs|].
  apply existsb_exists in Hs as (cf & Hin & Hcf).
  assert (In (newExpense (fst cf) (snd cf)) (appended subs)).
  { unfold appended.
    apply (in_map (fun cf => newExpense (fst cf) (snd cf))), filter_In.
    by split. }
  rewrite Ea in *. contradiction.
Qed.

Lemma submissions_storage_follows_witness :
  exists s' v',
    submissions host0 stringify0 [(clock0, lunch); (clock1, refund)] state0
    = Some s' /\
    ledger s' = Some v' /\
    localStorage s' !! js "expenses" = Some (stringify0 v') /\
    forall k, k <> js "expenses" ->
      localStorage s' !! k = localStorage state0 !! k.
Proof.
  apply (submissions_storage_follows host0 stringify0
           [(clock0, lunch); (clock1, refund)] state0 ledger0).
  - reflexivity.
  - right. reflexivity.
Defined.

(* ===================================================================== *)
(** ** The week and the month of the time filter *)
(* ===================================================================== *)

(** The Monthly limit in days of the local clock. *)
Lemma oneMonthAgo_days (h : Host) (now : Z) :
  let lt := Date.LocalTime (timeZone h) now in
  let days :=
    Date.DaysInMonth (Date.YearFromTime lt + (Date.MonthFromTime lt - 1) / 12)
      ((Date.MonthFromTime lt - 1) mod 12) in
  oneMonthAgo h now
  = Date.TimeClip (Date.UTC (timeZone h) (lt - days * Date.msPerDay)) /\
  28 <= days <= 31.
Proof.
  intros lt days. split.
  - rewrite oneMonthAgo_oneMonthBefore.
    unfold oneMonthBefore, daysOfMonthBefore. fold lt.
    rewrite (monthBefore_spec _ _ (MonthFromTime_range lt)). reflexivity.
  - apply DaysInMonth_range.
    pose proof (Z.mod_pos_bound (Date.MonthFromTime lt - 1) 12). lia.
Qed.

(** X6.  The limit of the Monthly filter, [now.setMonth(now.getMonth() - 1)]
    (line 246), lies as many days before [now] on the local clock as the
    calendar month before that of [now] has: 28 to 31 days, not a fixed
    number, also when the month before does not have the day of the month
    of [now].  The Monthly filter keeps the records dated at that limit or
    after it. *)
Theorem oneMonthAgo_window (h : Host) (now : Z) :
  let lt := Date.LocalTime (timeZone h) now in
  let days :=
    Date.DaysInMonth (Date.YearFromTime lt + (Date.MonthFromTime lt - 1) / 12)
      ((Date.MonthFromTime lt - 1) mod 12) in
  oneMonthAgo h now
  = Date.TimeClip (Date.UTC (timeZone h) (lt - days * Date.msPerDay)) /\
  28 <= days <= 31 /\
  forall e,
    keeps h now (js "All") (js "Monthly") e
    = date_ge h e
        (Date.TimeClip (Date.UTC (timeZone h) (lt - days * Date.msPerDay))).
Proof.
  intros lt days. destruct (oneMonthAgo_days h now) as [E Hd].
  fold lt days in E, Hd. split; [exact E|]. split; [exact Hd|].
  intros e. unfold keeps. rewrite <- E. reflexivity.
Qed.

(** X7.  In a time zone whose offset from UTC never exceeds a day, and
    while the Monthly limit is a valid Date, every row the Weekly filter
    shows is a row the Monthly filter shows for the same category at the
    same instant. *)
Theorem weekly_rows_in_monthly (h : Host) (now limit : Z) (s : State)
    (v : list Expense) :
  ledger s = Some v ->
  (forall t, Z.abs (Date.offset_at_local (timeZone h) t) <= Date.msPerDay) ->
  oneMonthAgo h now = Some limit ->
  exists weekly sw monthly sm,
    filterTimeChanged h now (js "Weekly") s = Some (weekly, sw) /\
    filterTimeChanged h now (js "Monthly") s = Some (monthly, sm) /\
    forall e, In e (tableRows weekly) -> In e (tableRows monthly).
Proof.
  intros Hv Hoff Hlim.
  destruct (applyFilters_runs h now (selectPeriod (js "Weekly") s) v Hv)
    as (pw & sw & Ew & Rw & _).
  destruct (applyFilters_runs h now (selectPeriod (js "Monthly") s) v Hv)
    as (pm & sm & Em & Rm & _).
  exists pw, sw, pm, sm. split; [exact Ew|]. split; [exact Em|].
  intros e. rewrite Rw, Rm, !sorted_by_In, !filter_In.
  intros [Hin Hk]. split; [exact Hin|]. revert Hk.
  unfold keeps. simpl.
  replace (str_eqb (js "Weekly") (js "Weekly")) with true by reflexivity.
  replace (str_eqb (js "Monthly") (js "Weekly")) with false by reflexivity.
  replace (str_eqb (js "Monthly") (js "Monthly")) with true by reflexivity.
  rewrite !andb_true_iff. intros [Hc Hw]. split; [exact Hc|].
  apply date_ge_spec in Hw as (t & l & Ht & Hl & Hle).
  apply date_ge_spec. exists t, limit. split; [exact Ht|].
  split; [exact Hlim|].
  destruct (oneMonthAgo_days h now) as [Em' Hd]. rewrite Em' in Hlim.
  rewrite oneWeekAgo_sevenDaysBefore in Hl. unfold sevenDaysBefore in Hl.
  set (lt := Date.LocalTime (timeZone h) now) in *.
  set (days := Date.DaysInMonth _ _) in *. clearbody days lt.
  unfold Date.TimeClip in Hl, Hlim.
  repeat case_match; try discriminate.
  injection Hl as <-. injection Hlim as <-.
  unfold Date.UTC in *.
  pose proof (Hoff (lt - 7 * Date.msPerDay)) as O1.
  pose proof (Hoff (lt - days * Date.msPerDay)) as O2.
  unfold Date.msPerDay in *. lia.
Qed.

Lemma weekly_rows_in_monthly_witness :
  exists weekly sw monthly sm,
    filterTimeChanged host0 now0 (js "Weekly") state0 = Some (weekly, sw) /\
    filterTimeChanged host0 now0 (js "Monthly") state0 = Some (monthly, sm) /\
    forall e, In e (tableRows weekly) -> In e (tableRows monthly).
Proof.
  apply (weekly_rows_in_monthly host0 now0 1702209600000 state0 ledger0).
  - reflexivity.
  - intros t. simpl. unfold Date.msPerDay. lia.
  - reflexivity.
Defined.

(* ===================================================================== *)
(** ** The category filter and the order of the rows *)
(* ===================================================================== *)

Section SortFilter.
Context {A : Type} (cmp : A -> A -> Z) (P : A -> Prop) (key : A -> Z).
Context (Hcmp : forall x y, P x -> P y -> cmp x y = key y - key x).

(** Inserting into a sorted list and dropping elements can be done in
    either order. *)
Lemma sort_insert_filter (p : A -> bool) (x : A) (l : list A) :
  P x -> Forall P l ->
  StronglySorted (fun a b => key b <= key a) l ->
  List.filter p (sort_insert cmp x l)
  = if p x then sort_insert cmp x (List.filter p l) else List.filter p l.
Proof using Hcmp.
  intros Px Pl Hs. induction Hs as [|y l Hs IH Hy]; simpl.
  - by destruct (p x).
  - apply Forall_cons_1 in Pl as [Py Pl]. specialize (IH Pl).
    destruct (Z.leb_spec (cmp x y) 0) as [Hle|Hgt].
    + simpl. destruct (p x) eqn:Ex; [|reflexivity].
      destruct (p y) eqn:Ey.
      * simpl. by rewrite (proj2 (Z.leb_le _ _) Hle).
      * destruct (List.filter p l) as [|z l'] eqn:Ef; [reflexivity|].
        simpl.
        assert (Hz : In z l).
        { apply (proj1 (filter_In p z l)). rewrite Ef. by left. }
        rewrite List.Forall_forall in Hy, Pl.
        rewrite Hcmp in Hle by assumption.
        rewrite (Hcmp x z) by auto.
        specialize (Hy z Hz).
        by replace (key z - key x <=? 0) with true
          by (symmetry; apply Z.leb_le; lia).
    + simpl. destruct (p y) eqn:Ey.
      * rewrite IH. destruct (p x); [|reflexivity]. simpl.
        by rewrite (proj2 (Z.leb_gt _ _) Hgt).
      * exact IH.
Qed.

Lemma sorted_by_filter (p : A -> bool) (l : list A) :
  Forall P l ->
  List.filter p (sorted_by cmp l) = sorted_by cmp (List.filter p l).
Proof using Hcmp.
  induction l as [|x l IH]; [reflexivity|]. intros Pl.
  apply Forall_cons_1 in Pl as [Px Pl].
  change (sorted_by cmp (x :: l)) with (sort_insert cmp x (sorted_by cmp l)).
  rewrite sort_insert_filter.
  - simpl. rewrite (IH Pl). by destruct (p x).
  - exact Px.
  - rewrite List.Forall_forall in *. intros z Hz.
    apply (proj1 (sorted_by_In _ _ _)) in Hz. auto.
  - by apply (sorted_by_sorted cmp P key Hcmp).
Qed.

End SortFilter.

(** X8.  When the dates of the ledger parse, choosing a category only
    takes rows away: the rows shown for a category are the rows shown for
    [All] under the same time filter at the same instant, without the rows
    of the other categories and in the same order. *)
Theorem category_rows_of_all_rows (h : Host) (now : Z)
    (categoryValue : JSString) (s : State) (v : list Expense) :
  ledger s = Some v ->
  Forall (dated h) v ->
  exists chosen s1 every s2,
    filterCategoryChanged h now categoryValue s = Some (chosen, s1) /\
    filterCategoryChanged h now (js "All") s = Some (every, s2) /\
    tableRows chosen
    = List.filter
        (fun e => str_eqb categoryValue (js "All")
                  || str_eqb (category e) categoryValue)
        (tableRows every).
Proof.
  intros Hv Hd.
  destruct (applyFilters_runs h now (selectCategory categoryValue s) v Hv)
    as (pc & s1 & Ec & Rc & _).
  destruct (applyFilters_runs h now (selectCategory (js "All") s) v Hv)
    as (pa & s2 & Ea & Ra & _).
  exists pc, s1, pa, s2. split; [exact Ec|]. split; [exact Ea|].
  rewrite Rc, Ra. simpl.
  rewrite (sorted_by_filter (byDateDesc h) (dated h) (timeKey h)
             (byDateDesc_dated h)) by by apply Forall_filter_keep.
  rewrite filter_filter_andb. f_equal. apply filter_ext. intros e.
  unfold keeps.
  change (str_eqb (js "All") (js "All")) with true. simpl.
  apply andb_comm.
Qed.

Lemma category_rows_of_all_rows_witness :
  exists chosen s1 every s2,
    filterCategoryChanged host0 now0 (js "Rent") state0 = Some (chosen, s1) /\
    filterCategoryChanged host0 now0 (js "All") state0 = Some (every, s2) /\
    tableRows chosen
    = List.filter
        (fun e => str_eqb (js "Rent") (js "All")
                  || str_eqb (category e) (js "Rent"))
        (tableRows every).
Proof.
  apply (category_rows_of_all_rows host0 now0 (js "Rent") state0 ledger0).
  - reflexivity.
  - repeat constructor; eexists; reflexivity.
Defined.

(* ===================================================================== *)
(** ** The date the form starts with *)
(* ===================================================================== *)

Lemma decimal_digits_digit (n : Z) :
  0 <= n <= 9 -> decimal_digits n = [(48 + Z.to_N n)%N].
Proof.
  intros H. rewrite <- (Z2Nat.id n) by lia.
  assert (Hk : (Z.to_nat n < 10)%nat) by lia.
  generalize dependent (Z.to_nat n). intros k Hk.
  do 10 (destruct k as [|k]; [reflexivity|]). lia.
Qed.

Lemma is_digit_digit (n : Z) :
  0 <= n <= 9 -> is_digit (48 + Z.to_N n) = true.
Proof.
  intros H. unfold is_digit. apply andb_true_iff.
  split; apply N.leb_le; lia.
Qed.

Lemma digit_val_digit (n : Z) : 0 <= n -> digit_val (48 + Z.to_N n) = n.
Proof. intros H. unfold digit_val. lia. Qed.

(** The value [valueAsDate] gives is read by [Date.parse] as the day it
    was made from. *)
Lemma iso_date_valueAsDate (t : Z) :
  0 <= Date.YearFromTime t <= 9999 ->
  Date.iso_date (valueAsDate t)
  = Some (Date.YearFromTime t, Date.MonthFromTime t + 1, Date.DateFromTime t).
Proof.
  intros Hy.
  pose proof (MonthFromTime_range t) as Hm.
  pose proof (DateFromTime_range t) as Hd.
  pose proof (DaysInMonth_range (Date.YearFromTime t) (Date.MonthFromTime t)
                Hm) as Hdm.
  unfold valueAsDate, two_digits.
  set (y := Date.YearFromTime t) in *.
  set (m0 := Date.MonthFromTime t) in *.
  set (d := Date.DateFromTime t) in *.
  set (days := Date.DaysInMonth y m0) in *.
  clearbody y m0 d days.
  set (m := m0 + 1).
  assert (Hy1 : 0 <= y / 1000 <= 9) by (Z.div_mod_to_equations; lia).
  assert (Hy2 : 0 <= y / 100 mod 10 <= 9) by (Z.div_mod_to_equations; lia).
  assert (Hy3 : 0 <= y / 10 mod 10 <= 9) by (Z.div_mod_to_equations; lia).
  assert (Hy4 : 0 <= y mod 10 <= 9) by (Z.div_mod_to_equations; lia).
  assert (Hm1 : 0 <= m / 10 <= 9) by (Z.div_mod_to_equations; lia).
  assert (Hm2 : 0 <= m mod 10 <= 9) by (Z.div_mod_to_equations; lia).
  assert (Hd1 : 0 <= d / 10 <= 9) by (Z.div_mod_to_equations; lia).
  assert (Hd2 : 0 <= d mod 10 <= 9) by (Z.div_mod_to_equations; lia).
  rewrite !decimal_digits_digit by assumption.
  change (js "-") with [chr "-"]. cbn [app].
  unfold Date.iso_date. cbn [forallb].
  rewrite !is_digit_digit by assumption.
  change (chr "-" =? chr "-")%N with true.
  cbn [andb]. unfold digits_val. cbn [fold_left].
  rewrite !digit_val_digit by lia.
  apply f_equal. apply f_equal2; [apply f_equal2|];
    Z.div_mod_to_equations; lia.
Qed.

Lemma Day_of_year_range (t : Z) :
  1 <= Date.YearFromTime t <= 9999 ->
  -719162 <= Date.Day t < 2932897.
Proof.
  intros Hy. pose proof (YearFromDay_spec (Date.Day t)) as Hs.
  fold (Date.YearFromTime t) in Hs.
  pose proof (DayFromYear_mono 1 (Date.YearFromTime t) ltac:(lia)) as H1.
  pose proof (DayFromYear_mono (Date.YearFromTime t + 1) 10000 ltac:(lia))
    as H2.
  change (Date.DayFromYear 1) with (-719162) in H1.
  change (Date.DayFromYear 10000) with 2932897 in H2.
  lia.
Qed.

Lemma newDate_valueAsDate (h : Host) (t : Z) :
  1 <= Date.YearFromTime t <= 9999 ->
  newDate h (valueAsDate t) = Some (Date.Day t * Date.msPerDay).
Proof.
  intros Hy. pose proof (Day_of_year_range t Hy) as Hday.
  pose proof (MonthFromTime_range t) as Hm.
  pose proof (DateFromTime_range t) as Hd.
  unfold newDate, Date.parse.
  rewrite iso_date_valueAsDate by lia.
  replace (Date.MonthFromTime t + 1 - 1) with (Date.MonthFromTime t) by lia.
  replace ((1 <=? Date.MonthFromTime t + 1)
           && (Date.MonthFromTime t + 1 <=? 12)
           && (1 <=? Date.DateFromTime t)
           && (Date.DateFromTime t
               <=? Date.DaysInMonth (Date.YearFromTime t)
                     (Date.MonthFromTime t))) with true
    by (symmetry; rewrite !andb_true_iff, !Z.leb_le; lia).
  pose proof (MakeDay_of_time t 0) as H0. rewrite !Z.add_0_r in H0.
  rewrite H0. unfold Date.MakeDate. rewrite Z.add_0_r.
  unfold Date.TimeClip, Date.msPerDay.
  replace (Z.abs (Date.Day t * 86400000) <=? 8640000000000000) with true
    by (symmetry; apply Z.leb_le; lia).
  reflexivity.
Qed.

Lemma Day_floor (t : Z) :
  Date.Day t * Date.msPerDay <= t < Date.Day t * Date.msPerDay + Date.msPerDay.
Proof.
  unfold Date.Day, Date.msPerDay. Z.div_mod_to_equations. lia.
Qed.

(** X9.  The date the form starts with (lines 326 to 328, and 317 after a
    submission) is the calendar day of [new Date()] in UTC, not on the
    local clock: [Date.parse] reads it as the midnight, UTC, at or before
    [now] and less than a day before it.  A date field that is filled
    is left alone. *)
Theorem initialDate_today_in_UTC (h : Host) (now : Z) :
  1 <= Date.YearFromTime now <= 9999 ->
  newDate h (initialDate now []) = Some (Date.Day now * Date.msPerDay) /\
  Date.Day now * Date.msPerDay <= now
  < Date.Day now * Date.msPerDay + Date.msPerDay /\
  forall dateValue, dateValue <> [] -> initialDate now dateValue = dateValue.
Proof.
  intros Hy. split; [|split].
  - unfold initialDate. rewrite str_eqb_refl. by apply newDate_valueAsDate.
  - apply Day_floor.
  - intros dateValue Hne. unfold initialDate.
    apply str_eqb_neq in Hne. by rewrite Hne.
Qed.

Lemma initialDate_today_in_UTC_witness :
  newDate host0 (initialDate now0 []) = Some (Date.Day now0 * Date.msPerDay) /\
  Date.Day now0 * Date.msPerDay <= now0
  < Date.Day now0 * Date.msPerDay + Date.msPerDay /\
  forall dateValue, dateValue <> [] -> initialDate now0 dateValue = dateValue.
Proof.
  apply (initialDate_today_in_UTC host0 now0). vm_compute.
  split; discriminate.
Defined.

(** X10.  A record submitted with the date the form started with, up to
    four days after that date was set, is in the table the submission
    renders under every time filter, when its category passes the category
    filter; this for time zones whose offsets from UTC never exceed a
    day. *)
Theorem submit_with_initial_date (h : Host)
    (stringify : list Expense -> JSString) (clock : Clock) (form : Form)
    (now : Z) (s : State) (v : list Expense) :
  ledger s = Some v ->
  accepted form = true ->
  dateInput form = initialDate now [] ->
  1 <= Date.YearFromTime now <= 9999 ->
  now <= filterTime clock <= now + 4 * Date.msPerDay ->
  (forall t, Z.abs (Date.offset_at_utc (timeZone h) t) <= Date.msPerDay /\
             Z.abs (Date.offset_at_local (timeZone h) t) <= Date.msPerDay) ->
  filterCategorySelect s = js "All"
  \/ categorySelect form = filterCategorySelect s ->
  exists page s',
    submit h stringify clock form s = Some (Success page, s') /\
    In (newExpense clock form) (tableRows page).
Proof.
  intros Hv Ha Hdate Hy Hnow Hoff Hcat.
  destruct (submit_renders h stringify clock form s v Hv Ha)
    as (page & s' & E & Hrows & _).
  exists page, s'. split; [exact E|].
  rewrite Hrows, sorted_by_In, filter_In, in_app_iff.
  split; [right; by left|].
  pose proof (Day_of_year_range now Hy) as Hday.
  pose proof (Day_floor now) as Hfl.
  assert (Ht : timeOf h (newExpense clock form)
               = Some (Date.Day now * Date.msPerDay)).
  { unfold timeOf, newExpense. simpl. rewrite Hdate.
    unfold initialDate. rewrite str_eqb_refl.
    by apply newDate_valueAsDate. }
  unfold keeps. apply andb_true_iff. split.
  - apply orb_true_iff. destruct Hcat as [-> | Hc]; [by left|right].
    apply str_eqb_eq. exact Hc.
  - set (now' := filterTime clock) in *.
    destruct (str_eqb (filterTimeSelect s) (js "Weekly"));
      [|destruct (str_eqb (filterTimeSelect s) (js "Monthly"));
        [|reflexivity]].
    + apply date_ge_spec. rewrite oneWeekAgo_sevenDaysBefore.
      unfold sevenDaysBefore, Date.UTC, Date.LocalTime.
      destruct (Hoff now') as [Hu _].
      destruct (Hoff (now' + Date.offset_at_utc (timeZone h) now'
                      - 7 * Date.msPerDay)) as [_ Hl].
      set (ou := Date.offset_at_utc (timeZone h) now') in *.
      set (ol := Date.offset_at_local (timeZone h) _) in *.
      clearbody ou ol. unfold Date.msPerDay in *.
      eexists _, _. split; [exact Ht|]. unfold Date.TimeClip.
      replace (Z.abs (now' + ou - 7 * 86400000 - ol) <=? 8640000000000000)
        with true by (symmetry; apply Z.leb_le; lia).
      split; [reflexivity|lia].
    + apply date_ge_spec.
      destruct (oneMonthAgo_days h now') as [Em Hd]. rewrite Em.
      unfold Date.UTC, Date.LocalTime.
      destruct (Hoff now') as [Hu _].
      set (days := Date.DaysInMonth _ _) in *.
      destruct (Hoff (now' + Date.offset_at_utc (timeZone h) now'
                      - days * Date.msPerDay)) as [_ Hl].
      set (ou := Date.offset_at_utc (timeZone h) now') in *.
      set (ol := Date.offset_at_local (timeZone h) _) in *.
      clearbody ou ol days. unfold Date.msPerDay in *.
      eexists _, _. split; [exact Ht|]. unfold Date.TimeClip.
      replace (Z.abs (now' + ou - days * 86400000 - ol) <=? 8640000000000000)
        with true by (symmetry; apply Z.leb_le; lia).
      split; [reflexivity|lia].
Qed.

Lemma submit_with_initial_date_witness :
  exists page s',
    submit host0 stringify0 clock0 todayForm state0 = Some (Success page, s') /\
    In (newExpense clock0 todayForm) (tableRows page).
Proof.
  apply (submit_with_initial_date host0 stringify0 clock0 todayForm now0
           state0 ledger0).
  - reflexivity.
  - reflexivity.
  - reflexivity.
  - vm_compute. split; discriminate.
  - vm_compute. split; discriminate.
  - intros t. simpl. unfold Date.msPerDay. lia.
  - right. reflexivity.
Defined.

(* ===================================================================== *)
(** ** The options of the category filter *)
(* ===================================================================== *)

Lemma existsb_str_In (c : JSString) (l : list JSString) :
  existsb (str_eqb c) l = true <-> In c l.
Proof.
  rewrite existsb_exists. split.
  - intros (x & Hx & E). apply str_eqb_eq in E. by subst x.
  - intros H. exists c. split; [exact H | apply str_eqb_refl].
Qed.

Lemma distinct_In (l seen : list JSString) (c : JSString) :
  In c (distinct seen l) <-> In c l /\ ~ In c seen.
Proof.
  revert seen. induction l as [|x l IH]; intros seen; simpl; [tauto|].
  destruct (existsb (str_eqb x) seen) eqn:E.
  - apply existsb_str_In in E. rewrite IH. split.
    + tauto.
    + intros [[->|H] N]; [contradiction|tauto].
  - assert (N : ~ In x seen)
      by (rewrite <- existsb_str_In, E; discriminate).
    simpl. rewrite IH. simpl. split.
    + intros [->|[H H']]; tauto.
    + intros [[->|H] N']; [tauto|].
      destruct (decide (x = c)) as [->|Hne]; [tauto|]. right. tauto.
Qed.

Lemma distinct_NoDup (l seen : list JSString) : List.NoDup (distinct seen l).
Proof.
  revert seen. induction l as [|x l IH]; intros seen; simpl; [constructor|].
  destruct (existsb (str_eqb x) seen); [apply IH|].
  constructor; [|apply IH]. rewrite distinct_In. simpl. tauto.
Qed.

(** One more element at the end adds itself at the end, when it is new. *)
Lemma distinct_snoc (l seen : list JSString) (c : JSString) :
  distinct seen (l ++ [c])
  = if existsb (str_eqb c) (seen ++ l) then distinct seen l
    else distinct seen l ++ [c].
Proof.
  revert seen. induction l as [|x l IH]; intros seen; simpl.
  - rewrite app_nil_r. by destruct (existsb (str_eqb c) seen).
  - assert (Hx : existsb (str_eqb c) (seen ++ x :: l)
                 = existsb (str_eqb c) ((x :: seen) ++ l)).
    { simpl. rewrite !existsb_app. simpl.
      destruct (str_eqb c x), (existsb (str_eqb c) seen); reflexivity. }
    destruct (existsb (str_eqb x) seen) eqn:E.
    + rewrite IH.
      assert (Hs : existsb (str_eqb c) (seen ++ x :: l)
                   = existsb (str_eqb c) (seen ++ l)).
      { rewrite !existsb_app. simpl.
        destruct (str_eqb c x) eqn:Ec; [|reflexivity].
        apply str_eqb_eq in Ec. subst x. by rewrite E. }
      by rewrite Hs.
    + rewrite IH, Hx.
      by destruct (existsb (str_eqb c) ((x :: seen) ++ l)).
Qed.

(** X11.  [populateFilterCategories] (lines 213 to 220) rebuilds the options
    of the category filter from the ledger alone: [All], then each category
    some record has, once; it changes neither the ledger nor the storage. *)
Theorem populateFilterCategories_options (s : State) (v : list Expense) :
  ledger s = Some v ->
  exists categories s',
    populateFilterCategories s = Some (js "All" :: categories, s') /\
    List.NoDup categories /\
    (forall c, In c categories <-> exists e, In e v /\ category e = c) /\
    ledger s' = Some v /\
    localStorage s' = localStorage s /\
    filterTimeSelect s' = filterTimeSelect s.
Proof.
  intros Hv. unfold populateFilterCategories. rewrite Hv.
  eexists _, _. split; [reflexivity|].
  split; [apply distinct_NoDup|]. split; [|by auto].
  intros c. rewrite distinct_In, in_map_iff. simpl. split.
  - intros [(e & E & H) _]. by exists e.
  - intros (e & H & E). split; [by exists e|tauto].
Qed.

Lemma populateFilterCategories_options_witness :
  exists categories s',
    populateFilterCategories state0 = Some (js "All" :: categories, s') /\
    List.NoDup categories /\
    (forall c, In c categories <-> exists e, In e ledger0 /\ category e = c) /\
    ledger s' = Some ledger0 /\
    localStorage s' = localStorage state0 /\
    filterTimeSelect s' = filterTimeSelect state0.
Proof.
  apply (populateFilterCategories_options state0 ledger0). reflexivity.
Defined.

(** X12.  The options keep the order in which the categories first come up
    in the ledger: with one more record at the end of the ledger the
    options are the same when its category was there, and have it as their
    last when it is new. *)
Theorem populateFilterCategories_new_record (s s1 : State)
    (v : list Expense) (e : Expense) :
  ledger s = Some v ->
  ledger s1 = Some (v ++ [e]) ->
  exists categories,
    option_map fst (populateFilterCategories s)
    = Some (js "All" :: categories) /\
    option_map fst (populateFilterCategories s1)
    = Some (js "All" ::
            if existsb (str_eqb (category e)) categories then categories
            else categories ++ [category e]).
Proof.
  intros Hv H1. unfold populateFilterCategories. rewrite Hv, H1. simpl.
  eexists. split; [reflexivity|]. do 2 f_equal.
  rewrite map_app. simpl. rewrite distinct_snoc. simpl.
  assert (E : existsb (str_eqb (category e)) (List.map category v)
              = existsb (str_eqb (category e))
                  (distinct [] (List.map category v))).
  { apply eq_true_iff_eq. rewrite !existsb_str_In, distinct_In. simpl. tauto. }
  by rewrite E.
Qed.

Lemma populateFilterCategories_new_record_witness :
  exists categories,
    option_map fst (populateFilterCategories emptyState)
    = Some (js "All" :: categories) /\
    option_map fst (populateFilterCategories
                      {| heap := {[ 1%positive := [] ++ [food100] ]};
                         expenses := 1%positive;
                         localStorage := ∅;
                         filterCategorySelect := js "All";
                         filterTimeSelect := js "All" |})
    = Some (js "All" ::
            if existsb (str_eqb (category food100)) categories then categories
            else categories ++ [category food100]).
Proof.
  apply (populateFilterCategories_new_record emptyState _ [] food100);
    reflexivity.
Defined.

(* ===================================================================== *)
(** ** The table *)
(* ===================================================================== *)

Lemma map_lookup {A B} (f : A -> B) (l : list A) (i : nat) :
  List.map f l !! i = option_map f (l !! i).
Proof.
  revert i. induction l as [|x l IH]; intros [|i]; simpl; try reflexivity.
  apply IH.
Qed.

Lemma renderExpenses_lookup (localeDate : Z -> JSString) (h : Host)
    (rows : list Expense) (i : nat) (e : Expense) :
  rows !! i = Some e ->
  renderExpenses localeDate h rows !! i
  = Some {| markup := rowMarkup localeDate h e;
            classList :=
              if (i =? 0)%nat then [js "highlighted-row"] else [] |}.
Proof.
  intros Hi. unfold renderExpenses.
  destruct rows as [|x rows]; [discriminate|].
  rewrite list_lookup_imap, Hi. reflexivity.
Qed.

Lemma renderExpenses_length (localeDate : Z -> JSString) (h : Host)
    (rows : list Expense) :
  rows <> [] -> length (renderExpenses localeDate h rows) = length rows.
Proof.
  destruct rows as [|x rows]; [congruence|]. intros _.
  unfold renderExpenses. apply length_imap.
Qed.

(** X13.  The table [applyFilters] renders (lines 255 and 52 to 74) has one
    row for each record shown, in their order, and the class
    [highlighted-row] on the first row only.  When the dates of the ledger
    parse, no record shown has a later date than the one highlighted, and
    of the records shown with its date it is the first in the ledger: the
    highlight marks the latest date, not the latest submission. *)
Theorem renderExpenses_highlight (localeDate : Z -> JSString) (h : Host)
    (now : Z) (s : State) (v : list Expense) :
  ledger s = Some v ->
  exists page s',
    applyFilters h now s = Some (page, s') /\
    (tableRows page <> [] ->
     length (renderExpenses localeDate h (tableRows page))
     = length (tableRows page)) /\
    (forall i e, tableRows page !! i = Some e ->
       exists row,
         renderExpenses localeDate h (tableRows page) !! i = Some row /\
         markup row = rowMarkup localeDate h e /\
         (In (js "highlighted-row") (classList row) <-> i = 0%nat)) /\
    (Forall (dated h) v ->
     forall e, tableRows page !! 0%nat = Some e ->
       (forall e', In e' (tableRows page) -> notEarlier h e e') /\
       forall t, timeOf h e = Some t ->
         head (List.filter (onDate h t)
                 (List.filter
                    (keeps h now (filterCategorySelect s)
                       (filterTimeSelect s)) v))
         = Some e).
Proof.
  intros Hv.
  destruct (applyFilters_runs h now s v Hv) as (page & s' & E & Hrows & _).
  exists page, s'. split; [exact E|].
  split; [apply renderExpenses_length|]. split.
  - intros i e Hi. eexists. split; [by apply renderExpenses_lookup|].
    split; [reflexivity|]. simpl.
    destruct i; simpl; [tauto|]. split; [tauto|discriminate].
  - intros Hd e Hi.
    set (kept := List.filter _ v) in *.
    assert (Hkept : Forall (dated h) kept) by by apply Forall_filter_keep.
    assert (Hk : Forall (dated h) (tableRows page)).
    { rewrite Hrows. rewrite List.Forall_forall in *. intros x Hx.
      apply (proj1 (sorted_by_In _ _ _)) in Hx. by apply Hkept. }
    assert (Hs : StronglySorted (notEarlier h) (tableRows page)).
    { apply StronglySorted_dated; [exact Hk|]. rewrite Hrows.
      by apply (sorted_by_sorted (byDateDesc h) (dated h) (timeKey h)
                  (byDateDesc_dated h)). }
    assert (Hst : forall t, List.filter (onDate h t) (tableRows page)
                            = List.filter (onDate h t) kept).
    { intros t. rewrite !onDate_dated by assumption. rewrite Hrows.
      by apply (sorted_by_stable (byDateDesc h) (dated h) (timeKey h)
                  (byDateDesc_dated h)). }
    destruct (tableRows page) as [|x rows]; [discriminate|].
    injection Hi as ->. split.
    + intros e' He'.
      apply StronglySorted_inv in Hs as [_ Hs].
      rewrite List.Forall_forall in Hs, Hk.
      destruct He' as [<-|He']; [|by apply Hs].
      unfold notEarlier. destruct (Hk e (or_introl eq_refl)) as [t ->]. lia.
    + intros t Ht. rewrite <- Hst. simpl. unfold onDate at 1.
      rewrite Ht, Z.eqb_refl. reflexivity.
Qed.

(** On [ledger0] with no filter the table has three rows, and the one
    highlighted is the first record of 8 January, not the record entered
    last. *)
Lemma renderExpenses_highlight_witness :
  exists page s',
    applyFilters host0 now0 allState0 = Some (page, s') /\
    tableRows page = [food50; rent150; food100] /\
    length (renderExpenses localeDate0 host0 (tableRows page)) = 3%nat /\
    (forall i e, tableRows page !! i = Some e ->
       exists row,
         renderExpenses localeDate0 host0 (tableRows page) !! i = Some row /\
         markup row = rowMarkup localeDate0 host0 e /\
         (In (js "highlighted-row") (classList row) <-> i = 0%nat)) /\
    (forall e, tableRows page !! 0%nat = Some e ->
       (forall e', In e' (tableRows page) -> notEarlier host0 e e') /\
       forall t, timeOf host0 e = Some t ->
         head (List.filter (onDate host0 t)
                 (List.filter
                    (keeps host0 now0 (filterCategorySelect allState0)
                       (filterTimeSelect allState0)) ledger0))
         = Some e).
Proof.
  destruct (renderExpenses_highlight localeDate0 host0 now0 allState0 ledger0
              eq_refl) as (page & s' & E & Hlen & Hrow & Hfirst).
  destruct (applyFilters_runs host0 now0 allState0 ledger0 eq_refl)
    as (page' & s'' & E' & Hrows & _).
  rewrite E in E'. injection E' as <- <-.
  assert (Hr : tableRows page = [food50; rent150; food100])
    by (rewrite Hrows; vm_compute; reflexivity).
  exists page, s'. split; [exact E|]. split; [exact Hr|].
  split; [rewrite Hlen; rewrite Hr; [reflexivity|discriminate]|].
  split; [exact Hrow|].
  apply Hfirst. repeat constructor; eexists; reflexivity.
Defined.

(* ===================================================================== *)
(** ** The charts *)
(* ===================================================================== *)

Lemma Object_entries_perm (o : JSObject) : Permutation (Object_entries o) o.
Proof.
  unfold Object_entries. rewrite sorted_by_perm. apply filter_partition_perm.
Qed.

Lemma Object_keys_entries (o : JSObject) :
  Object_keys o = List.map fst (Object_entries o).
Proof. reflexivity. Qed.

(** Without array indices among the keys, [Object.entries] lists the
    properties in creation order. *)
Lemma Object_entries_plain (o : JSObject) :
  Forall (fun kv => array_index (fst kv) = None) o -> Object_entries o = o.
Proof.
  intros H. unfold Object_entries.
  assert (E1 : List.filter is_index o = []).
  { induction H as [|kv o Hkv H IH]; [reflexivity|]. simpl.
    unfold is_index at 1. by rewrite Hkv. }
  assert (E2 : List.filter (fun kv => negb (is_index kv)) o = o).
  { clear E1. induction H as [|kv o Hkv H IH]; [reflexivity|]. simpl.
    unfold is_index at 1. rewrite Hkv. simpl. f_equal. exact IH. }
  rewrite E1, E2. reflexivity.
Qed.

Lemma own_NoDup_In (o : JSObject) (k : JSString) (x : Number.t) :
  List.NoDup (List.map fst o) -> In (k, x) o -> own o k = Some x.
Proof.
  induction o as [|[k0 x0] o IH]; simpl; [tauto|].
  intros Hnd [E|Hin]; apply NoDup_cons_iff in Hnd as [Hk0 Hnd].
  - inversion E. by rewrite str_eqb_refl.
  - destruct (str_eqb k0 k) eqn:E0; [|by apply IH].
    apply str_eqb_eq in E0. subst k0. exfalso. apply Hk0.
    apply (in_map fst) in Hin. exact Hin.
Qed.

(** The labels and the data [Object.keys] and [Object.values] give a chart:
    as many data as labels, no label twice, and each datum the property of
    its label. *)
Lemma series_of_object (o : JSObject) :
  List.NoDup (List.map fst o) ->
  length (Object_values o) = length (Object_keys o) /\
  List.NoDup (Object_keys o) /\
  Permutation (Object_keys o) (List.map fst o) /\
  forall i k, Object_keys o !! i = Some k -> Object_values o !! i = own o k.
Proof.
  intros Hnd. split; [|split; [|split]].
  - unfold Object_values. rewrite Object_keys_entries, !length_map.
    reflexivity.
  - eapply Permutation_NoDup; [|exact Hnd]. symmetry. apply Object_keys_perm.
  - apply Object_keys_perm.
  - intros i k. unfold Object_values. rewrite Object_keys_entries, !map_lookup.
    destruct (Object_entries o !! i) as [[k' x]|] eqn:Ei; [|discriminate].
    simpl. intros [= ->]. symmetry. apply own_NoDup_In; [exact Hnd|].
    apply (Permutation_in _ (Object_entries_perm o)).
    apply list_elem_of_In. by eapply list_elem_of_lookup_2.
Qed.

Lemma categoryData_spec (records : list Expense) :
  Forall (fun e => inherited (category e) = false) records ->
  exists o,
    categoryData records = Some o /\
    List.map fst o = distinct [] (List.map category records) /\
    forall k, own o k = categoryTotal records k.
Proof.
  intros H. destruct (category_fold_Some records H []) as [o E].
  exists o. split; [exact E|]. split.
  - apply (category_fold_keys records [] o E).
  - intros k. apply (category_fold_own records k [] o E).
Qed.

Lemma trendData_byDay (localeDate : Z -> JSString) (h : Host)
    (records : list Expense) :
  trendData localeDate h records
  = categoryData (List.map (byDay localeDate h) records).
Proof.
  unfold trendData, categoryData. generalize (Some ([] : JSObject)).
  induction records as [|e records IH]; intros acc; [reflexivity|].
  simpl. rewrite IH. reflexivity.
Qed.

Lemma dayTotal_byDay (localeDate : Z -> JSString) (h : Host)
    (records : list Expense) (k : JSString) :
  dayTotal localeDate h records k
  = categoryTotal (List.map (byDay localeDate h) records) k.
Proof.
  unfold dayTotal, categoryTotal. generalize (None : option Number.t).
  induction records as [|e records IH]; intros acc; [reflexivity|].
  simpl. rewrite IH. reflexivity.
Qed.

Lemma trendData_spec (localeDate : Z -> JSString) (h : Host)
    (records : list Expense) :
  Forall (fun e => inherited (dayOf localeDate h e) = false) records ->
  exists o,
    trendData localeDate h records = Some o /\
    List.map fst o = distinct [] (List.map (dayOf localeDate h) records) /\
    forall k, own o k = dayTotal localeDate h records k.
Proof.
  intros H. rewrite trendData_byDay.
  destruct (categoryData_spec (List.map (byDay localeDate h) records))
    as (o & E & K & T).
  { rewrite List.Forall_forall in *. intros e' He'.
    apply in_map_iff in He' as (e & <- & He). by apply H. }
  exists o. split; [exact E|]. split.
  - rewrite K, List.map_map. reflexivity.
  - intros k. rewrite T. symmetry. apply dayTotal_byDay.
Qed.

Lemma fresh_lookup {A} (m : gmap positive A) : m !! fresh (dom m) = None.
Proof. apply not_elem_of_dom, is_fresh. Qed.

Lemma destroy_lookup (chart : option positive) (live : gmap positive Chart)
    (i : positive) :
  destroy chart live !! i
  = if decide (chart = Some i) then None else live !! i.
Proof.
  destruct chart as [c|]; simpl.
  - destruct (decide (Some c = Some i)) as [[= ->]|Hne].
    + apply lookup_delete_eq.
    + apply lookup_delete_ne. congruence.
  - destruct (decide (None = Some i)); [discriminate|reflexivity].
Qed.

(** What one call of [renderCharts] leaves: the three new charts, on top of
    the instances the three variables did not hold. *)
Lemma renderCharts_runs (localeDate : Z -> JSString) (h : Host)
    (records : list Expense) (c : Charts) (cd td : JSObject) :
  categoryData records = Some cd ->
  trendData localeDate h records = Some td ->
  let B := {| canvas := js "categoryChart"; chartType := js "bar";
              labels := Object_keys cd; data := Object_values cd |} in
  let L := {| canvas := js "trendChart"; chartType := js "line";
              labels := List.map fst (sortedTrendData h td);
              data := List.map snd (sortedTrendData h td) |} in
  let P := {| canvas := js "pieChart"; chartType := js "pie";
              labels := Object_keys cd; data := Object_values cd |} in
  let stale :=
    destroy (pieChart c)
      (destroy (trendChart c) (destroy (categoryChart c) (instances c))) in
  exists bar line pie,
    renderCharts localeDate h records c
    = Some {| instances := <[pie := P]> (<[line := L]> (<[bar := B]> stale));
              categoryChart := Some bar; trendChart := Some line;
              pieChart := Some pie |} /\
    stale !! bar = None /\ stale !! line = None /\ stale !! pie = None /\
    bar <> line /\ bar <> pie /\ line <> pie.
Proof.
  intros Ec Et B L P stale. unfold renderCharts. rewrite Ec, Et. simpl.
  fold B L P stale.
  set (bar := fresh (dom stale)).
  set (line := fresh (dom (<[bar := B]> stale))).
  set (pie := fresh (dom (<[line := L]> (<[bar := B]> stale)))).
  pose proof (fresh_lookup stale) as Hb. fold bar in Hb.
  pose proof (fresh_lookup (<[bar := B]> stale)) as Hl. fold line in Hl.
  pose proof (fresh_lookup (<[line := L]> (<[bar := B]> stale))) as Hp.
  fold pie in Hp.
  apply lookup_insert_None in Hl as [Hl Hbl].
  apply lookup_insert_None in Hp as [Hp Hlp].
  apply lookup_insert_None in Hp as [Hp Hbp].
  exists bar, line, pie. auto 10.
Qed.

Lemma renderCharts_shown (localeDate : Z -> JSString) (h : Host)
    (records : list Expense) (c : Charts) (cd td : JSObject) :
  categoryData records = Some cd ->
  trendData localeDate h records = Some td ->
  exists c',
    renderCharts localeDate h records c = Some c' /\
    shown categoryChart c'
    = Some {| canvas := js "categoryChart"; chartType := js "bar";
              labels := Object_keys cd; data := Object_values cd |} /\
    shown trendChart c'
    = Some {| canvas := js "trendChart"; chartType := js "line";
              labels := List.map fst (sortedTrendData h td);
              data := List.map snd (sortedTrendData h td) |} /\
    shown pieChart c'
    = Some {| canvas := js "pieChart"; chartType := js "pie";
              labels := Object_keys cd; data := Object_values cd |}.
Proof.
  intros Ec Et.
  destruct (renderCharts_runs localeDate h records c cd td Ec Et)
    as (bar & line & pie & E & _ & _ & _ & Hbl & Hbp & Hlp).
  eexists. split; [exact E|]. unfold shown. simpl.
  rewrite lookup_insert_eq.
  rewrite (lookup_insert_ne _ pie line) by congruence.
  rewrite lookup_insert_eq.
  rewrite (lookup_insert_ne _ pie bar), (lookup_insert_ne _ line bar)
    by congruence.
  rewrite lookup_insert_eq. auto.
Qed.

(** X14.  The bar chart and the pie chart [renderCharts] makes (lines 129
    to 132, 150 to 168 and 189 to 209) have the same labels and data: one
    label for each category of the records, none twice, and at each label
    the running total of its category.  Unless a category is written like
    an array index, the labels are in the order in which the categories
    first come up. *)
Theorem renderCharts_category_series (localeDate : Z -> JSString) (h : Host)
    (records : list Expense) (c : Charts) :
  Forall (plainKeys localeDate h) records ->
  exists c' bar pie,
    renderCharts localeDate h records c = Some c' /\
    shown categoryChart c' = Some bar /\
    shown pieChart c' = Some pie /\
    labels pie = labels bar /\ data pie = data bar /\
    length (data bar) = length (labels bar) /\
    List.NoDup (labels bar) /\
    (forall k, In k (labels bar) <->
       exists e, In e records /\ category e = k) /\
    (forall i k, labels bar !! i = Some k ->
       data bar !! i = categoryTotal records k) /\
    (Forall (fun e => array_index (category e) = None) records ->
     labels bar = distinct [] (List.map category records)).
Proof.
  intros Hp.
  destruct (categoryData_spec records) as (cd & Ec & Kc & Tc).
  { eapply Forall_impl; [exact Hp|]. by intros e [? _]. }
  destruct (trendData_spec localeDate h records) as (td & Et & _).
  { eapply Forall_impl; [exact Hp|]. by intros e [_ ?]. }
  destruct (renderCharts_shown localeDate h records c cd td Ec Et)
    as (c' & E & Sb & _ & Sp).
  assert (Hnd : List.NoDup (List.map fst cd))
    by (rewrite Kc; apply distinct_NoDup).
  destruct (series_of_object cd Hnd) as (Hlen & Hk & Hperm & Hdata).
  eexists c', _, _. split; [exact E|]. split; [exact Sb|].
  split; [exact Sp|]. simpl.
  split; [reflexivity|]. split; [reflexivity|]. split; [exact Hlen|].
  split; [exact Hk|]. split; [|split].
  - intros k. rewrite Object_keys_In, Tc. apply categoryTotal_Some.
  - intros i k Hi. rewrite (Hdata i k Hi). apply Tc.
  - intros Hidx. rewrite Object_keys_entries, Object_entries_plain; [exact Kc|].
    rewrite List.Forall_forall in *. intros [k x] Hkx. simpl.
    apply (in_map fst) in Hkx. rewrite Kc in Hkx. simpl in Hkx.
    apply distinct_In in Hkx as [Hkx _].
    apply in_map_iff in Hkx as (e & <- & He). by apply Hidx.
Qed.

Lemma StronglySorted_labels (h : Host) (es : list (JSString * Number.t)) :
  Forall (fun kv => is_Some (newDate h (fst kv))) es ->
  StronglySorted
    (fun a b =>
       - match newDate h (fst b) with Some t => t | None => 0 end
       <= - match newDate h (fst a) with Some t => t | None => 0 end) es ->
  StronglySorted (notLater h) (List.map fst es).
Proof.
  intros Hd Hs. induction Hs as [|x l Hs IH Hx]; [constructor|].
  apply Forall_cons_1 in Hd as [Dx Dl]. simpl.
  constructor; [by apply IH|].
  rewrite List.Forall_forall in *. intros k Hk.
  apply in_map_iff in Hk as (y & <- & Hy).
  specialize (Hx y Hy). specialize (Dl y Hy).
  unfold notLater. destruct Dx as [tx Ex], Dl as [ty Ey].
  rewrite Ex, Ey in *. lia.
Qed.

Lemma StronglySorted_lookup {A} (R : A -> A -> Prop) (l : list A) :
  StronglySorted R l ->
  forall (i j : nat) (a b : A),
    (i < j)%nat -> l !! i = Some a -> l !! j = Some b -> R a b.
Proof.
  induction 1 as [|x l Hs IH Hx]; intros i j a b Hij Hi Hj;
    [destruct i; discriminate|].
  destruct j as [|j]; [lia|]. simpl in Hj. destruct i as [|i].
  - injection Hi as <-. rewrite List.Forall_forall in Hx. apply Hx.
    apply list_elem_of_In. by eapply list_elem_of_lookup_2.
  - simpl in Hi. apply (IH i j); [lia|assumption..].
Qed.

(** Label texts that read back as the records' own dates read back in the
    order of these dates. *)
Lemma readsBack_own_date (localeDate : Z -> JSString) (h : Host)
    (records : list Expense) :
  (forall e, In e records -> newDate h (dayOf localeDate h e) = timeOf h e) ->
  readsBackInOrder localeDate h records.
Proof.
  intros Hown e e' t t' u u' He He' Ht Ht' Hu Hu' _ Hlt.
  rewrite (Hown e He), Ht in Hu. rewrite (Hown e' He'), Ht' in Hu'.
  injection Hu as <-. injection Hu' as <-. exact Hlt.
Qed.

(** X15.  The line chart (lines 134 to 142 and 171 to 186) has one point
    for each text the locale gives the dates of the records, none twice,
    with the running total of the records of that text.  When these texts
    parse as dates again, the points are in ascending order of the dates
    the texts parse to, the key of the sort of line 141; that is the order
    of the records' dates when the records have dates and the texts read
    back in the order of these dates: then no record of a point is dated
    later than a record of a point after it. *)
Theorem renderCharts_trend_series (localeDate : Z -> JSString) (h : Host)
    (records : list Expense) (c : Charts) :
  Forall (plainKeys localeDate h) records ->
  exists c' line,
    renderCharts localeDate h records c = Some c' /\
    shown trendChart c' = Some line /\
    length (data line) = length (labels line) /\
    List.NoDup (labels line) /\
    (forall k, In k (labels line) <->
       exists e, In e records /\ dayOf localeDate h e = k) /\
    (forall i k, labels line !! i = Some k ->
       data line !! i = dayTotal localeDate h records k) /\
    (Forall (fun e => is_Some (newDate h (dayOf localeDate h e))) records ->
     StronglySorted (notLater h) (labels line) /\
     (Forall (dated h) records ->
      readsBackInOrder localeDate h records ->
      forall (i j : nat) (e e' : Expense),
        (i < j)%nat -> In e records -> In e' records ->
        labels line !! i = Some (dayOf localeDate h e) ->
        labels line !! j = Some (dayOf localeDate h e') ->
        notEarlier h e' e)).
Proof.
  intros Hp.
  destruct (categoryData_spec records) as (cd & Ec & _).
  { eapply Forall_impl; [exact Hp|]. by intros e [? _]. }
  destruct (trendData_spec localeDate h records) as (td & Et & Kt & Tt).
  { eapply Forall_impl; [exact Hp|]. by intros e [_ ?]. }
  destruct (renderCharts_shown localeDate h records c cd td Ec Et)
    as (c' & E & _ & Sl & _).
  assert (Hnd : List.NoDup (List.map fst td))
    by (rewrite Kt; apply distinct_NoDup).
  assert (Hperm : Permutation (sortedTrendData h td) td).
  { unfold sortedTrendData. rewrite sorted_by_perm.
    apply Object_entries_perm. }
  assert (Hin : forall k, In k (List.map fst td) <->
                  exists e, In e records /\ dayOf localeDate h e = k).
  { intros k. rewrite Kt, distinct_In, in_map_iff. simpl. split.
    - intros [(e & Ee & He) _]. by exists e.
    - intros (e & He & Ee). split; [by exists e|tauto]. }
  assert (Hnd' : List.NoDup (List.map fst (sortedTrendData h td))).
  { eapply Permutation_NoDup; [|exact Hnd].
    symmetry. by apply Permutation_map. }
  eexists c', _. split; [exact E|]. split; [exact Sl|]. simpl.
  split; [by rewrite !length_map|]. split; [exact Hnd'|].
  split; [|split].
  - intros k. rewrite <- Hin. split; apply Permutation_in;
      [by apply Permutation_map | symmetry; by apply Permutation_map].
  - intros i k. rewrite !map_lookup.
    destruct (sortedTrendData h td !! i) as [[k' x]|] eqn:Ei; [|discriminate].
    simpl. intros [= ->]. rewrite <- Tt. symmetry.
    apply own_NoDup_In; [exact Hnd|].
    apply (Permutation_in _ Hperm).
    apply list_elem_of_In. by eapply list_elem_of_lookup_2.
  - intros Hd.
    assert (Hes : Forall (fun kv => is_Some (newDate h (fst kv)))
                    (Object_entries td)).
    { rewrite List.Forall_forall in *. intros kv Hkv.
      apply (Permutation_in _ (Object_entries_perm td)) in Hkv.
      apply (in_map fst), Hin in Hkv as (e & He & <-). by apply Hd. }
    assert (Hs : StronglySorted (notLater h)
                   (List.map fst (sortedTrendData h td))).
    { apply StronglySorted_labels.
      - rewrite List.Forall_forall in *. intros kv Hkv. apply Hes.
        unfold sortedTrendData in Hkv.
        by apply (proj1 (sorted_by_In _ _ _)) in Hkv.
      - unfold sortedTrendData.
        apply (sorted_by_sorted (byLabelDate h)
                 (fun kv => is_Some (newDate h (fst kv)))
                 (fun kv => - match newDate h (fst kv) with
                              | Some t => t | None => 0 end));
          [|exact Hes].
        intros x y [tx Ex] [ty Ey]. unfold byLabelDate. rewrite Ex, Ey. lia. }
    split; [exact Hs|].
    intros Hdated Hback i j e e' Hij He He' Hi Hj.
    pose proof (StronglySorted_lookup _ _ Hs i j _ _ Hij Hi Hj) as Hle.
    rewrite List.Forall_forall in Hdated.
    destruct (Hdated e He) as [t Ht], (Hdated e' He') as [t' Ht'].
    unfold notEarlier. rewrite Ht, Ht'.
    unfold notLater in Hle.
    destruct (newDate h (dayOf localeDate h e)) as [u|] eqn:Eu; [|done].
    destruct (newDate h (dayOf localeDate h e')) as [u'|] eqn:Eu'; [|done].
    destruct (Z.le_gt_cases t t') as [Hok|Hlt]; [exact Hok|]. exfalso.
    assert (Hne : dayOf localeDate h e' <> dayOf localeDate h e).
    { intros Heq. rewrite Heq in Hj.
      pose proof (NoDup_lookup _ _ _ _ (proj2 (NoDup_ListNoDup _) Hnd') Hi Hj).
      lia. }
    pose proof (Hback e' e t' t u' u He' He Ht' Ht Eu' Eu Hne Hlt). lia.
Qed.

(** The charts the three variables hold are the live ones. *)
Lemma renderCharts_tidy (localeDate : Z -> JSString) (h : Host)
    (records : list Expense) (c : Charts) :
  Forall (plainKeys localeDate h) records ->
  (forall i, is_Some (instances c !! i) ->
     categoryChart c = Some i \/ trendChart c = Some i
     \/ pieChart c = Some i) ->
  exists c' bar line pie,
    renderCharts localeDate h records c = Some c' /\
    categoryChart c' = Some bar /\ trendChart c' = Some line /\
    pieChart c' = Some pie /\
    List.NoDup [bar; line; pie] /\
    (forall i, is_Some (instances c' !! i) <-> In i [bar; line; pie]) /\
    option_map canvas (instances c' !! bar) = Some (js "categoryChart") /\
    option_map canvas (instances c' !! line) = Some (js "trendChart") /\
    option_map canvas (instances c' !! pie) = Some (js "pieChart").
Proof.
  intros Hp Htidy.
  destruct (categoryData_spec records) as (cd & Ec & _).
  { eapply Forall_impl; [exact Hp|]. by intros e [? _]. }
  destruct (trendData_spec localeDate h records) as (td & Et & _).
  { eapply Forall_impl; [exact Hp|]. by intros e [_ ?]. }
  destruct (renderCharts_runs localeDate h records c cd td Ec Et)
    as (bar & line & pie & E & _ & _ & _ & Hbl & Hbp & Hlp).
  assert (Hstale : forall i,
            destroy (pieChart c)
              (destroy (trendChart c)
                 (destroy (categoryChart c) (instances c))) !! i = None).
  { intros i. rewrite !destroy_lookup.
    repeat (case_match; [reflexivity|]).
    destruct (instances c !! i) eqn:Ei; [|reflexivity].
    destruct (Htidy i) as [?|[?|?]]; [by eexists|congruence..]. }
  eexists _, bar, line, pie. split; [exact E|]. simpl.
  split; [reflexivity|]. split; [reflexivity|]. split; [reflexivity|].
  split; [|split].
  - repeat constructor; simpl; intuition congruence.
  - intros i. rewrite !lookup_insert_is_Some', Hstale. simpl.
    split; [|intuition (by eexists)].
    intros [?|[?|[?|[x Hx]]]]; [auto..|discriminate].
  - rewrite lookup_insert_eq.
    rewrite (lookup_insert_ne _ pie line) by congruence.
    rewrite lookup_insert_eq.
    rewrite (lookup_insert_ne _ pie bar), (lookup_insert_ne _ line bar)
      by congruence.
    rewrite lookup_insert_eq. auto.
Qed.

(** X16.  However often [renderCharts] is called (lines 144 to 147), three
    charts are live after the calls, the ones the three variables hold, one
    on each canvas: the charts of the calls before are destroyed. *)
Theorem renderCharts_three_live (localeDate : Z -> JSString) (h : Host)
    (calls : list (list Expense)) :
  calls <> [] ->
  Forall (Forall (plainKeys localeDate h)) calls ->
  exists c' bar line pie,
    renderAll localeDate h calls noCharts = Some c' /\
    categoryChart c' = Some bar /\ trendChart c' = Some line /\
    pieChart c' = Some pie /\
    List.NoDup [bar; line; pie] /\
    (forall i, is_Some (instances c' !! i) <-> In i [bar; line; pie]) /\
    option_map canvas (instances c' !! bar) = Some (js "categoryChart") /\
    option_map canvas (instances c' !! line) = Some (js "trendChart") /\
    option_map canvas (instances c' !! pie) = Some (js "pieChart").
Proof.
  assert (Hgen : forall calls c,
    calls <> [] ->
    Forall (Forall (plainKeys localeDate h)) calls ->
    (forall i, is_Some (instances c !! i) ->
       categoryChart c = Some i \/ trendChart c = Some i
       \/ pieChart c = Some i) ->
    exists c' bar line pie,
      renderAll localeDate h calls c = Some c' /\
      categoryChart c' = Some bar /\ trendChart c' = Some line /\
      pieChart c' = Some pie /\
      List.NoDup [bar; line; pie] /\
      (forall i, is_Some (instances c' !! i) <-> In i [bar; line; pie]) /\
      option_map canvas (instances c' !! bar) = Some (js "categoryChart") /\
      option_map canvas (instances c' !! line) = Some (js "trendChart") /\
      option_map canvas (instances c' !! pie) = Some (js "pieChart")).
  { clear calls. induction calls as [|records calls IH]; [congruence|].
    intros c _ Hp Htidy. apply Forall_cons_1 in Hp as [Hr Hp].
    destruct (renderCharts_tidy localeDate h records c Hr Htidy)
      as (c1 & bar & line & pie & E & Hb & Hl & Hpi & Hnd & Hlive & Hcv).
    simpl. rewrite E. destruct calls as [|records' calls].
    - simpl. exists c1, bar, line, pie. auto 10.
    - apply IH; [congruence|exact Hp|].
      intros i Hi. apply Hlive in Hi. simpl in Hi.
      rewrite Hb, Hl, Hpi. intuition congruence. }
  intros Hne Hp. apply (Hgen calls noCharts Hne Hp).
  intros i [x Hx]. simpl in Hx. by rewrite lookup_empty in Hx.
Qed.

Lemma renderCharts_category_series_witness :
  exists c' bar pie,
    renderCharts localeDate0 host0 ledger0 noCharts = Some c' /\
    shown categoryChart c' = Some bar /\
    shown pieChart c' = Some pie /\
    labels pie = labels bar /\ data pie = data bar /\
    length (data bar) = length (labels bar) /\
    List.NoDup (labels bar) /\
    (forall k, In k (labels bar) <->
       exists e, In e ledger0 /\ category e = k) /\
    (forall i k, labels bar !! i = Some k ->
       data bar !! i = categoryTotal ledger0 k) /\
    (Forall (fun e => array_index (category e) = None) ledger0 ->
     labels bar = distinct [] (List.map category ledger0)).
Proof.
  apply (renderCharts_category_series localeDate0 host0 ledger0 noCharts).
  repeat constructor.
Defined.

(** On [ledger0] with the later day first the sort changes the order of
    the two points. *)
Lemma renderCharts_trend_series_witness :
  exists c' line,
    renderCharts localeDate0 host0 ledgerLatestFirst noCharts = Some c' /\
    shown trendChart c' = Some line /\
    labels line = [js "2024-01-01"; js "2024-01-08"] /\
    length (data line) = length (labels line) /\
    List.NoDup (labels line) /\
    (forall k, In k (labels line) <->
       exists e, In e ledgerLatestFirst /\ dayOf localeDate0 host0 e = k) /\
    (forall i k, labels line !! i = Some k ->
       data line !! i = dayTotal localeDate0 host0 ledgerLatestFirst k) /\
    StronglySorted (notLater host0) (labels line) /\
    (forall (i j : nat) (e e' : Expense),
       (i < j)%nat -> In e ledgerLatestFirst -> In e' ledgerLatestFirst ->
       labels line !! i = Some (dayOf localeDate0 host0 e) ->
       labels line !! j = Some (dayOf localeDate0 host0 e') ->
       notEarlier host0 e' e).
Proof.
  destruct (renderCharts_trend_series localeDate0 host0 ledgerLatestFirst
              noCharts) as (c' & line & E & Sl & Hlen & Hnd & Hin & Hdata & Hs).
  { repeat constructor. }
  assert (Hl : labels line = [js "2024-01-01"; js "2024-01-08"]).
  { pose proof E as E'. vm_compute in E'. injection E' as <-.
    vm_compute in Sl. injection Sl as <-. reflexivity. }
  destruct Hs as [Hs Hord].
  { repeat constructor; eexists; vm_compute; reflexivity. }
  exists c', line. split; [exact E|]. split; [exact Sl|].
  split; [exact Hl|]. split; [exact Hlen|]. split; [exact Hnd|].
  split; [exact Hin|]. split; [exact Hdata|]. split; [exact Hs|].
  apply Hord.
  - repeat constructor; eexists; vm_compute; reflexivity.
  - apply readsBack_own_date.
    intros e [<-|[<-|[<-|[]]]]; vm_compute; reflexivity.
Defined.

(** A day-first locale text read month first: the point of 1 February
    comes before that of 8 January, as [01/02/2024] reads back as
    2 January and [08/01/2024] as 1 August. *)
Example renderCharts_day_first_locale :
  Forall (plainKeys localeDayFirst hostMonthFirst)
    [food50; onDay 6 (js "2024-02-01")] /\
  Forall (fun e => is_Some (newDate hostMonthFirst
                              (dayOf localeDayFirst hostMonthFirst e)))
    [food50; onDay 6 (js "2024-02-01")] /\
  option_map (fun c => option_map labels (shown trendChart c))
    (renderCharts localeDayFirst hostMonthFirst
       [food50; onDay 6 (js "2024-02-01")] noCharts)
  = Some (Some [js "01/02/2024"; js "08/01/2024"]).
Proof.
  split; [repeat constructor|].
  split; [repeat constructor; eexists; vm_compute; reflexivity|].
  vm_compute. reflexivity.
Qed.

Lemma renderCharts_three_live_witness :
  exists c' bar line pie,
    renderAll localeDate0 host0 [ledger0; example; []] noCharts = Some c' /\
    categoryChart c' = Some bar /\ trendChart c' = Some line /\
    pieChart c' = Some pie /\
    List.NoDup [bar; line; pie] /\
    (forall i, is_Some (instances c' !! i) <-> In i [bar; line; pie]) /\
    option_map canvas (instances c' !! bar) = Some (js "categoryChart") /\
    option_map canvas (instances c' !! line) = Some (js "trendChart") /\
    option_map canvas (instances c' !! pie) = Some (js "pieChart").
Proof.
  apply (renderCharts_three_live localeDate0 host0 [ledger0; example; []]).
  - discriminate.
  - repeat constructor.
Defined.

Example renderCharts_ledger0 :
  option_map (fun c => (shown categoryChart c, shown trendChart c))
    (renderCharts localeDate0 host0 ledger0 noCharts)
  = Some
      (Some {| canvas := js "categoryChart"; chartType := js "bar";
               labels := [js "Food"; js "Rent"];
               data := [Number.of_Z 150; Number.of_Z 150] |},
       Some {| canvas := js "trendChart"; chartType := js "line";
               labels := [js "2024-01-01"; js "2024-01-08"];
               data := [Number.of_Z 100; Number.of_Z 200] |}).
Proof. vm_compute. reflexivity. Qed.

(* ===================================================================== *)
(** ** The page as a whole *)
(* ===================================================================== *)

(** [applyFilters] with the table and the charts: all of them are made from
    the same rows. *)
Lemma applyFiltersView_runs (localeDate : Z -> JSString) (h : Host) (now : Z)
    (s : State) (c : Charts) (v : list Expense) (cd td : JSObject) :
  ledger s = Some v ->
  let rows :=
    sorted_by (byDateDesc h)
      (List.filter
         (keeps h now (filterCategorySelect s) (filterTimeSelect s)) v) in
  categoryData rows = Some cd ->
  trendData localeDate h rows = Some td ->
  exists view s',
    applyFiltersView localeDate h now s c = Some (view, s') /\
    table view = renderExpenses localeDate h rows /\
    panel view = updateInsights h rows /\
    shown categoryChart (charts view)
    = Some {| canvas := js "categoryChart"; chartType := js "bar";
              labels := Object_keys cd; data := Object_values cd |} /\
    shown trendChart (charts view)
    = Some {| canvas := js "trendChart"; chartType := js "line";
              labels := List.map fst (sortedTrendData h td);
              data := List.map snd (sortedTrendData h td) |} /\
    shown pieChart (charts view)
    = Some {| canvas := js "pieChart"; chartType := js "pie";
              labels := Object_keys cd; data := Object_values cd |} /\
    ledger s' = Some v /\
    localStorage s' = localStorage s /\
    filterCategorySelect s' = filterCategorySelect s /\
    filterTimeSelect s' = filterTimeSelect s.
Proof.
  intros Hv rows Ec Et.
  destruct (applyFilters_runs h now s v Hv)
    as (page & s' & E & Hrows & Hpanel & He & Hl & Hfc & Hft & Hh).
  fold rows in Hrows.
  destruct (renderCharts_shown localeDate h rows c cd td Ec Et)
    as (c' & Er & Sb & Sl & Sp).
  unfold applyFiltersView. rewrite E. simpl. rewrite Hrows, Er. simpl.
  eexists _, _. split; [reflexivity|]. simpl.
  rewrite Hpanel, Hrows.
  repeat split; try assumption.
  unfold ledger. rewrite He. apply Hh. exact Hv.
Qed.

(** X17.  When no record of the ledger passes the filters, the page shows
    the one row [No expenses found.], the panel of an empty ledger, and
    three charts without labels or data; the ledger is as it was. *)
Theorem applyFiltersView_nothing_to_show (localeDate : Z -> JSString)
    (h : Host) (now : Z) (s : State) (c : Charts) (v : list Expense) :
  ledger s = Some v ->
  (forall e, In e v ->
     keeps h now (filterCategorySelect s) (filterTimeSelect s) e = false) ->
  exists view s',
    applyFiltersView localeDate h now s c = Some (view, s') /\
    table view = [noExpensesRow] /\
    panel view
    = Some {| totalSpendEl := js "0.00";
              highestCategoryEl := js "-";
              avgSpendEl := js "0.00";
              suggestionEl := js "Add an expense to get started!" |} /\
    option_map labels (shown categoryChart (charts view)) = Some [] /\
    option_map data (shown categoryChart (charts view)) = Some [] /\
    option_map labels (shown trendChart (charts view)) = Some [] /\
    option_map data (shown trendChart (charts view)) = Some [] /\
    option_map labels (shown pieChart (charts view)) = Some [] /\
    option_map data (shown pieChart (charts view)) = Some [] /\
    ledger s' = Some v.
Proof.
  intros Hv Hnone.
  assert (Hrows : List.filter
            (keeps h now (filterCategorySelect s) (filterTimeSelect s)) v = []).
  { clear Hv. induction v as [|e v IH]; [reflexivity|]. simpl.
    rewrite (Hnone e (or_introl eq_refl)). apply IH.
    intros e' He'. apply Hnone. by right. }
  destruct (applyFiltersView_runs localeDate h now s c v [] [] Hv)
    as (view & s' & E & Ht & Hp & Sb & Sl & Sp & Hl & _);
    [by rewrite Hrows..|].
  exists view, s'. split; [exact E|].
  rewrite Ht, Hp, Sb, Sl, Sp, Hrows. simpl. auto 10.
Qed.

Lemma applyFiltersView_nothing_to_show_witness :
  exists view s',
    applyFiltersView localeDate0 host0 now0
      (selectCategory (js "Travel") state0) noCharts = Some (view, s') /\
    table view = [noExpensesRow] /\
    panel view
    = Some {| totalSpendEl := js "0.00";
              highestCategoryEl := js "-";
              avgSpendEl := js "0.00";
              suggestionEl := js "Add an expense to get started!" |} /\
    option_map labels (shown categoryChart (charts view)) = Some [] /\
    option_map data (shown categoryChart (charts view)) = Some [] /\
    option_map labels (shown trendChart (charts view)) = Some [] /\
    option_map data (shown trendChart (charts view)) = Some [] /\
    option_map labels (shown pieChart (charts view)) = Some [] /\
    option_map data (shown pieChart (charts view)) = Some [] /\
    ledger s' = Some ledger0.
Proof.
  apply (applyFiltersView_nothing_to_show localeDate0 host0 now0
           (selectCategory (js "Travel") state0) noCharts ledger0).
  - reflexivity.
  - intros e [<-|[<-|[<-|[]]]]; reflexivity.
Defined.

Lemma distinct_seen (l seen : list JSString) :
  (forall x, In x l -> In x seen) -> distinct seen l = [].
Proof.
  induction l as [|x l IH]; simpl; intros H; [reflexivity|].
  replace (existsb (str_eqb x) seen) with true
    by (symmetry; apply existsb_str_In; auto).
  apply IH. auto.
Qed.

Lemma distinct_constant (l : list JSString) (c : JSString) :
  (forall x, In x l -> x = c) ->
  distinct [] l = match l with [] => [] | _ :: _ => [c] end.
Proof.
  destruct l as [|x l]; [reflexivity|]. intros H. simpl.
  rewrite (H x (or_introl eq_refl)). f_equal.
  apply distinct_seen. intros y Hy. left. symmetry. apply H. by right.
Qed.

(** X18.  Under a category filter the bar chart has at most one bar, that
    of the category chosen, and when there is a row to show the insights
    panel names that category, whatever the amounts are. *)
Theorem applyFiltersView_one_category (localeDate : Z -> JSString)
    (h : Host) (now : Z) (s : State) (c : Charts) (v : list Expense) :
  ledger s = Some v ->
  Forall (plainKeys localeDate h) v ->
  filterCategorySelect s <> js "All" ->
  exists view s' bar page,
    applyFiltersView localeDate h now s c = Some (view, s') /\
    shown categoryChart (charts view) = Some bar /\
    applyFilters h now s = Some (page, s') /\
    labels bar
    = match tableRows page with
      | [] => []
      | _ :: _ => [filterCategorySelect s]
      end /\
    (tableRows page <> [] ->
     option_map highestCategoryEl (panel view)
     = Some (filterCategorySelect s)).
Proof.
  intros Hv Hp Hc.
  set (rows := sorted_by (byDateDesc h)
                 (List.filter
                    (keeps h now (filterCategorySelect s)
                       (filterTimeSelect s)) v)).
  assert (Hin : forall e, In e rows ->
                  In e v /\ category e = filterCategorySelect s).
  { intros e He. apply (proj1 (sorted_by_In _ _ _)), filter_In in He.
    destruct He as [He Hk]. split; [exact He|].
    unfold keeps in Hk. apply andb_true_iff in Hk as [Hk _].
    apply str_eqb_neq in Hc. rewrite Hc in Hk. simpl in Hk.
    by apply str_eqb_eq. }
  assert (Hpr : Forall (plainKeys localeDate h) rows).
  { rewrite List.Forall_forall in *. intros e He. apply Hp, Hin, He. }
  destruct (categoryData_spec rows) as (cd & Ec & Kc & Tc).
  { eapply Forall_impl; [exact Hpr|]. by intros e [? _]. }
  destruct (trendData_spec localeDate h rows) as (td & Et & _).
  { eapply Forall_impl; [exact Hpr|]. by intros e [_ ?]. }
  destruct (applyFiltersView_runs localeDate h now s c v cd td Hv Ec Et)
    as (view & s' & E & _ & Hpanel & Sb & _).
  fold rows in Hpanel.
  assert (Ea : exists page, applyFilters h now s = Some (page, s')
                            /\ tableRows page = rows).
  { unfold applyFiltersView in E.
    destruct (applyFilters_runs h now s v Hv) as (page & s1 & E1 & R1 & _).
    rewrite E1 in E. simpl in E.
    destruct (renderCharts localeDate h (tableRows page) c); [|discriminate].
    injection E as _ <-. by exists page. }
  destruct Ea as (page & Ea & Hrows).
  assert (Hkeys : List.map fst cd
                  = match rows with
                    | [] => []
                    | _ :: _ => [filterCategorySelect s]
                    end).
  { rewrite Kc, (distinct_constant _ (filterCategorySelect s)).
    - by destruct rows.
    - intros x Hx. apply in_map_iff in Hx as (e & <- & He). apply Hin, He. }
  assert (Hlab : Object_keys cd
                 = match rows with
                   | [] => []
                   | _ :: _ => [filterCategorySelect s]
                   end).
  { pose proof (Object_keys_perm cd) as Hperm. rewrite Hkeys in Hperm.
    destruct rows.
    - by apply Permutation_nil, Permutation_sym.
    - by apply Permutation_length_1_inv, Permutation_sym. }
  eexists view, s', _, page. split; [exact E|]. split; [exact Sb|].
  split; [exact Ea|]. rewrite Hrows. simpl. split; [exact Hlab|].
  intros Hne. rewrite Hpanel. clear Hin Hpr E Hrows Ea.
  clearbody rows.
  destruct rows as [|r rows']; [congruence|].
  unfold updateInsights.
  change (categorySpends (r :: rows')) with (categoryData (r :: rows')).
  rewrite Ec. simpl. f_equal.
  unfold highestCategory. rewrite Hlab. simpl.
  assert (Hgt : spends_gt cd (js "-") (filterCategorySelect s) = false).
  { unfold spends_gt.
    destruct (own cd (js "-")) as [x|] eqn:Ex; [|reflexivity].
    assert (Hk : In (js "-") (List.map fst cd))
      by (apply own_In; by eexists).
    rewrite Hkeys in Hk. destruct Hk as [Hk|[]]. rewrite Hk, Ex.
    apply gt_irrefl. }
  by rewrite Hgt.
Qed.

Lemma applyFiltersView_one_category_witness :
  exists view s' bar page,
    applyFiltersView localeDate0 host0 now0 state0 noCharts
    = Some (view, s') /\
    shown categoryChart (charts view) = Some bar /\
    applyFilters host0 now0 state0 = Some (page, s') /\
    labels bar
    = match tableRows page with
      | [] => []
      | _ :: _ => [filterCategorySelect state0]
      end /\
    (tableRows page <> [] ->
     option_map highestCategoryEl (panel view)
     = Some (filterCategorySelect state0)).
Proof.
  apply (applyFiltersView_one_category localeDate0 host0 now0 state0 noCharts
           ledger0).
  - reflexivity.
  - repeat constructor.
  - discriminate.
Defined.

(** X19.  [initialize] (lines 325 to 331) on an empty ledger, as on a
    first visit: the table holds the row [No expenses found.], the panel
    is that of an empty ledger, three charts are made, without labels,
    and the category filter offers [All] alone. *)
Theorem initialize_empty (localeDate : Z -> JSString) (h : Host) (now : Z)
    (s : State) :
  ledger s = Some [] ->
  exists view s',
    initialize localeDate h now s = Some (view, s') /\
    option_map fst (populateFilterCategories s) = Some [js "All"] /\
    table view = [noExpensesRow] /\
    panel view
    = Some {| totalSpendEl := js "0.00";
              highestCategoryEl := js "-";
              avgSpendEl := js "0.00";
              suggestionEl := js "Add an expense to get started!" |} /\
    option_map labels (shown categoryChart (charts view)) = Some [] /\
    option_map labels (shown trendChart (charts view)) = Some [] /\
    option_map labels (shown pieChart (charts view)) = Some [] /\
    ledger s' = Some [] /\
    localStorage s' = localStorage s.
Proof.
  intros Hv. unfold initialize, populateFilterCategories. rewrite Hv. simpl.
  set (s1 := {| heap := heap s; expenses := expenses s;
                localStorage := localStorage s;
                filterCategorySelect := js "All";
                filterTimeSelect := filterTimeSelect s |}).
  destruct (applyFiltersView_runs localeDate h now s1 noCharts [] [] [] Hv)
    as (view & s' & E & Ht & Hp & Sb & Sl & Sp & Hl & Hs & _);
    [reflexivity..|].
  exists view, s'. split; [exact E|].
  rewrite Ht, Hp, Sb, Sl, Sp. simpl. auto 10.
Qed.

Lemma initialize_empty_witness :
  exists view s',
    initialize localeDate0 host0 now0 emptyState = Some (view, s') /\
    option_map fst (populateFilterCategories emptyState) = Some [js "All"] /\
    table view = [noExpensesRow] /\
    panel view
    = Some {| totalSpendEl := js "0.00";
              highestCategoryEl := js "-";
              avgSpendEl := js "0.00";
              suggestionEl := js "Add an expense to get started!" |} /\
    option_map labels (shown categoryChart (charts view)) = Some [] /\
    option_map labels (shown trendChart (charts view)) = Some [] /\
    option_map labels (shown pieChart (charts view)) = Some [] /\
    ledger s' = Some [] /\
    localStorage s' = localStorage emptyState.
Proof.
  apply (initialize_empty localeDate0 host0 now0 emptyState). reflexivity.
Defined.

(* ===================================================================== *)
(** ** The category select of the form *)
(* ===================================================================== *)

(** X20.  When the user picks [addNew] and cancels the prompt, or enters
    nothing, the select reads as the empty string and its options are as
    they were; a submission made then is rejected with the alert, whatever
    the other fields hold. *)
Theorem categoryChanged_cancelled (h : Host)
    (stringify : list Expense -> JSString) (clock : Clock)
    (answer : option JSString) (sel : Select) (s : State)
    (amountText dateText descriptionText : JSString) :
  value sel = js "addNew" ->
  answer = None \/ answer = Some [] ->
  exists sel',
    categoryChanged answer sel s = Some (sel', s) /\
    value sel' = [] /\ options sel' = options sel /\
    submit h stringify clock
      (formOf amountText dateText descriptionText sel') s
    = Some (Alert (js "Please fill in all required fields."), s).
Proof.
  intros Hsel Hans. unfold categoryChanged. rewrite Hsel.
  change (str_eqb (js "addNew") (js "addNew")) with true. cbv iota.
  eexists. split.
  - destruct Hans as [-> | ->]; reflexivity.
  - simpl. split; [reflexivity|]. split; [reflexivity|].
    apply submit_rejects. right. right. reflexivity.
Qed.

Lemma categoryChanged_cancelled_witness :
  exists sel',
    categoryChanged None
      {| options := [[]; js "Food"; js "addNew"]; value := js "addNew" |}
      state0
    = Some (sel', state0) /\
    value sel' = [] /\
    options sel' = [[]; js "Food"; js "addNew"] /\
    submit host0 stringify0 clock0
      (formOf (js "12.5") (js "2024-01-10") (js "lunch") sel') state0
    = Some (Alert (js "Please fill in all required fields."), state0).
Proof.
  apply (categoryChanged_cancelled host0 stringify0 clock0 None
           {| options := [[]; js "Food"; js "addNew"]; value := js "addNew" |}
           state0 (js "12.5") (js "2024-01-10") (js "lunch")).
  - reflexivity.
  - left. reflexivity.
Defined.

Lemma addBeforeLast_spec (opt : JSString) (front : list JSString)
    (final : JSString) :
  addBeforeLast opt (front ++ [final]) = front ++ [opt; final].
Proof.
  unfold addBeforeLast.
  destruct (front ++ [final]) as [|x l] eqn:E.
  - by destruct front.
  - rewrite <- E, removelast_last, last_last. reflexivity.
Qed.

(** X21.  A name entered at the prompt becomes an option of the form's
    select just before its last option, also when the select has an option
    of that name already.  The ledger and the storage stay as they are, and
    so do the options of the category filter: they are rebuilt from the
    ledger, and have the new name only when a record has it. *)
Theorem categoryChanged_added (newCategory : JSString)
    (front : list JSString) (final : JSString) (s : State)
    (v : list Expense) :
  ledger s = Some v ->
  newCategory <> [] ->
  exists sel' s',
    categoryChanged (Some newCategory)
      {| options := front ++ [final]; value := js "addNew" |} s
    = Some (sel', s') /\
    options sel' = front ++ [newCategory; final] /\
    ledger s' = Some v /\
    localStorage s' = localStorage s /\
    option_map fst (populateFilterCategories s')
    = option_map fst (populateFilterCategories s) /\
    forall filterOptions,
      option_map fst (populateFilterCategories s') = Some filterOptions ->
      (In newCategory filterOptions <->
       newCategory = js "All" \/ exists e, In e v /\ category e = newCategory).
Proof.
  intros Hv Hne. unfold categoryChanged. simpl.
  change (str_eqb (js "addNew") (js "addNew")) with true. cbv iota.
  apply str_eqb_neq in Hne. rewrite Hne. simpl.
  unfold populateFilterCategories at 1. rewrite Hv. simpl.
  eexists _, _. split; [reflexivity|]. simpl.
  split; [apply addBeforeLast_spec|].
  split; [exact Hv|]. split; [reflexivity|].
  unfold populateFilterCategories, ledger. simpl.
  unfold ledger in Hv. rewrite Hv. simpl. split; [reflexivity|].
  intros filterOptions [= <-]. simpl.
  rewrite distinct_In, in_map_iff. simpl. split.
  - intros [E|[(e & E & He) _]]; [by left|right; by exists e].
  - intros [E|(e & He & E)]; [by left|right]. split; [by exists e|tauto].
Qed.

Lemma categoryChanged_added_witness :
  exists sel' s',
    categoryChanged (Some (js "Travel"))
      {| options := [[]; js "Food"] ++ [js "addNew"]; value := js "addNew" |}
      state0
    = Some (sel', s') /\
    options sel' = [[]; js "Food"] ++ [js "Travel"; js "addNew"] /\
    ledger s' = Some ledger0 /\
    localStorage s' = localStorage state0 /\
    option_map fst (populateFilterCategories s')
    = option_map fst (populateFilterCategories state0) /\
    forall filterOptions,
      option_map fst (populateFilterCategories s') = Some filterOptions ->
      (In (js "Travel") filterOptions <->
       js "Travel" = js "All"
       \/ exists e, In e ledger0 /\ category e = js "Travel").
Proof.
  apply (categoryChanged_added (js "Travel") [[]; js "Food"] (js "addNew")
           state0 ledger0).
  - reflexivity.
  - discriminate.
Defined.

(* ===================================================================== *)
(** ** The category totals of whole amounts *)
(* ===================================================================== *)

Lemma or_zero_of_Z (z : Z) :
  Z.abs z <= 2 ^ 53 -> or_zero (Number.of_Z z) = Number.of_Z z.
Proof.
  intros Hz. destruct (Z.eq_dec z 0) as [->|Hne]; [reflexivity|].
  destruct (whole_canonical (Z.abs z)) as (c & ec & Hd & Hec & Hc); [lia|].
  rewrite (of_Z_whole z c ec) by (assumption || lia). reflexivity.
Qed.

Lemma totalStep_whole (records : list Expense) (k : JSString) :
  forall a,
    Forall whole records ->
    Z.abs a + magnitudeOf records <= 2 ^ 53 ->
    fold_left (totalStep k) records (Some (Number.of_Z a))
    = Some (Number.of_Z (a + sumOf (ofCategory k records))).
Proof.
  induction records as [|e records IH]; simpl; intros a Hw Hb.
  - by rewrite Z.add_0_r.
  - apply Forall_cons_1 in Hw as [He Hw].
    pose proof (magnitudeOf_nonneg records).
    unfold totalStep at 2. destruct (str_eqb (category e) k).
    + unfold whole in He. set (z := Number.to_Z (amount e)) in *.
      rewrite He, or_zero_of_Z, add_of_Z by lia.
      rewrite IH by (assumption || lia). simpl. fold z. do 2 f_equal. lia.
    + apply IH; [assumption|lia].
Qed.

Lemma categoryTotal_whole (records : list Expense) (k : JSString) :
  Forall whole records ->
  magnitudeOf records <= 2 ^ 53 ->
  categoryTotal records k
  = match ofCategory k records with
    | [] => None
    | _ :: _ => Some (Number.of_Z (sumOf (ofCategory k records)))
    end.
Proof.
  unfold categoryTotal.
  induction records as [|e records IH]; simpl; intros Hw Hb; [reflexivity|].
  apply Forall_cons_1 in Hw as [He Hw].
  pose proof (magnitudeOf_nonneg records).
  unfold totalStep at 2. destruct (str_eqb (category e) k).
  - unfold whole in He. set (z := Number.to_Z (amount e)) in *.
    rewrite He. change Number.zero with (Number.of_Z 0).
    rewrite add_of_Z by lia.
    rewrite totalStep_whole by (assumption || lia). simpl. fold z.
    do 2 f_equal.
  - apply IH; [assumption|lia].
Qed.

Lemma ofCategory_perm (k : JSString) (l l' : list Expense) :
  Permutation l l' -> Permutation (ofCategory k l) (ofCategory k l').
Proof.
  unfold ofCategory. induction 1; simpl.
  - constructor.
  - destruct (str_eqb (category x) k); [by constructor|assumption].
  - destruct (str_eqb (category x) k), (str_eqb (category y) k);
      try reflexivity; by constructor.
  - etransitivity; eassumption.
Qed.

(** X22.  For whole amounts whose magnitudes add up to [2^53] at most, the
    total the second reduce keeps for a category (lines 97 to 100, and 129
    to 132 for the charts) is the arithmetic sum of the amounts of the
    records of that category, and it is the same for every order of the
    records. *)
Theorem categorySpends_whole (records : list Expense) :
  Forall (fun e => inherited (category e) = false) records ->
  Forall whole records ->
  magnitudeOf records <= 2 ^ 53 ->
  exists spends,
    categorySpends records = Some spends /\
    (forall k, is_Some (own spends k) <-> ofCategory k records <> []) /\
    (forall k x, own spends k = Some x ->
       x = Number.of_Z (sumOf (ofCategory k records))) /\
    forall records', Permutation records records' ->
      exists spends',
        categorySpends records' = Some spends' /\
        forall k, own spends' k = own spends k.
Proof.
  intros Hi Hw Hb.
  destruct (categoryData_spec records Hi) as (o & E & _ & T).
  exists o. split; [exact E|].
  assert (Hown : forall k, own o k
            = match ofCategory k records with
              | [] => None
              | _ :: _ => Some (Number.of_Z (sumOf (ofCategory k records)))
              end).
  { intros k. rewrite T. by apply categoryTotal_whole. }
  split; [|split].
  - intros k. rewrite Hown.
    destruct (ofCategory k records); split; try congruence.
    + by intros [x Hx].
    + by eexists.
  - intros k x. rewrite Hown.
    destruct (ofCategory k records); [discriminate|]. congruence.
  - intros records' Hperm.
    assert (Hi' : Forall (fun e => inherited (category e) = false) records').
    { rewrite List.Forall_forall in *. intros e He. apply Hi.
      by apply (Permutation_in _ (Permutation_sym Hperm)). }
    assert (Hw' : Forall whole records').
    { rewrite List.Forall_forall in *. intros e He. apply Hw.
      by apply (Permutation_in _ (Permutation_sym Hperm)). }
    destruct (sumOf_perm _ _ Hperm) as [_ Hm].
    destruct (categoryData_spec records' Hi') as (o' & E' & _ & T').
    exists o'. split; [exact E'|]. intros k.
    rewrite T', Hown, categoryTotal_whole by (assumption || lia).
    pose proof (ofCategory_perm k _ _ Hperm) as Hk.
    destruct (sumOf_perm _ _ Hk) as [Hs _].
    destruct (ofCategory k records) as [|x l] eqn:E1.
    + apply Permutation_nil in Hk. by rewrite Hk.
    + destruct (ofCategory k records') as [|x' l'] eqn:E2.
      * apply Permutation_sym, Permutation_nil in Hk. discriminate.
      * by rewrite Hs.
Qed.

Lemma categorySpends_whole_witness :
  exists spends,
    categorySpends ledger0 = Some spends /\
    (forall k, is_Some (own spends k) <-> ofCategory k ledger0 <> []) /\
    (forall k x, own spends k = Some x ->
       x = Number.of_Z (sumOf (ofCategory k ledger0))) /\
    forall records', Permutation ledger0 records' ->
      exists spends',
        categorySpends records' = Some spends' /\
        forall k, own spends' k = own spends k.
Proof.
  apply (categorySpends_whole ledger0).
  - repeat constructor.
  - repeat constructor.
  - vm_compute. discriminate.
Defined.

(* ===================================================================== *)
(** ** Records without a date *)
(* ===================================================================== *)

(** X23.  A record whose date does not parse is in no row under the Weekly
    or the Monthly filter, whatever the instant: its Date compares false
    with every limit (lines 240 to 250). *)
Theorem undated_record_hidden (h : Host) (now : Z) (s : State)
    (v : list Expense) (e : Expense) :
  ledger s = Some v ->
  timeOf h e = None ->
  filterTimeSelect s = js "Weekly" \/ filterTimeSelect s = js "Monthly" ->
  exists page s',
    applyFilters h now s = Some (page, s') /\
    ~ In e (tableRows page).
Proof.
  intros Hv He Hp.
  destruct (applyFilters_runs h now s v Hv) as (page & s' & E & Hrows & _).
  exists page, s'. split; [exact E|].
  rewrite Hrows, sorted_by_In, filter_In. intros [_ Hk].
  unfold keeps in Hk. apply andb_true_iff in Hk as [_ Hk].
  assert (Hge : forall limit, date_ge h e limit = false).
  { intros limit. unfold date_ge. unfold timeOf in He. by rewrite He. }
  destruct Hp as [Hp|Hp]; rewrite Hp in Hk.
  - change (str_eqb (js "Weekly") (js "Weekly")) with true in Hk.
    cbv iota in Hk. by rewrite Hge in Hk.
  - change (str_eqb (js "Monthly") (js "Weekly")) with false in Hk.
    change (str_eqb (js "Monthly") (js "Monthly")) with true in Hk.
    cbv iota in Hk. by rewrite Hge in Hk.
Qed.

Lemma undated_record_hidden_witness :
  exists page s',
    applyFilters host0 now0
      {| heap := {[ 1%positive := [food50; undated] ]};
         expenses := 1%positive;
         localStorage := ∅;
         filterCategorySelect := js "All";
         filterTimeSelect := js "Monthly" |}
    = Some (page, s') /\
    ~ In undated (tableRows page).
Proof.
  apply (undated_record_hidden host0 now0 _ [food50; undated] undated).
  - reflexivity.
  - reflexivity.
  - right. reflexivity.
Defined.

Lemma extreme_undated (pick : Z -> Z -> Z) (ds : list (option Z)) :
  In None ds -> extreme pick ds = None.
Proof.
  assert (Hfold : forall ds acc,
            acc = None \/ In None ds ->
            fold_left
              (fun acc d' =>
                 match acc, d' with
                 | Some a, Some b => Some (pick a b)
                 | _, _ => None
                 end) ds acc = None).
  { clear ds. induction ds as [|d ds IH]; simpl; intros acc H.
    - destruct H as [H|[]]. exact H.
    - apply IH. destruct H as [-> | [-> | H]]; [by left| |by right].
      left. by destruct acc. }
  destruct ds as [|d ds]; [intros []|]. simpl.
  intros [-> | H]; apply Hfold; auto.
Qed.

(** X24.  When one of the records [updateInsights] is given has a date
    that does not parse, the average weekly spend it shows is [NaN] (lines
    108 to 118): the first and the last date are invalid, and so is the
    number of weeks. *)
Theorem updateInsights_undated (h : Host) (records : list Expense)
    (e : Expense) :
  In e records ->
  timeOf h e = None ->
  Forall (fun e => inherited (category e) = false) records ->
  exists panel,
    updateInsights h records = Some panel /\
    avgSpendEl panel = js "NaN" /\
    totalSpendEl panel = toFixed2 h (totalSpend records).
Proof.
  intros Hin He Hi.
  destruct (categoryData_spec records Hi) as (o & E & _).
  destruct records as [|r records]; [destruct Hin|].
  unfold updateInsights.
  change (categorySpends (r :: records)) with (categoryData (r :: records)).
  rewrite E. eexists. split; [reflexivity|]. simpl.
  split; [|reflexivity].
  unfold avgWeeklySpend, weeks.
  assert (Hl : lastDate h (r :: records) = None).
  { apply extreme_undated. rewrite <- He.
    apply (in_map (fun e => newDate h (date e))), Hin. }
  rewrite Hl.
  destruct (totalSpend (r :: records)) as [| | |]; reflexivity.
Qed.

Lemma updateInsights_undated_witness :
  exists panel,
    updateInsights host0 [food50; undated] = Some panel /\
    avgSpendEl panel = js "NaN" /\
    totalSpendEl panel = toFixed2 host0 (totalSpend [food50; undated]).
Proof.
  apply (updateInsights_undated host0 [food50; undated] undated).
  - right. left. reflexivity.
  - reflexivity.
  - repeat constructor.
Defined.

(* ===================================================================== *)
(** ** The bars and the total *)
(* ===================================================================== *)

Lemma to_Z_of_Z (z : Z) : Z.abs z <= 2 ^ 53 -> Number.to_Z (Number.of_Z z) = z.
Proof.
  intros Hz. destruct (Z.eq_dec z 0) as [->|Hne]; [reflexivity|].
  destruct (whole_canonical (Z.abs z)) as (c & ec & Hd & Hec & Hc); [lia|].
  rewrite (of_Z_whole z c ec) by (assumption || lia).
  unfold Number.to_Z.
  transitivity (cond_Zopp (z <? 0) (Z.abs z)); [|apply cond_Zopp_abs].
  f_equal.
  destruct (Z.leb_spec 0 ec) as [Hpos|Hneg].
  - rewrite (Z.pow_add_r 2 ec 1074) in Hc by lia.
    assert (0 < 2 ^ 1074) by (apply Z.pow_pos_nonneg; lia). nia.
  - assert (Hp : 2 ^ 1074 = 2 ^ (- ec) * 2 ^ (ec + 1074)).
    { rewrite <- Z.pow_add_r by lia. f_equal. lia. }
    assert (0 < 2 ^ (ec + 1074)) by (apply Z.pow_pos_nonneg; lia).
    assert (0 < 2 ^ (- ec)) by (apply Z.pow_pos_nonneg; lia).
    assert (Hm : Zpos c = Z.abs z * 2 ^ (- ec)).
    { rewrite Hp in Hc. nia. }
    rewrite Hm. apply Z.div_mul. lia.
Qed.

Lemma magnitudeOf_ofCategory (k : JSString) (records : list Expense) :
  magnitudeOf (ofCategory k records) <= magnitudeOf records.
Proof.
  unfold ofCategory. induction records as [|e records IH]; simpl; [lia|].
  destruct (str_eqb (category e) k); simpl; lia.
Qed.

Lemma wholeSum_perm (l l' : list Number.t) :
  Permutation l l' -> wholeSum l = wholeSum l'.
Proof. induction 1; simpl; lia. Qed.

Lemma ofCategory_cons (k : JSString) (e : Expense) (records : list Expense) :
  ofCategory k (e :: records)
  = if str_eqb (category e) k then e :: ofCategory k records
    else ofCategory k records.
Proof. reflexivity. Qed.

(** The sums of the categories add up to the sum of all records. *)
Lemma sumOf_by_category (records : list Expense) (ks : list JSString) :
  List.NoDup ks ->
  (forall e, In e records -> In (category e) ks) ->
  fold_right (fun k acc => sumOf (ofCategory k records) + acc) 0 ks
  = sumOf records.
Proof.
  intros Hnd. induction records as [|e records IH]; intros Hin.
  - simpl. clear Hnd Hin. induction ks as [|k ks IHk]; simpl; [reflexivity|].
    by rewrite IHk.
  - change (sumOf (e :: records))
      with (Number.to_Z (amount e) + sumOf records).
    rewrite <- IH by (intros e' He'; apply Hin; by right).
    assert (He : In (category e) ks) by (apply Hin; by left).
    clear IH Hin.
    assert (Hrest : forall ks',
              ~ In (category e) ks' ->
              fold_right
                (fun k acc => sumOf (ofCategory k (e :: records)) + acc)
                0 ks'
              = fold_right
                  (fun k acc => sumOf (ofCategory k records) + acc) 0 ks').
    { induction ks' as [|k' ks' IH']; [reflexivity|]. intros Hn.
      cbn [fold_right]. rewrite ofCategory_cons.
      replace (str_eqb (category e) k') with false
        by (symmetry; apply str_eqb_neq; intros E; apply Hn; left;
            congruence).
      rewrite IH'; [reflexivity|]. intros H. apply Hn. by right. }
    induction ks as [|k ks IHk]; [destruct He|].
    apply NoDup_cons_iff in Hnd as [Hk Hnd]. cbn [fold_right].
    rewrite ofCategory_cons.
    destruct (str_eqb (category e) k) eqn:Ek.
    + apply str_eqb_eq in Ek. subst k.
      change (sumOf (e :: ofCategory (category e) records))
        with (Number.to_Z (amount e) + sumOf (ofCategory (category e) records)).
      rewrite (Hrest ks Hk). lia.
    + apply str_eqb_neq in Ek. destruct He as [He|He]; [congruence|].
      rewrite (IHk Hnd He). lia.
Qed.

(** X25.  For whole amounts whose magnitudes add up to [2^53] at most, the
    bars of the chart add up to the total of the insights panel: each bar
    is a whole number, and the total spend is their sum. *)
Theorem bars_add_up_to_total (localeDate : Z -> JSString) (h : Host)
    (records : list Expense) (c : Charts) :
  Forall (plainKeys localeDate h) records ->
  Forall whole records ->
  magnitudeOf records <= 2 ^ 53 ->
  exists c' bar,
    renderCharts localeDate h records c = Some c' /\
    shown categoryChart c' = Some bar /\
    Forall (fun x => x = Number.of_Z (Number.to_Z x)) (data bar) /\
    totalSpend records = Number.of_Z (wholeSum (data bar)).
Proof.
  intros Hp Hw Hb.
  destruct (categoryData_spec records) as (cd & Ec & Kc & Tc).
  { eapply Forall_impl; [exact Hp|]. by intros e [? _]. }
  destruct (trendData_spec localeDate h records) as (td & Et & _).
  { eapply Forall_impl; [exact Hp|]. by intros e [_ ?]. }
  destruct (renderCharts_shown localeDate h records c cd td Ec Et)
    as (c' & E & Sb & _).
  assert (Hnd : List.NoDup (List.map fst cd))
    by (rewrite Kc; apply distinct_NoDup).
  assert (Hown : forall k x, In (k, x) cd ->
            x = Number.of_Z (sumOf (ofCategory k records)) /\
            Number.to_Z x = sumOf (ofCategory k records)).
  { intros k x Hkx. apply (own_NoDup_In cd k x Hnd) in Hkx.
    rewrite Tc, (categoryTotal_whole records k Hw Hb) in Hkx.
    destruct (ofCategory k records) as [|e l] eqn:Eo; [discriminate|].
    injection Hkx as <-. split; [reflexivity|]. apply to_Z_of_Z.
    pose proof (sumOf_bound (e :: l)).
    pose proof (magnitudeOf_ofCategory k records) as Hm.
    unfold ofCategory in Hm. unfold ofCategory in Eo. rewrite Eo in Hm. lia. }
  exists c', {| canvas := js "categoryChart"; chartType := js "bar";
                labels := Object_keys cd; data := Object_values cd |}.
  split; [exact E|]. split; [exact Sb|]. simpl. split.
  - rewrite List.Forall_forall. intros x Hx. unfold Object_values in Hx.
    apply in_map_iff in Hx as ([k x'] & <- & Hkx). simpl.
    apply (Permutation_in _ (Object_entries_perm cd)) in Hkx.
    destruct (Hown k x' Hkx) as [E1 E2]. rewrite E2. exact E1.
  - unfold totalSpend. change Number.zero with (Number.of_Z 0).
    rewrite (fold_add_whole records 0 Hw) by (simpl; lia).
    f_equal. rewrite Z.add_0_l.
    rewrite (wholeSum_perm (Object_values cd) (List.map snd cd))
      by (unfold Object_values; apply Permutation_map, Object_entries_perm).
    rewrite <- (sumOf_by_category records (List.map fst cd) Hnd).
    + clear Sb E Ec Tc Kc Hnd.
      induction cd as [|[k x] cd IH]; [reflexivity|]. simpl.
      destruct (Hown k x (or_introl eq_refl)) as [_ ->].
      rewrite IH; [reflexivity|]. intros k' x' H'. apply Hown. by right.
    + intros e He. rewrite Kc, distinct_In. split; [|tauto].
      by apply in_map.
Qed.

Lemma bars_add_up_to_total_witness :
  exists c' bar,
    renderCharts localeDate0 host0 ledger0 noCharts = Some c' /\
    shown categoryChart c' = Some bar /\
    Forall (fun x => x = Number.of_Z (Number.to_Z x)) (data bar) /\
    totalSpend ledger0 = Number.of_Z (wholeSum (data bar)).
Proof.
  apply (bars_add_up_to_total localeDate0 host0 ledger0 noCharts).
  - repeat constructor.
  - repeat constructor.
  - vm_compute. discriminate.
Defined.

(* ===================================================================== *)
(** ** [JSON.stringify] and [JSON.parse] *)
(* ===================================================================== *)

Lemma hex_val_digit (d : N) : (d < 16)%N -> JSON.hex_val (hex_digit d) = Some d.
Proof.
  intros H.
  assert (Hc : (d = 0 \/ d = 1 \/ d = 2 \/ d = 3 \/ d = 4 \/ d = 5 \/ d = 6
                \/ d = 7 \/ d = 8 \/ d = 9 \/ d = 10 \/ d = 11 \/ d = 12
                \/ d = 13 \/ d = 14 \/ d = 15)%N) by lia.
  repeat destruct Hc as [-> | Hc]; try subst d; reflexivity.
Qed.

Lemma unicode_escape_value (c : N) :
  (c < 65536)%N ->
  ((((c / 4096) * 16 + (c / 256) mod 16) * 16 + (c / 16) mod 16) * 16
   + c mod 16 = c)%N.
Proof.
  intros H.
  assert (E2 : (c / 256 = c / 16 / 16)%N)
    by (rewrite N.Div0.div_div; reflexivity).
  assert (E3 : (c / 4096 = c / 16 / 16 / 16)%N)
    by (rewrite !N.Div0.div_div; reflexivity).
  rewrite E2, E3. clear E2 E3. zify. Z.to_euclidean_division_equations. lia.
Qed.

(** A [\u] escape reads as the code unit it was made from. *)
Lemma string_body_unicode (c : N) (text t r : JSString) :
  (c < 65536)%N ->
  JSON.string_body text = Some (t, r) ->
  JSON.string_body (unicode_escape c ++ text) = Some (c :: t, r).
Proof.
  intros Hc Ht. unfold unicode_escape.
  assert (H1 : (c / 4096 < 16)%N)
    by (zify; Z.to_euclidean_division_equations; lia).
  assert (H2 : ((c / 256) mod 16 < 16)%N)
    by (zify; Z.to_euclidean_division_equations; lia).
  assert (H3 : ((c / 16) mod 16 < 16)%N)
    by (zify; Z.to_euclidean_division_equations; lia).
  assert (H4 : (c mod 16 < 16)%N)
    by (zify; Z.to_euclidean_division_equations; lia).
  cbn [app JSON.string_body]. 
  change (chr "\" =? dquote)%N with false.
  change (chr "\" <? 32)%N with false.
  change (chr "\" =? chr "\")%N with true.
  change (chr "u" =? dquote)%N with false.
  change (chr "u" =? chr "\")%N with false.
  change (chr "u" =? chr "/")%N with false.
  change (chr "u" =? chr "b")%N with false.
  change (chr "u" =? chr "f")%N with false.
  change (chr "u" =? chr "n")%N with false.
  change (chr "u" =? chr "r")%N with false.
  change (chr "u" =? chr "t")%N with false.
  change (chr "u" =? chr "u")%N with true.
  cbv iota.
  rewrite !hex_val_digit by assumption. rewrite Ht.
  by rewrite unicode_escape_value.
Qed.

Lemma string_body_literal (c : N) (text : JSString) :
  (c =? dquote)%N = false -> (c <? 32)%N = false ->
  (c =? chr "\")%N = false ->
  JSON.string_body (c :: text)
  = match JSON.string_body text with
    | Some (t, rest) => Some (c :: t, rest)
    | None => None
    end.
Proof. intros H1 H2 H3. cbn [JSON.string_body]. by rewrite H1, H2, H3. Qed.

(** The parser reads a quoted string back, whatever follows the closing
    quote. *)
Lemma string_body_quote (n : nat) :
  forall s rest, (length s <= n)%nat ->
    JSON.string_body (quote_body s ++ dquote :: rest) = Some (s, rest).
Proof.
  induction n as [|n IH]; intros s rest Hn.
  - destruct s; [reflexivity|simpl in Hn; lia].
  - destruct s as [|c r]; [reflexivity|]. simpl in Hn.
    assert (IHr : JSON.string_body (quote_body r ++ dquote :: rest)
                  = Some (r, rest)) by (apply IH; lia).
    cbn [quote_body].
    destruct (c =? 8)%N eqn:E8.
    { apply N.eqb_eq in E8. subst c. cbn [app JSON.string_body].
      rewrite IHr. reflexivity. }
    destruct (c =? 9)%N eqn:E9.
    { apply N.eqb_eq in E9. subst c. cbn [app JSON.string_body].
      rewrite IHr. reflexivity. }
    destruct (c =? 10)%N eqn:E10.
    { apply N.eqb_eq in E10. subst c. cbn [app JSON.string_body].
      rewrite IHr. reflexivity. }
    destruct (c =? 12)%N eqn:E12.
    { apply N.eqb_eq in E12. subst c. cbn [app JSON.string_body].
      rewrite IHr. reflexivity. }
    destruct (c =? 13)%N eqn:E13.
    { apply N.eqb_eq in E13. subst c. cbn [app JSON.string_body].
      rewrite IHr. reflexivity. }
    destruct (c =? dquote)%N eqn:Eq.
    { apply N.eqb_eq in Eq. subst c. cbn [app JSON.string_body].
      rewrite IHr. reflexivity. }
    destruct (c =? chr "\")%N eqn:Eb.
    { apply N.eqb_eq in Eb. subst c. cbn [app JSON.string_body].
      rewrite IHr. reflexivity. }
    destruct (c <? 32)%N eqn:Ec.
    { apply N.ltb_lt in Ec. rewrite <- app_assoc.
      apply string_body_unicode; [lia|exact IHr]. }
    destruct (is_leading_surrogate c) eqn:El.
    { unfold is_leading_surrogate in El.
      apply andb_true_iff in El as [El1 El2].
      apply N.leb_le in El1, El2.
      destruct r as [|d r'].
      - apply string_body_unicode; [lia|exact IHr].
      - destruct (is_trailing_surrogate d) eqn:Et.
        + unfold is_trailing_surrogate in Et.
          apply andb_true_iff in Et as [Et1 Et2].
          apply N.leb_le in Et1, Et2.
          cbn [app]. rewrite (string_body_literal c) by assumption.
          rewrite (string_body_literal d).
          * rewrite (IH r' rest) by (simpl in Hn; lia). reflexivity.
          * apply N.eqb_neq. unfold dquote. lia.
          * apply N.ltb_ge. lia.
          * apply N.eqb_neq. unfold chr. simpl. lia.
        + rewrite <- app_assoc. apply string_body_unicode; [lia|exact IHr]. }
    destruct (is_trailing_surrogate c) eqn:Et.
    { unfold is_trailing_surrogate in Et.
      apply andb_true_iff in Et as [Et1 Et2].
      apply N.leb_le in Et1, Et2.
      rewrite <- app_assoc. apply string_body_unicode; [lia|exact IHr]. }
    cbn [app]. rewrite (string_body_literal c) by assumption.
    rewrite IHr. reflexivity.
Qed.

Lemma span_digits_app (s ds r rest : JSString) (c : N) :
  span_digits s = (ds, r) -> is_digit c = false ->
  span_digits (s ++ c :: rest) = (ds, r ++ c :: rest).
Proof.
  intros Hs Hc. revert ds r Hs.
  induction s as [|d s IH]; intros ds r Hs.
  - injection Hs as <- <-. simpl. by rewrite Hc.
  - simpl in *. destruct (is_digit d).
    + destruct (span_digits s) as [ds' r'].
      injection Hs as <- <-. by rewrite (IH ds' r' eq_refl).
    + by injection Hs as <- <-.
Qed.

(** The exponent of a number, with a comma after the number. *)
Lemma exponent_comma {A} (f : Z -> A) (r2 rest r : JSString) (x : A) :
  (let '(e10, r3, exp_ok) :=
     match r2 with
     | c :: r =>
         if ((c =? chr "e") || (c =? chr "E"))%N then
           let '(eneg, r') :=
             match r with
             | d :: q =>
                 if (d =? chr "-")%N then (true, q)
                 else if (d =? chr "+")%N then (false, q)
                 else (false, r)
             | [] => (false, r)
             end in
           let '(ds, r3) := span_digits r' in
           (if eneg then - digits_val ds else digits_val ds, r3,
            match ds with [] => false | _ => true end)
         else (0, r2, true)
     | [] => (0, r2, true)
     end in
   if negb exp_ok then None else Some (f e10, r3)) = Some (x, r) ->
  (let '(e10, r3, exp_ok) :=
     match r2 ++ chr "," :: rest with
     | c :: r =>
         if ((c =? chr "e") || (c =? chr "E"))%N then
           let '(eneg, r') :=
             match r with
             | d :: q =>
                 if (d =? chr "-")%N then (true, q)
                 else if (d =? chr "+")%N then (false, q)
                 else (false, r)
             | [] => (false, r)
             end in
           let '(ds, r3) := span_digits r' in
           (if eneg then - digits_val ds else digits_val ds, r3,
            match ds with [] => false | _ => true end)
         else (0, r2 ++ chr "," :: rest, true)
     | [] => (0, r2 ++ chr "," :: rest, true)
     end in
   if negb exp_ok then None else Some (f e10, r3))
  = Some (x, r ++ chr "," :: rest).
Proof.
  intros H.
  destruct r2 as [|c2 r2'].
  { cbv beta iota zeta in H. cbn [negb] in H. by injection H as <- <-. }
  cbn [app].
  destruct ((c2 =? chr "e") || (c2 =? chr "E"))%N.
  2:{ cbv beta iota zeta in H. cbn [negb] in H. by injection H as <- <-. }
  destruct r2' as [|d q]; [discriminate H|].
  cbn [app].
  destruct (d =? chr "-")%N;
    [|destruct (d =? chr "+")%N;
      [|change (d :: q ++ chr "," :: rest)
          with ((d :: q) ++ chr "," :: rest)]];
  cbv beta iota zeta in H |- *;
  match type of H with
  | context [span_digits ?u] =>
      destruct (span_digits u) as [ds r3] eqn:E3;
      rewrite (span_digits_app u ds r3 rest (chr ",") E3 eq_refl);
      destruct ds;
        [discriminate H
        |cbv beta iota zeta in H; cbn [negb] in H; by injection H as <- <-]
  end.
Qed.

(** A number followed by a comma reads as it does alone. *)
Lemma number_comma (neg : bool) (s r rest : JSString) (x : Number.t) :
  JSON.number neg s = Some (x, r) ->
  JSON.number neg (s ++ chr "," :: rest) = Some (x, r ++ chr "," :: rest).
Proof.
  unfold JSON.number. intros H.
  destruct (span_digits s) as [ip r1] eqn:E1.
  rewrite (span_digits_app s ip r1 rest (chr ",") E1 eq_refl).
  match type of H with
  | (if negb ?b then _ else _) = _ =>
      destruct b; cbn [negb] in *; [|discriminate]
  end.
  destruct r1 as [|c1 r1'].
  - by injection H as <- <-.
  - cbn [app]. destruct (c1 =? chr ".")%N.
    + destruct (span_digits r1') as [fp r2] eqn:E2.
      rewrite (span_digits_app r1' fp r2 rest (chr ",") E2 eq_refl).
      destruct fp as [|f fp']; cbn [negb] in *; [discriminate|].
      exact (exponent_comma
               (fun e10 =>
                  Number.of_decimal neg (digits_val (ip ++ f :: fp'))
                    (e10 - Z.of_nat (length (f :: fp'))))
               r2 rest r x H).
    + cbn [negb] in *.
      exact (exponent_comma
               (fun e10 =>
                  Number.of_decimal neg (digits_val (ip ++ []))
                    (e10 - Z.of_nat (length ([] : JSString))))
               (c1 :: r1') rest r x H).
Qed.

Lemma skip_ws_app (t u r : JSString) (c : N) :
  JSON.skip_ws t = c :: r -> JSON.skip_ws (t ++ u) = c :: r ++ u.
Proof.
  induction t as [|d t IH]; simpl; [discriminate|].
  destruct (JSON.is_ws d); [exact IH|]. by intros [= -> ->].
Qed.

Lemma skip_ws_blank (r rest : JSString) (c : N) :
  JSON.skip_ws r = [] -> JSON.is_ws c = false ->
  JSON.skip_ws (r ++ c :: rest) = c :: rest.
Proof.
  intros Hr Hc. induction r as [|d r IH]; simpl in *; [by rewrite Hc|].
  destruct (JSON.is_ws d); [by apply IH|discriminate].
Qed.

(** [elements] ends in an array and [members] in an object. *)
Lemma elements_Arr (n : nat) :
  forall s acc v r, JSON.elements n s acc = JSON.Ok (v, r) ->
    exists vs, v = JSON.Arr vs.
Proof.
  induction n as [|n IH]; intros s acc v r H; [discriminate|].
  cbn [JSON.elements] in H.
  destruct (JSON.parse_value n s) as [[v1 r1]| |]; try discriminate.
  destruct (JSON.skip_ws r1) as [|c r']; [discriminate|].
  destruct (c =? chr ",")%N; [by eapply IH|].
  destruct (c =? chr "]")%N; [|discriminate].
  injection H as <- <-. by eexists.
Qed.

Lemma members_Obj (n : nat) :
  forall s acc v r, JSON.members n s acc = JSON.Ok (v, r) ->
    exists ms, v = JSON.Obj ms.
Proof.
  induction n as [|n IH]; intros s acc v r H; [discriminate|].
  cbn [JSON.members] in H.
  destruct s as [|q r0]; [discriminate|].
  destruct (negb (q =? dquote)%N); [discriminate|].
  destruct (JSON.string_body r0) as [[k r1]|]; [|discriminate].
  destruct (JSON.skip_ws r1) as [|c r2]; [discriminate|].
  destruct (negb (c =? chr ":")%N); [discriminate|].
  destruct (JSON.parse_value n r2) as [[v1 r3]| |]; try discriminate.
  destruct (JSON.skip_ws r3) as [|c' r4]; [discriminate|].
  destruct (c' =? chr ",")%N; [by eapply IH|].
  destruct (c' =? chr "}")%N; [|discriminate].
  injection H as <- <-. by eexists.
Qed.

(** What the host writes for a Number that reads back is read as that
    Number before a comma too. *)
Lemma readsBack_comma (h : Host) (x : Number.t) (n : nat) (rest : JSString) :
  JSON.parse (numberToString h x) = JSON.Ok (JSON.Num x) ->
  exists r,
    JSON.parse_value (S n) (numberToString h x ++ chr "," :: rest)
    = JSON.Ok (JSON.Num x, r) /\
    JSON.skip_ws r = chr "," :: rest.
Proof.
  unfold JSON.parse. set (t := numberToString h x).
  replace (2 * length t + 2)%nat with (S (2 * length t + 1)) by lia.
  generalize (2 * length t + 1)%nat. intros m H.
  cbn [JSON.parse_value] in *.
  destruct (JSON.skip_ws t) as [|c0 r0] eqn:Ews; [discriminate|].
  rewrite (skip_ws_app t _ r0 c0 Ews).
  destruct (c0 =? chr "{")%N.
  { exfalso. destruct (JSON.skip_ws r0) as [|c' r']; [discriminate|].
    destruct (c' =? chr "}")%N;
      [destruct (JSON.skip_ws r'); discriminate|].
    destruct (JSON.members m (c' :: r') []) as [[v r]| |] eqn:Em;
      try discriminate.
    destruct (members_Obj _ _ _ _ _ Em) as [ms ->].
    destruct (JSON.skip_ws r); discriminate. }
  destruct (c0 =? chr "[")%N.
  { exfalso. destruct (JSON.skip_ws r0) as [|c' r']; [discriminate|].
    destruct (c' =? chr "]")%N;
      [destruct (JSON.skip_ws r'); discriminate|].
    destruct (JSON.elements m r0 []) as [[v r]| |] eqn:Em;
      try discriminate.
    destruct (elements_Arr _ _ _ _ _ Em) as [ms ->].
    destruct (JSON.skip_ws r); discriminate. }
  destruct (c0 =? dquote)%N.
  { exfalso. destruct (JSON.string_body r0) as [[t' r]|]; [|discriminate].
    destruct (JSON.skip_ws r); discriminate. }
  destruct (c0 =? chr "t")%N.
  { exfalso. unfold JSON.literal in H.
    match type of H with
    | context [strip_prefix ?p ?u] => destruct (strip_prefix p u) as [r|]
    end; [|discriminate].
    destruct (JSON.skip_ws r); discriminate. }
  destruct (c0 =? chr "f")%N.
  { exfalso. unfold JSON.literal in H.
    match type of H with
    | context [strip_prefix ?p ?u] => destruct (strip_prefix p u) as [r|]
    end; [|discriminate].
    destruct (JSON.skip_ws r); discriminate. }
  destruct (c0 =? chr "n")%N.
  { exfalso. unfold JSON.literal in H.
    match type of H with
    | context [strip_prefix ?p ?u] => destruct (strip_prefix p u) as [r|]
    end; [|discriminate].
    destruct (JSON.skip_ws r); discriminate. }
  destruct (c0 =? chr "-")%N.
  - destruct (JSON.number true r0) as [[x' r]|] eqn:En; [|discriminate].
    rewrite (number_comma true r0 r rest x' En).
    destruct (JSON.skip_ws r) eqn:Er; [|discriminate].
    injection H as ->. eexists. split; [reflexivity|].
    by apply skip_ws_blank.
  - destruct (JSON.number false (c0 :: r0)) as [[x' r]|] eqn:En;
      [|discriminate].
    change (c0 :: r0 ++ chr "," :: rest)
      with ((c0 :: r0) ++ chr "," :: rest).
    rewrite (number_comma false (c0 :: r0) r rest x' En).
    destruct (JSON.skip_ws r) eqn:Er; [|discriminate].
    injection H as ->. eexists. split; [reflexivity|].
    by apply skip_ws_blank.
Qed.

Lemma parse_value_string (n : nat) (s tail : JSString) :
  JSON.parse_value (S n) (quoteJSONString s ++ tail)
  = JSON.Ok (JSON.Str s, tail).
Proof.
  unfold quoteJSONString. cbn [app]. rewrite <- app_assoc. cbn [app].
  cbn [JSON.parse_value JSON.skip_ws].
  change (JSON.is_ws dquote) with false. cbv iota.
  change (dquote =? chr "{")%N with false.
  change (dquote =? chr "[")%N with false.
  change (dquote =? dquote)%N with true. cbv iota.
  by rewrite (string_body_quote (length s)).
Qed.

Lemma valueBeforeComma_string (s : JSString) :
  valueBeforeComma (quoteJSONString s) (JSON.Str s).
Proof.
  intros n rest. eexists. split; [apply parse_value_string|reflexivity].
Qed.

Lemma valueBeforeComma_number (h : Host) (x : Number.t) :
  readsBack h x -> valueBeforeComma (stringifyNumber h x) (numberValue x).
Proof.
  intros H n rest. unfold stringifyNumber, numberValue, readsBack in *.
  destruct (Number.is_finite x).
  - by apply readsBack_comma, H.
  - eexists. split; reflexivity.
Qed.

Lemma stringifyProperty_app (name : string) (valueText tail : JSString) :
  stringifyProperty name valueText ++ tail
  = dquote :: quote_body (js name) ++ dquote :: chr ":" :: valueText ++ tail.
Proof.
  unfold stringifyProperty, quoteJSONString. cbn [app].
  rewrite <- !app_assoc. reflexivity.
Qed.

Lemma members_key (n : nat) (name : string) (valueText tail : JSString)
    (acc : list (JSString * JSON.value)) :
  JSON.members (S n) (stringifyProperty name valueText ++ tail) acc
  = match JSON.parse_value n (valueText ++ tail) with
    | JSON.Ok (v, r3) =>
        match JSON.skip_ws r3 with
        | c' :: r4 =>
            if (c' =? chr ",")%N
            then JSON.members n (JSON.skip_ws r4) ((js name, v) :: acc)
            else if (c' =? chr "}")%N
            then JSON.Ok (JSON.Obj (JSON.properties (rev ((js name, v) :: acc))),
                         r4)
            else JSON.SyntaxError
        | [] => JSON.SyntaxError
        end
    | JSON.SyntaxError => JSON.SyntaxError
    | JSON.OutOfFuel => JSON.OutOfFuel
    end.
Proof.
  rewrite stringifyProperty_app. cbn [JSON.members].
  change (negb (dquote =? dquote)%N) with false. cbv iota.
  rewrite (string_body_quote (length (js name))) by reflexivity.
  cbn [JSON.skip_ws]. change (JSON.is_ws (chr ":")) with false. cbv iota.
  change (negb (chr ":" =? chr ":")%N) with false. cbv iota.
  reflexivity.
Qed.

(** A property that is not the last of its object. *)
Lemma members_property (n : nat) (name : string) (valueText rest : JSString)
    (val : JSON.value) (acc : list (JSString * JSON.value))
    (expected : JSON.value * JSString) :
  valueBeforeComma valueText val ->
  (forall m, reads (JSON.members m (JSON.skip_ws rest) ((js name, val) :: acc))
               expected) ->
  reads (JSON.members n
           (stringifyProperty name valueText ++ chr "," :: rest) acc)
    expected.
Proof.
  intros Hval Hrest. destruct n as [|n]; [by left|].
  rewrite members_key. destruct n as [|n]; [by left|].
  destruct (Hval n rest) as (r & -> & ->).
  change (chr "," =? chr ",")%N with true. cbv iota. apply Hrest.
Qed.

(** The last property of an object, a string. *)
Lemma members_last_property (n : nat) (name : string) (s rest : JSString)
    (acc : list (JSString * JSON.value)) :
  reads (JSON.members n
           (stringifyProperty name (quoteJSONString s) ++ chr "}" :: rest) acc)
    (JSON.Obj (JSON.properties (rev ((js name, JSON.Str s) :: acc))), rest).
Proof.
  destruct n as [|n]; [by left|].
  rewrite members_key. destruct n as [|n]; [by left|].
  rewrite parse_value_string. right. reflexivity.
Qed.

Lemma skip_ws_property (name : string) (valueText tail : JSString) :
  JSON.skip_ws (stringifyProperty name valueText ++ tail)
  = stringifyProperty name valueText ++ tail.
Proof. rewrite stringifyProperty_app. reflexivity. Qed.

Lemma stringifyExpense_app (h : Host) (e : Expense) (rest : JSString) :
  stringifyExpense h e ++ rest
  = chr "{"
    :: stringifyProperty "id" (stringifyNumber h (Number.of_Z (id e)))
    ++ chr ","
    :: stringifyProperty "amount" (stringifyNumber h (amount e))
    ++ chr ","
    :: stringifyProperty "date" (quoteJSONString (date e))
    ++ chr ","
    :: stringifyProperty "category" (quoteJSONString (category e))
    ++ chr ","
    :: stringifyProperty "description" (quoteJSONString (description e))
    ++ chr "}" :: rest.
Proof.
  unfold stringifyExpense. cbn [app].
  repeat (rewrite <- app_assoc; cbn [app]). reflexivity.
Qed.

(** An expense reads back as its value, whatever comes after it. *)
Lemma parse_expense (h : Host) (e : Expense) (n : nat) (rest : JSString) :
  storable h e ->
  reads (JSON.parse_value n (stringifyExpense h e ++ rest))
    (expenseValue e, rest).
Proof.
  intros [Hid Hamount]. destruct n as [|n]; [by left|].
  rewrite stringifyExpense_app.
  cbn [JSON.parse_value JSON.skip_ws].
  change (JSON.is_ws (chr "{")) with false. cbv iota.
  change (chr "{" =? chr "{")%N with true. cbv iota.
  rewrite skip_ws_property.
  rewrite (stringifyProperty_app "id") at 1.
  change (dquote =? chr "}")%N with false. cbv iota.
  apply members_property with (val := numberValue (Number.of_Z (id e)));
    [by apply valueBeforeComma_number|].
  intros m1. rewrite skip_ws_property.
  apply members_property with (val := numberValue (amount e));
    [by apply valueBeforeComma_number|].
  intros m2. rewrite skip_ws_property.
  apply members_property with (val := JSON.Str (date e));
    [apply valueBeforeComma_string|].
  intros m3. rewrite skip_ws_property.
  apply members_property with (val := JSON.Str (category e));
    [apply valueBeforeComma_string|].
  intros m4. rewrite skip_ws_property.
  apply members_last_property.
Qed.

Lemma separated_cons (t : JSString) (texts : list JSString) :
  separated (t :: texts)
  = match texts with
    | [] => t
    | _ :: _ => t ++ chr "," :: separated texts
    end.
Proof. by destruct texts. Qed.

(** The expenses of an array, one at least, up to its closing bracket. *)
Lemma elements_expenses (h : Host) (v : list Expense) :
  v <> [] -> Forall (storable h) v ->
  forall n acc rest,
    reads (JSON.elements n
             (separated (List.map (stringifyExpense h) v) ++ chr "]" :: rest)
             acc)
      (JSON.Arr (rev acc ++ List.map expenseValue v), rest).
Proof.
  induction v as [|e v IH]; [congruence|]. intros _ Hv n acc rest.
  apply Forall_cons_1 in Hv as [He Hv].
  destruct n as [|n]; [by left|].
  destruct v as [|e' v'].
  - cbn [List.map separated JSON.elements].
    destruct (parse_expense h e n (chr "]" :: rest) He) as [-> | ->];
      [by left|].
    right. cbn [JSON.skip_ws List.map].
    change (JSON.is_ws (chr "]")) with false. cbv iota.
    change (chr "]" =? chr ",")%N with false.
    change (chr "]" =? chr "]")%N with true. cbv iota.
    reflexivity.
  - set (v := e' :: v') in *.
    replace (separated (List.map (stringifyExpense h) (e :: v)))
      with (stringifyExpense h e
            ++ chr "," :: separated (List.map (stringifyExpense h) v))
      by reflexivity.
    rewrite <- app_assoc. cbn [app JSON.elements].
    destruct (parse_expense h e n
                (chr "," :: separated (List.map (stringifyExpense h) v)
                 ++ chr "]" :: rest) He) as [-> | ->]; [by left|].
    cbn [JSON.skip_ws]. change (JSON.is_ws (chr ",")) with false. cbv iota.
    change (chr "," =? chr ",")%N with true. cbv iota.
    destruct (IH ltac:(discriminate) Hv n (expenseValue e :: acc) rest)
      as [-> | ->]; [by left|].
    right. cbn [rev List.map]. by rewrite <- app_assoc.
Qed.

(** [JSON.parse] reads what [JSON.stringify] writes for a ledger. *)
Lemma parse_stringify (h : Host) (v : list Expense) :
  Forall (storable h) v ->
  JSON.parse (JSON_stringify h v)
  = JSON.Ok (JSON.Arr (List.map expenseValue v)).
Proof.
  intros Hv. unfold JSON.parse.
  pose proof (proj1 (parse_fuel (2 * length (JSON_stringify h v) + 2))
                (JSON_stringify h v) ltac:(lia)) as Hfuel.
  assert (Hr : forall n,
            reads (JSON.parse_value n (JSON_stringify h v))
              (JSON.Arr (List.map expenseValue v), [])).
  { intros [|n]; [by left|]. unfold JSON_stringify.
    cbn [JSON.parse_value JSON.skip_ws].
    change (JSON.is_ws (chr "[")) with false. cbv iota.
    change (chr "[" =? chr "{")%N with false.
    change (chr "[" =? chr "[")%N with true. cbv iota.
    destruct v as [|e v']; [by right|].
    assert (Hs : exists tail,
              separated (List.map (stringifyExpense h) (e :: v')) ++ [chr "]"]
              = chr "{" :: tail).
    { cbn [List.map]. rewrite separated_cons.
      destruct (List.map (stringifyExpense h) v'); by eexists. }
    destruct Hs as [tail Hs].
    rewrite Hs at 1. cbn [JSON.skip_ws].
    change (JSON.is_ws (chr "{")) with false. cbv iota.
    change (chr "{" =? chr "]")%N with false. cbv iota.
    apply (elements_expenses h (e :: v') ltac:(discriminate) Hv n [] []). }
  destruct (Hr (2 * length (JSON_stringify h v) + 2)%nat) as [E|E];
    [contradiction|].
  rewrite E. reflexivity.
Qed.

(** X26.  What [saveExpenses] (lines 44 to 46) stores, the initial load
    (line 37) reads back: an array with one object for each expense of the
    ledger, in order, with its five properties; strings come back as they
    were, whatever characters they hold, and so do the finite Numbers the
    host writes readably; a Number that is not finite comes back as
    [null]. *)
Theorem saveExpenses_reload (h : Host) (s : State) (v : list Expense) :
  ledger s = Some v ->
  Forall (storable h) v ->
  exists s',
    saveExpenses (JSON_stringify h) s = Some s' /\
    ledger s' = Some v /\
    initial_expenses (localStorage s')
    = JSON.Ok (JSON.Arr (List.map expenseValue v)).
Proof.
  intros Hv Hs. unfold saveExpenses. rewrite Hv.
  eexists. split; [reflexivity|]. split; [exact Hv|].
  unfold initial_expenses, load. simpl. rewrite lookup_insert_eq.
  by rewrite parse_stringify.
Qed.

Lemma saveExpenses_reload_witness :
  exists s',
    saveExpenses (JSON_stringify host1)
      {| heap := {[ 1%positive := [quoted100; food50] ]};
         expenses := 1%positive;
         localStorage := ∅;
         filterCategorySelect := js "All";
         filterTimeSelect := js "All" |}
    = Some s' /\
    ledger s' = Some [quoted100; food50] /\
    initial_expenses (localStorage s')
    = JSON.Ok (JSON.Arr (List.map expenseValue [quoted100; food50])).
Proof.
  apply (saveExpenses_reload host1 _ [quoted100; food50]).
  - reflexivity.
  - repeat constructor; intros _; vm_compute; reflexivity.
Defined.



Example JSON_stringify_ledger :
  JSON_stringify host1 [quoted100; food50]
  = quoted "[{'id':1704067200123,'amount':100,'date':'2024-01-01',"
    ++ quoted "'category':'Food \'out\'','description':'a\\b\n"
    ++ [55357%N; 56832%N]
    ++ quoted "\ud83d'},{'id':1704672000456,'amount':50,"
    ++ quoted "'date':'2024-01-08','category':'Food','description':''}]".
Proof. vm_compute. reflexivity. Qed.

(* ===================================================================== *)
(** ** The model on small inputs *)
(* ===================================================================== *)

Example parseFloat_100 : Number.parseFloat (js "100") = Number.of_Z 100.
Proof. reflexivity. Qed.

Example parseFloat_tenth :
  Number.parseFloat (js " +.1e0x") = S754_finite false 7205759403792794 (-56).
Proof. reflexivity. Qed.

Example parseFloat_negative :
  Number.parseFloat (js "-12.50") = Number.of_decimal true 125 (-1).
Proof. reflexivity. Qed.

Example parseFloat_empty : Number.parseFloat [] = Number.nan.
Proof. reflexivity. Qed.

Example parseFloat_minus_zero : Number.parseFloat (js "-0.0") = S754_zero true.
Proof. reflexivity. Qed.

Example tenth_plus_fifth :
  toFixed2 host0
    (Number.add (Number.parseFloat (js "0.1")) (Number.parseFloat (js "0.2")))
  = js "0.30" /\
  Number.add (Number.parseFloat (js "0.1")) (Number.parseFloat (js "0.2"))
  <> Number.parseFloat (js "0.3").
Proof. split; vm_compute; [reflexivity|discriminate]. Qed.

Example toFixed2_rounds :
  toFixed2 host0 (Number.parseFloat (js "1.005")) = js "1.00" /\
  toFixed2 host0 (Number.parseFloat (js "0.125")) = js "0.13" /\
  toFixed2 host0 (Number.parseFloat (js "-0.001")) = js "-0.00" /\
  toFixed2 host0 (Number.parseFloat (js "1234567.891")) = js "1234567.89".
Proof. repeat split; vm_compute; reflexivity. Qed.

Example parse_new_year :
  Date.parse (fun _ => None) (js "2024-01-01") = Some 1704067200000.
Proof. reflexivity. Qed.

Example parse_no_leap_day :
  Date.parse (fun _ => None) (js "2023-02-29") = None /\
  Date.parse (fun _ => None) (js "2024-02-29") = Some 1709164800000.
Proof. split; reflexivity. Qed.

(** A week before the first of January is Christmas Day. *)
Example oneWeekAgo_new_year :
  oneWeekAgo host0 1704067200000 = Date.parse (fun _ => None) (js "2023-12-25").
Proof. vm_compute. reflexivity. Qed.

(** A month before noon of 31 March 2024 is noon of 2 March: February has
    29 days that year and the two left over run on. *)
Example oneMonthAgo_end_of_March :
  oneMonthAgo host0 (1711843200000 + 43200000)
  = Some (1709337600000 + 43200000) /\
  Date.parse (fun _ => None) (js "2024-03-31") = Some 1711843200000 /\
  Date.parse (fun _ => None) (js "2024-03-02") = Some 1709337600000.
Proof. repeat split; vm_compute; reflexivity. Qed.

Example JSON_parse_ledger :
  JSON.parse (js "[{" ++ dquote :: js "amount" ++ dquote :: js ": 12.5}] ")
  = JSON.Ok
      (JSON.Arr
         [JSON.Obj [(js "amount", JSON.Num (Number.parseFloat (js "12.5")))]]).
Proof. vm_compute. reflexivity. Qed.

Example JSON_parse_trailing_comma :
  JSON.parse (js "[1,]") = JSON.SyntaxError.
Proof. vm_compute. reflexivity. Qed.

(** Keys that are array indices come first, in ascending order. *)
Example Object_keys_order :
  Object_keys
    [(js "Food", Number.zero); (js "10", Number.zero); (js "7", Number.zero);
     (js "07", Number.zero)]
  = [js "7"; js "10"; js "Food"; js "07"].
Proof. vm_compute. reflexivity. Qed.

(** The example of the specification: the second record is the later one
    and is rendered first. *)
Example applyFilters_example :
  option_map (fun r => tableRows (fst r))
    (applyFilters host0 now0
       {| heap := {[ 1%positive := example ]};
          expenses := 1%positive;
          localStorage := ∅;
          filterCategorySelect := js "All";
          filterTimeSelect := js "All" |})
  = Some [food50; food100].
Proof. vm_compute. reflexivity. Qed.

(** A name that comes twice: one property, in the place of the first
    member and with the value of the second. *)
Example JSON_parse_repeated_name :
  JSON.parse
    (js "{" ++ dquote :: js "a" ++ dquote :: js ":1," ++ dquote :: js "b"
     ++ dquote :: js ":2," ++ dquote :: js "a" ++ dquote :: js ":3}")
  = JSON.Ok
      (JSON.Obj [(js "a", JSON.Num (Number.of_Z 3));
                 (js "b", JSON.Num (Number.of_Z 2))]).
Proof. vm_compute. reflexivity. Qed.
